(** * chat-lecture: the browser client (static/js/app.js) and the core it talks to

    The first part embeds the JavaScript of [frontend/static/js/app.js]:
    the values and string operations it relies on, the module-level state,
    the DOM nodes it reads and writes, and its handlers.  An [async]
    handler is split at its [await]: the part that runs when the event
    fires, and the part that runs when the request settles.

    The second part models the ingestion and retrieval core, which is not
    part of the client file, from its specification. *)

From Stdlib Require Import ZArith NArith QArith Qabs Qpower Qround List Bool Lia Lqa.
From Stdlib Require Import Ascii String Sorted.
Import ListNotations.

Local Open Scope Z_scope.

(** ** JavaScript values *)

Module Js.

(** A JavaScript string is a sequence of UTF-16 code units. *)
Definition jsstring := list N.

(** A string literal of the source (ASCII only). *)
Definition lit (s : string) : jsstring :=
  List.map N_of_ascii (list_ascii_of_string s).

(** [a === b] on two strings. *)
Fixpoint str_eqb (a b : jsstring) : bool :=
  match a, b with
  | [], [] => true
  | x :: a', y :: b' => N.eqb x y && str_eqb a' b'
  | _, _ => false
  end.

(** Numbers are IEEE 754 doubles: NaN, the two infinities, and the finite
    doubles, each given by the rational it is ([is_double] below tells
    which rationals are doubles).  The two zeros are not distinguished:
    both are falsy, and the operations below give the same results at
    both, up to the sign of a zero. *)
Inductive number :=
| NaN
| Infinity (negative : bool)
| Finite (q : Q).

(** [2 ^ c] for an integer exponent. *)
Definition pow2 (c : Z) : Q := (2 ^ c)%Q.

(** The binary exponent [e] of a positive rational:
    [2^e <= q < 2^(e+1)]. *)
Definition ilog2 (q : Q) : Z :=
  let e := Z.log2 (Qnum q) - Z.log2 (Zpos (Qden q)) in
  if Qle_bool (pow2 e) q then e else e - 1.

(** The nearest integer, the even one of two equally near. *)
Definition round_half_even (x : Q) : Z :=
  let f := Qfloor x in
  match (x - inject_Z f ?= 1 # 2)%Q with
  | Lt => f
  | Eq => if Z.even f then f else f + 1
  | Gt => f + 1
  end.

(** What the last of the 53 significant bits of a positive rational is
    worth: [2^c], and never less than [2^-1074]. *)
Definition ulp_exponent (a : Q) : Z := Z.max (ilog2 a - 52) (-1074).

(** The multiple of that [2^c] nearest to a positive rational. *)
Definition nearest (a : Q) : Q :=
  let c := ulp_exponent a in
  (inject_Z (round_half_even (a * pow2 (- c))) * pow2 c)%Q.

(** The double a real result is rounded to (roundTiesToEven): the
    nearest number of 53 significant bits; from [2^1024] on the result
    is an infinity, and a result that rounds to zero is zero. *)
Definition round64 (q : Q) : number :=
  if Qeq_bool q 0 then Finite 0
  else
    let v := nearest (Qabs q) in
    if Qle_bool (pow2 1024) v then Infinity (negb (Qle_bool 0 q))
    else Finite (if Qle_bool 0 q then v else - v)%Q.

(** The rational is a finite double. *)
Definition is_double (q : Q) : bool :=
  match round64 q with
  | Finite v => Qeq_bool v q
  | _ => false
  end.

(** The values [formatTimestamp] is written for: a number of seconds, or
    a missing one. *)
Inductive value :=
| undefined
| null
| Num (n : number).

(** ToBoolean, as used by [!seconds]. *)
Definition truthy (v : value) : bool :=
  match v with
  | undefined | null => false
  | Num NaN => false
  | Num (Infinity _) => true
  | Num (Finite q) => negb (Qeq_bool q 0)
  end.

(** ToNumber, as applied by [/] and [%] to their left operand. *)
Definition to_number (v : value) : number :=
  match v with
  | undefined => NaN
  | null => Finite 0
  | Num n => n
  end.

(** Rounding towards zero. *)
Definition Qtrunc (q : Q) : Z :=
  if Qle_bool 0 q then Qfloor q else Qceiling q.

(** [a / d] for a positive finite literal [d]: the quotient, rounded. *)
Definition div_lit (a : number) (d : positive) : number :=
  match a with
  | NaN => NaN
  | Infinity s => Infinity s
  | Finite q => round64 (q / inject_Z (Zpos d))
  end.

(** [a % d] for a positive finite literal [d]: the remainder has the sign
    of the dividend; it is a double itself, so nothing is rounded. *)
Definition rem_lit (a : number) (d : positive) : number :=
  match a with
  | NaN => NaN
  | Infinity _ => NaN
  | Finite q =>
      Finite (q - inject_Z (Zpos d) * inject_Z (Qtrunc (q / inject_Z (Zpos d))))
  end.

(** What [Math.floor] returns: NaN, an infinity or an integer. *)
Inductive integral :=
| INaN
| IInfinity (negative : bool)
| IInt (z : Z).

Definition Math_floor (a : number) : integral :=
  match a with
  | NaN => INaN
  | Infinity s => IInfinity s
  | Finite q => IInt (Qfloor q)
  end.

(** Decimal digits of a natural number, most significant first. *)
Fixpoint digits_aux (fuel : nat) (n : N) (acc : jsstring) : jsstring :=
  match fuel with
  | O => acc
  | S fuel' =>
      let acc' := (48 + n mod 10)%N :: acc in
      if (n <? 10)%N then acc' else digits_aux fuel' (n / 10)%N acc'
  end.

Definition digits (n : N) : jsstring :=
  digits_aux (S (N.to_nat (N.log2 n))) n [].

(** The decimal [c] is read as the double [z]. *)
Definition rounds_to (c z : Z) : bool :=
  match round64 (inject_Z c) with
  | Finite v => Qeq_bool v (inject_Z z)
  | _ => false
  end.

(** The decimal a positive integral double [z] is printed as: of the
    decimals that are read as [z], one with the fewest significant
    digits, and of those the nearest to [z].  With [j] trailing zeros
    the two candidates are [z] rounded down and up to a multiple of
    [10^j]; [j] goes down until one of them is read as [z]. *)
Fixpoint shortest_from (j : nat) (z : Z) : Z :=
  let step := 10 ^ Z.of_nat j in
  let lo := z / step * step in
  let hi := lo + step in
  match rounds_to lo z, rounds_to hi z with
  | true, true =>
      if z - lo <? hi - z then lo
      else if hi - z <? z - lo then hi
      else if Z.even (z / step) then lo else hi
  | true, false => lo
  | false, true => hi
  | false, false =>
      match j with
      | O => z
      | S j' => shortest_from j' z
      end
  end.

Definition shortest (z : Z) : Z :=
  shortest_from (List.length (digits (Z.to_N z)) - 1) z.

(** The digits of a decimal without its trailing zeros. *)
Fixpoint drop_zeros (s : jsstring) : jsstring :=
  match s with
  | c :: s' => if (c =? 48)%N then drop_zeros s' else s
  | [] => []
  end.

Definition significant (ds : jsstring) : jsstring := rev (drop_zeros (rev ds)).

(** Number::toString in radix 10 on an integral double that is not
    negative: the decimal of [shortest] in full when it has at most 21
    digits, and in exponent notation from [1e21] on. *)
Definition toString_nonneg (z : Z) : jsstring :=
  let ds := digits (Z.to_N (shortest z)) in
  let n := List.length ds in
  if (n <=? 21)%nat then ds
  else
    match significant ds with
    | [] => ds
    | [d] => d :: lit "e+" ++ digits (N.of_nat (n - 1))
    | d :: rest => d :: lit "." ++ rest ++ lit "e+" ++ digits (N.of_nat (n - 1))
    end.

(** [Number.prototype.toString] on the result of [Math.floor]. *)
Definition toString (i : integral) : jsstring :=
  match i with
  | INaN => lit "NaN"
  | IInfinity false => lit "Infinity"
  | IInfinity true => lit "-Infinity"
  | IInt z =>
      if z <? 0 then 45%N :: toString_nonneg (- z) else toString_nonneg z
  end.

(** [s.padStart(target, fill)]. *)
Definition padStart (target : nat) (fill s : jsstring) : jsstring :=
  let len := List.length s in
  if (target <=? len)%nat then s
  else match fill with
       | [] => s
       | _ => firstn (target - len) (List.concat (repeat fill (target - len))) ++ s
       end.

(** White space and line terminators, the code units [trim] strips. *)
Definition is_space (c : N) : bool :=
  existsb (N.eqb c)
    [9; 10; 11; 12; 13; 32; 160; 5760; 8232; 8233; 8239; 8287; 12288; 65279]%N
  || ((8192 <=? c) && (c <=? 8202))%N.

Fixpoint trimStart (s : jsstring) : jsstring :=
  match s with
  | c :: s' => if is_space c then trimStart s' else s
  | [] => []
  end.

Definition trimEnd (s : jsstring) : jsstring := rev (trimStart (rev s)).

Definition trim (s : jsstring) : jsstring := trimEnd (trimStart s).

End Js.

Import Js.

(** ** Utility functions *)

(** [formatTimestamp(seconds)]. *)
Definition formatTimestamp (seconds : value) : jsstring :=
  if negb (truthy seconds) then lit "00:00"
  else
    let mins := Math_floor (div_lit (to_number seconds) 60) in
    let secs := Math_floor (rem_lit (to_number seconds) 60) in
    padStart 2 (lit "0") (toString mins) ++ lit ":"
      ++ padStart 2 (lit "0") (toString secs).

(** ** The page: module-level variables and the DOM nodes the code touches *)

(** A lecture object as the lectures endpoint returns it. *)
Record Lecture := {
  id : Z;
  title : jsstring;
  description : jsstring;
  transcript_status : jsstring;
}.

(** A [div.lecture-item] built by [displayLectures]: its
    [data-lecture-id] is the id of the lecture its click handler closes
    over. *)
Record LectureItem := {
  item_lecture : Lecture;
  active : bool;
}.

Definition dataset_lectureId (it : LectureItem) : Z := id (item_lecture it).

(** The [sender] argument of [addMessageToChat]. *)
Inductive Sender := user | bot.

(** One entry of [timestamp_references]. *)
Record TimestampRef := {
  start_time : value;
  end_time : value;
}.

(** The [timestampRefs] argument as JSON can deliver it: a missing key,
    [null], or an array. *)
Inductive Refs :=
| RUndefined
| RNull
| RArray (refs : list TimestampRef).

(** A child of [#chat-messages]: a message with its text and the texts
    of its timestamp links (none: no sources block), or the typing
    indicator, a node known by its identity. *)
Inductive ChatNode :=
| Message (sender : Sender) (text : jsstring) (sources : list jsstring)
| TypingIndicator (node : nat).

Inductive ToastType := info | success | warning | error.

Record Toast := {
  toast_message : jsstring;
  toast_type : ToastType;
}.

(** The requests the chat code sends with [fetch]. *)
Inductive Request :=
| GetHistory (lectureId : Z)
| PostAsk (message : jsstring) (lecture_id : Z)
| PostSummarize (lectureId : Z).

Record State := {
  currentLecture : option Lecture;
  lecture_items : list LectureItem;
  welcomeScreen_display : jsstring;
  chatInterface_display : jsstring;
  current_lecture_title : jsstring;
  chat_messages : list ChatNode;
  chat_input_field : jsstring;
  loadingOverlay_display : jsstring;
  toasts : list Toast;
  fetched : list Request;
  console : list jsstring;
  fresh : nat;
}.

Definition set_currentLecture (x : option Lecture) (s : State) : State :=
  {| currentLecture := x; lecture_items := lecture_items s;
     welcomeScreen_display := welcomeScreen_display s;
     chatInterface_display := chatInterface_display s;
     current_lecture_title := current_lecture_title s;
     chat_messages := chat_messages s; chat_input_field := chat_input_field s;
     loadingOverlay_display := loadingOverlay_display s; toasts := toasts s;
     fetched := fetched s; console := console s; fresh := fresh s |}.

Definition set_lecture_items (x : list LectureItem) (s : State) : State :=
  {| currentLecture := currentLecture s; lecture_items := x;
     welcomeScreen_display := welcomeScreen_display s;
     chatInterface_display := chatInterface_display s;
     current_lecture_title := current_lecture_title s;
     chat_messages := chat_messages s; chat_input_field := chat_input_field s;
     loadingOverlay_display := loadingOverlay_display s; toasts := toasts s;
     fetched := fetched s; console := console s; fresh := fresh s |}.

Definition set_welcomeScreen_display (x : jsstring) (s : State) : State :=
  {| currentLecture := currentLecture s; lecture_items := lecture_items s;
     welcomeScreen_display := x;
     chatInterface_display := chatInterface_display s;
     current_lecture_title := current_lecture_title s;
     chat_messages := chat_messages s; chat_input_field := chat_input_field s;
     loadingOverlay_display := loadingOverlay_display s; toasts := toasts s;
     fetched := fetched s; console := console s; fresh := fresh s |}.

Definition set_chatInterface_display (x : jsstring) (s : State) : State :=
  {| currentLecture := currentLecture s; lecture_items := lecture_items s;
     welcomeScreen_display := welcomeScreen_display s;
     chatInterface_display := x;
     current_lecture_title := current_lecture_title s;
     chat_messages := chat_messages s; chat_input_field := chat_input_field s;
     loadingOverlay_display := loadingOverlay_display s; toasts := toasts s;
     fetched := fetched s; console := console s; fresh := fresh s |}.

Definition set_current_lecture_title (x : jsstring) (s : State) : State :=
  {| currentLecture := currentLecture s; lecture_items := lecture_items s;
     welcomeScreen_display := welcomeScreen_display s;
     chatInterface_display := chatInterface_display s;
     current_lecture_title := x;
     chat_messages := chat_messages s; chat_input_field := chat_input_field s;
     loadingOverlay_display := loadingOverlay_display s; toasts := toasts s;
     fetched := fetched s; console := console s; fresh := fresh s |}.

Definition set_chat_messages (x : list ChatNode) (s : State) : State :=
  {| currentLecture := currentLecture s; lecture_items := lecture_items s;
     welcomeScreen_display := welcomeScreen_display s;
     chatInterface_display := chatInterface_display s;
     current_lecture_title := current_lecture_title s;
     chat_messages := x; chat_input_field := chat_input_field s;
     loadingOverlay_display := loadingOverlay_display s; toasts := toasts s;
     fetched := fetched s; console := console s; fresh := fresh s |}.

Definition set_chat_input_field (x : jsstring) (s : State) : State :=
  {| currentLecture := currentLecture s; lecture_items := lecture_items s;
     welcomeScreen_display := welcomeScreen_display s;
     chatInterface_display := chatInterface_display s;
     current_lecture_title := current_lecture_title s;
     chat_messages := chat_messages s; chat_input_field := x;
     loadingOverlay_display := loadingOverlay_display s; toasts := toasts s;
     fetched := fetched s; console := console s; fresh := fresh s |}.

Definition set_loadingOverlay_display (x : jsstring) (s : State) : State :=
  {| currentLecture := currentLecture s; lecture_items := lecture_items s;
     welcomeScreen_display := welcomeScreen_display s;
     chatInterface_display := chatInterface_display s;
     current_lecture_title := current_lecture_title s;
     chat_messages := chat_messages s; chat_input_field := chat_input_field s;
     loadingOverlay_display := x; toasts := toasts s;
     fetched := fetched s; console := console s; fresh := fresh s |}.

Definition set_toasts (x : list Toast) (s : State) : State :=
  {| currentLecture := currentLecture s; lecture_items := lecture_items s;
     welcomeScreen_display := welcomeScreen_display s;
     chatInterface_display := chatInterface_display s;
     current_lecture_title := current_lecture_title s;
     chat_messages := chat_messages s; chat_input_field := chat_input_field s;
     loadingOverlay_display := loadingOverlay_display s; toasts := x;
     fetched := fetched s; console := console s; fresh := fresh s |}.

Definition set_fetched (x : list Request) (s : State) : State :=
  {| currentLecture := currentLecture s; lecture_items := lecture_items s;
     welcomeScreen_display := welcomeScreen_display s;
     chatInterface_display := chatInterface_display s;
     current_lecture_title := current_lecture_title s;
     chat_messages := chat_messages s; chat_input_field := chat_input_field s;
     loadingOverlay_display := loadingOverlay_display s; toasts := toasts s;
     fetched := x; console := console s; fresh := fresh s |}.

Definition set_console (x : list jsstring) (s : State) : State :=
  {| currentLecture := currentLecture s; lecture_items := lecture_items s;
     welcomeScreen_display := welcomeScreen_display s;
     chatInterface_display := chatInterface_display s;
     current_lecture_title := current_lecture_title s;
     chat_messages := chat_messages s; chat_input_field := chat_input_field s;
     loadingOverlay_display := loadingOverlay_display s; toasts := toasts s;
     fetched := fetched s; console := x; fresh := fresh s |}.

Definition set_fresh (x : nat) (s : State) : State :=
  {| currentLecture := currentLecture s; lecture_items := lecture_items s;
     welcomeScreen_display := welcomeScreen_display s;
     chatInterface_display := chatInterface_display s;
     current_lecture_title := current_lecture_title s;
     chat_messages := chat_messages s; chat_input_field := chat_input_field s;
     loadingOverlay_display := loadingOverlay_display s; toasts := toasts s;
     fetched := fetched s; console := console s; fresh := x |}.

(** ** Statements: state and exceptions

    A statement runs on the page state and either completes with a value
    or throws; what it wrote before throwing stays written. *)

Inductive exn := TypeError | FetchRejected | JsonRejected.

Inductive completion (A : Type) :=
| Return (a : A)
| Throw (e : exn).
Arguments Return {A} a.
Arguments Throw {A} e.

Definition M (A : Type) : Type := State -> completion A * State.

Definition ret {A} (a : A) : M A := fun s => (Return a, s).

Definition throw {A} (e : exn) : M A := fun s => (Throw e, s).

Definition bind {A B} (c : M A) (k : A -> M B) : M B :=
  fun s =>
    match c s with
    | (Return a, s') => k a s'
    | (Throw e, s') => (Throw e, s')
    end.

Notation "x <- c ;; k" := (bind c (fun x => k))
  (at level 61, c at next level, right associativity).
Notation "c ;; k" := (bind c (fun _ => k))
  (at level 61, right associativity).

(** [try { c } catch (error) { h error }]. *)
Definition try_catch {A} (c : M A) (h : exn -> M A) : M A :=
  fun s =>
    match c s with
    | (Return a, s') => (Return a, s')
    | (Throw e, s') => h e s'
    end.

(** [c finally { f }], for an [f] that completes normally. *)
Definition finally {A} (c : M A) (f : M unit) : M A :=
  fun s =>
    match c s with
    | (r, s') =>
        match f s' with
        | (Return _, s'') => (r, s'')
        | (Throw e, s'') => (Throw e, s'')
        end
    end.

Definition get {A} (f : State -> A) : M A := fun s => (Return (f s), s).

Definition modify (f : State -> State) : M unit := fun s => (Return tt, f s).

(** [array.forEach(body)]: stops at the first exception. *)
Fixpoint forEach {A} (l : list A) (body : A -> M unit) : M unit :=
  match l with
  | [] => ret tt
  | x :: l' => body x ;; forEach l' body
  end.

(** The state a statement leaves, and how it completed. *)
Definition exec {A} (c : M A) (s : State) : State := snd (c s).
Definition outcome {A} (c : M A) (s : State) : completion A := fst (c s).

(** ** Helpers of the page *)

(** [showToast(message, type)]: the toast is appended to the toast
    container (it leaves again after five seconds or on a click, which is
    not modelled: [toasts] is the record of what was shown). *)
Definition showToast (message : jsstring) (type : ToastType) : M unit :=
  modify (fun s =>
    set_toasts (toasts s ++ [{| toast_message := message; toast_type := type |}]) s).

Definition showLoading : M unit :=
  modify (set_loadingOverlay_display (lit "flex")).

Definition hideLoading : M unit :=
  modify (set_loadingOverlay_display (lit "none")).

Definition console_error (label : jsstring) : M unit :=
  modify (fun s => set_console (console s ++ [label]) s).

(** [fetch(...)]: the request leaves; its answer arrives later. *)
Definition fetch (r : Request) : M unit :=
  modify (fun s => set_fetched (fetched s ++ [r]) s).

(** The text of one timestamp link. *)
Definition link_text (r : TimestampRef) : jsstring :=
  formatTimestamp (start_time r) ++ lit " - " ++ formatTimestamp (end_time r).

(** [addMessageToChat(message, sender, timestampRefs = [])].  The default
    applies to a missing argument only; on [null] the test
    [timestampRefs.length > 0] throws, before the message is attached. *)
Definition addMessageToChat (message : jsstring) (sender : Sender)
    (timestampRefs : Refs) : M unit :=
  let timestampRefs :=
    match timestampRefs with
    | RUndefined => RArray []
    | r => r
    end in
  sources <- match sender with
             | bot =>
                 match timestampRefs with
                 | RArray refs => ret (List.map link_text refs)
                 | _ => throw TypeError
                 end
             | user => ret []
             end ;;
  modify (fun s => set_chat_messages (chat_messages s ++ [Message sender message sources]) s).

(** [addTypingIndicator()]: a new node, attached and returned. *)
Definition addTypingIndicator : M nat :=
  typingDiv <- get fresh ;;
  modify (set_fresh (S typingDiv)) ;;
  modify (fun s => set_chat_messages (chat_messages s ++ [TypingIndicator typingDiv]) s) ;;
  ret typingDiv.

Definition is_node (indicator : nat) (n : ChatNode) : bool :=
  match n with
  | TypingIndicator k => Nat.eqb k indicator
  | Message _ _ _ => false
  end.

(** [removeTypingIndicator(indicator)]: detaches the node if it still has
    a parent. *)
Definition removeTypingIndicator (indicator : nat) : M unit :=
  modify (fun s =>
    set_chat_messages (filter (fun n => negb (is_node indicator n)) (chat_messages s)) s).

(** ** Lectures *)

(** [displayLectures(lectures)]: one item per lecture, none active.  The
    title, the description and the status are written into the item with
    [innerHTML]; the page is modelled for texts without markup, which
    add no elements of their own to the document. *)
Definition displayLectures (lectures : list Lecture) : M unit :=
  modify (set_lecture_items
    (List.map (fun lecture => {| item_lecture := lecture; active := false |}) lectures)).

(** [document.querySelector('[data-lecture-id="..."]')]: the position of
    the first item with that id; with texts without markup the lecture
    items are the only elements of the document that carry the
    attribute. *)
Fixpoint querySelector (lectureId : Z) (items : list LectureItem) : option nat :=
  match items with
  | [] => None
  | it :: items' =>
      if Z.eqb (dataset_lectureId it) lectureId then Some O
      else option_map S (querySelector lectureId items')
  end.

Definition remove_active (it : LectureItem) : LectureItem :=
  {| item_lecture := item_lecture it; active := false |}.

Definition add_active (it : LectureItem) : LectureItem :=
  {| item_lecture := item_lecture it; active := true |}.

Fixpoint update_nth {A} (n : nat) (f : A -> A) (l : list A) : list A :=
  match l, n with
  | [], _ => []
  | x :: l', O => f x :: l'
  | x :: l', S n' => x :: update_nth n' f l'
  end.

(** ** Chat history *)

(** One element of the array the history endpoint returns. *)
Record ChatTurn := {
  user_message : jsstring;
  bot_response : jsstring;
  timestamp_references : Refs;
}.

(** What a [fetch] settles to: the promise rejects, or a response arrives
    with [response.ok] true or false; [body] is what [response.json()]
    gives, [None] when that promise rejects. *)
Inductive Response (A E : Type) :=
| Rejected
| Ok (body : option A)
| NotOk (body : option E).
Arguments Rejected {A E}.
Arguments Ok {A E} body.
Arguments NotOk {A E} body.

(** [await response.json()]. *)
Definition json {A} (body : option A) : M A :=
  match body with
  | Some a => ret a
  | None => throw JsonRejected
  end.

(** The body of an error answer: [detail], [None] when falsy. *)
Record ErrorBody := {
  detail : option jsstring;
}.

(** [error.detail || fallback]. *)
Definition detail_or (e : ErrorBody) (fallback : jsstring) : jsstring :=
  match detail e with
  | Some d => match d with [] => fallback | _ => d end
  | None => fallback
  end.

(** [loadChatHistory(lectureId)] up to its [await]. *)
Definition loadChatHistory (lectureId : Z) : M unit :=
  fetch (GetHistory lectureId).

(** The two messages [loadChatHistory] adds for one turn. *)
Definition render_turn (chat : ChatTurn) : M unit :=
  addMessageToChat (user_message chat) user RUndefined ;;
  addMessageToChat (bot_response chat) bot (timestamp_references chat).

(** [loadChatHistory] from the point where its request has settled. *)
Definition loadChatHistory_settled (response : Response (list ChatTurn) unit)
    : M unit :=
  try_catch
    (match response with
     | Rejected => throw FetchRejected
     | Ok body =>
         history <- json body ;;
         modify (set_chat_messages []) ;;
         forEach (rev history) render_turn
     | NotOk _ => ret tt
     end)
    (fun _ => console_error (lit "Error loading chat history:")).

(** [selectLecture(lecture)]. *)
Definition selectLecture (lecture : Lecture) : M unit :=
  modify (set_currentLecture (Some lecture)) ;;
  modify (fun s => set_lecture_items (List.map remove_active (lecture_items s)) s) ;;
  found <- get (fun s => querySelector (id lecture) (lecture_items s)) ;;
  match found with
  | None => throw TypeError
  | Some n => modify (fun s => set_lecture_items (update_nth n add_active (lecture_items s)) s)
  end ;;
  if str_eqb (transcript_status lecture) (lit "completed") then
    modify (set_welcomeScreen_display (lit "none")) ;;
    modify (set_chatInterface_display (lit "flex")) ;;
    modify (set_current_lecture_title (title lecture)) ;;
    loadChatHistory (id lecture)
  else
    showToast
      (lit "Lecture transcript is not ready yet. Please wait for processing to complete.")
      warning.

(** ** Chat *)

(** The body of a successful answer. *)
Record AskData := {
  response : jsstring;
  ask_timestamp_references : Refs;
}.

(** [handleChatMessage(e)] up to its [await]: the typing indicator it is
    waiting with, or [None] when it returned early. *)
Definition handleChatMessage : M (option nat) :=
  cur <- get currentLecture ;;
  match cur with
  | None =>
      showToast (lit "Please select a lecture first") warning ;;
      ret None
  | Some lecture =>
      value <- get chat_input_field ;;
      let message := trim value in
      match message with
      | [] => ret None
      | _ =>
          addMessageToChat message user RUndefined ;;
          modify (set_chat_input_field []) ;;
          typingIndicator <- addTypingIndicator ;;
          fetch (PostAsk message (id lecture)) ;;
          ret (Some typingIndicator)
      end
  end.

(** [handleChatMessage] from the point where its request has settled. *)
Definition handleChatMessage_settled (typingIndicator : nat)
    (resp : Response AskData ErrorBody) : M unit :=
  try_catch
    (match resp with
     | Rejected => throw FetchRejected
     | Ok body =>
         data <- json body ;;
         removeTypingIndicator typingIndicator ;;
         addMessageToChat (response data) bot (ask_timestamp_references data)
     | NotOk body =>
         err <- json body ;;
         removeTypingIndicator typingIndicator ;;
         showToast (detail_or err (lit "Failed to get response")) error
     end)
    (fun _ =>
       console_error (lit "Chat error:") ;;
       removeTypingIndicator typingIndicator ;;
       showToast (lit "Failed to send message") error).

(** A whole run of the handler when nothing else happens while it waits. *)
Definition handleChatMessage_run (resp : Response AskData ErrorBody) : M unit :=
  pending <- handleChatMessage ;;
  match pending with
  | Some typingIndicator => handleChatMessage_settled typingIndicator resp
  | None => ret tt
  end.

(** The body of a successful summary. *)
Record SummaryData := {
  summary : jsstring;
}.

(** [handleSummarize()] up to its [await]: whether a request is pending. *)
Definition handleSummarize : M bool :=
  cur <- get currentLecture ;;
  match cur with
  | None =>
      showToast (lit "Please select a lecture first") warning ;;
      ret false
  | Some lecture =>
      showLoading ;;
      fetch (PostSummarize (id lecture)) ;;
      ret true
  end.

(** [handleSummarize] from the point where its request has settled. *)
Definition handleSummarize_settled (resp : Response SummaryData ErrorBody)
    : M unit :=
  finally
    (try_catch
       (match resp with
        | Rejected => throw FetchRejected
        | Ok body =>
            data <- json body ;;
            addMessageToChat (lit "Please provide a summary of this lecture.") user RUndefined ;;
            addMessageToChat (summary data) bot RUndefined
        | NotOk body =>
            err <- json body ;;
            showToast (detail_or err (lit "Failed to generate summary")) error
        end)
       (fun _ =>
          console_error (lit "Summarize error:") ;;
          showToast (lit "Failed to generate summary") error))
    hideLoading.

(** ** The ingestion and retrieval core

    The client only calls the core over HTTP; the core's code is not part
    of [app.js].  The definitions of this module are written from the
    specification of the core. *)

Module Core.

Local Open Scope Q_scope.

(** Modelled from the spec: the pipeline's status type is missing from the
    client; section 3 gives its four values. *)
Inductive TranscriptStatus := pending | processing | completed | failed.

(** Modelled from the spec: the guard of the status state machine, which
    is missing from the client: the forward transitions
    pending, processing, then completed or failed (section 3). *)
Definition forward (a b : TranscriptStatus) : bool :=
  match a, b with
  | pending, processing => true
  | processing, completed => true
  | processing, failed => true
  | _, _ => false
  end.

(** Modelled from the spec: how far along the pipeline a status is, the
    order behind "forward" and "back to an earlier state" (section 3). *)
Definition stage (a : TranscriptStatus) : nat :=
  match a with
  | pending => 0
  | processing => 1
  | completed | failed => 2
  end.

(** Modelled from the spec: the error taxonomy of section 7, which is
    missing from the client, and the rejection of an [ingest] whose
    precondition (status pending) does not hold. *)
Inductive Condition :=
| NotReady
| ConcurrentIngestion
| CapabilityUnavailable
| EmptyInput
| RequestAborted
| PreconditionFailed.

(** The outcome of a call: done, or failed with a condition. *)
Inductive result (A : Type) :=
| Done (a : A)
| Failed (c : Condition).
Arguments Done {A} a.
Arguments Failed {A} c.

(** Modelled from the spec: an utterance of a transcript, [(text,
    start_seconds, end_seconds)] (section 6); the type is missing from the
    client. *)
Record Utterance := {
  u_text : string;
  u_start : Q;
  u_end : Q;
}.

(** Modelled from the spec: a chunk (section 3), missing from the client:
    its lecture, its sequence index, its text and the time range of the
    utterances it covers. *)
Record Chunk := {
  lecture_id : Z;
  seq_index : nat;
  text : string;
  start_time : Q;
  end_time : Q;
}.

(** Modelled from the spec: the fixed-length numeric vector an embedding
    is (section 6), with rational components. *)
Definition Vector := list Q.

(** Modelled from the spec: an entry of the embedding index,
    [(lecture_id, chunk_id) -> vector] (section 3), missing from the
    client. *)
Record Entry := {
  chunk_of : Chunk;
  vector : Vector;
}.

(** Modelled from the spec: the index, the entries of all lectures. *)
Definition Index := list Entry.

(** *** Chunker *)

(** Modelled from the spec: the concatenated text of a chunk
    (section 3). *)
Definition text_of (us : list Utterance) : string :=
  String.concat " " (List.map u_text us).

(** Modelled from the spec: the configured overlap between consecutive
    chunks (section 4.2): the trailing utterances whose text fits it. *)
Fixpoint overlap_tail_rev (overlap : nat) (rev_us : list Utterance) : list Utterance :=
  match rev_us with
  | [] => []
  | u :: rest =>
      if (String.length (u_text u) <=? overlap)%nat
      then u :: overlap_tail_rev (overlap - String.length (u_text u)) rest
      else []
  end.

(** Modelled from the spec: the overlap a closed chunk passes on to the
    next one (section 4.2). *)
Definition overlap_tail (overlap : nat) (us : list Utterance) : list Utterance :=
  rev (overlap_tail_rev overlap (rev us)).

(** Modelled from the spec: the utterances of each chunk (section 4.2):
    an utterance goes whole into the chunk where it starts; a chunk
    closes once its text reaches the budget, and the next one starts from
    the overlap. *)
Fixpoint chunk_groups (budget overlap : nat) (buf : list Utterance) (open : bool)
    (transcript : list Utterance) : list (list Utterance) :=
  match transcript with
  | [] => if open then [buf] else []
  | u :: rest =>
      let buf' := buf ++ [u] in
      if (budget <=? String.length (text_of buf'))%nat
      then buf' :: chunk_groups budget overlap (overlap_tail overlap buf') false rest
      else chunk_groups budget overlap buf' true rest
  end.

(** Modelled from the spec: a chunk draft (section 4.2): text and time
    range, not yet owned by a lecture. *)
Record Draft := {
  d_text : string;
  d_start : Q;
  d_end : Q;
}.

(** Modelled from the spec: a draft starts with its first utterance and
    ends with its last (section 4.2). *)
Definition draft_of (us : list Utterance) : Draft :=
  {| d_text := text_of us;
     d_start := match us with u :: _ => u_start u | [] => 0 end;
     d_end := match rev us with u :: _ => u_end u | [] => 0 end |}.

(** Modelled from the spec: [Chunker.chunk] (section 4.2), missing from
    the client.  An empty transcript gives exactly one chunk, with all
    the text there is. *)
Definition chunk (budget overlap : nat) (transcript : list Utterance) : list Draft :=
  match transcript with
  | [] => [draft_of []]
  | _ => List.map draft_of (chunk_groups budget overlap [] false transcript)
  end.

(** *** EmbeddingIndex *)

(** Modelled from the spec: the drafts become the lecture's chunks, with
    their sequence indexes (section 3). *)
Fixpoint number_from (lid : Z) (n : nat) (ds : list Draft) : list Chunk :=
  match ds with
  | [] => []
  | d :: ds' =>
      {| lecture_id := lid; seq_index := n; text := d_text d;
         start_time := d_start d; end_time := d_end d |}
      :: number_from lid (S n) ds'
  end.

(** Modelled from the spec: the embedding capability (section 6);
    [None] when it is unavailable. *)
Definition Embedder := string -> option Vector.

(** Modelled from the spec: embedding a batch; one failure aborts it
    (section 4.3). *)
Fixpoint embed_all (embed : Embedder) (cs : list Chunk) : option (list Entry) :=
  match cs with
  | [] => Some []
  | c :: cs' =>
      match embed (text c), embed_all embed cs' with
      | Some v, Some es => Some ({| chunk_of := c; vector := v |} :: es)
      | _, _ => None
      end
  end.

(** Modelled from the spec: an entry belongs to the lecture of its chunk
    (section 3). *)
Definition in_lecture (lid : Z) (e : Entry) : bool :=
  Z.eqb (lecture_id (chunk_of e)) lid.

(** Modelled from the spec: [EmbeddingIndex.remove] (section 4.3), missing
    from the client. *)
Definition remove (lid : Z) (idx : Index) : Index :=
  filter (fun e => negb (in_lecture lid e)) idx.

(** Modelled from the spec: [EmbeddingIndex.add] (section 4.3), missing
    from the client: all chunks are embedded, and the batch becomes
    visible only if every embedding succeeded. *)
Definition add (embed : Embedder) (cs : list Chunk) (idx : Index) : option Index :=
  option_map (fun es => idx ++ es) (embed_all embed cs).

(** Modelled from the spec: the inner product behind the cosine. *)
Fixpoint dot (a b : Vector) : Q :=
  match a, b with
  | x :: a', y :: b' => x * y + dot a' b'
  | _, _ => 0
  end.

(** Modelled from the spec: cosine similarity (section 4.3), as the
    signed square of the cosine, which orders vectors as the cosine does
    and stays rational. *)
Definition similarity (a q : Vector) : Q :=
  let d := dot a q in
  (if Qle_bool 0 d then d * d else - (d * d)) / (dot a a * dot q q).

(** Modelled from the spec: a search hit, the chunk and its score. *)
Definition Hit := (Chunk * Q)%type.

(** [x < y] on rationals. *)
Definition Qltb (x y : Q) : bool := negb (Qle_bool y x).

(** Modelled from the spec: [a] ranks before [b]: higher similarity,
    ties by lower sequence index (section 4.3). *)
Definition ranks_before (a b : Hit) : bool :=
  Qltb (snd b) (snd a)
  || (Qeq_bool (snd a) (snd b) && (seq_index (fst a) <=? seq_index (fst b))%nat).

(** Modelled from the spec: ranking, by insertion. *)
Fixpoint insert_hit (h : Hit) (l : list Hit) : list Hit :=
  match l with
  | [] => [h]
  | x :: l' => if ranks_before h x then h :: l else x :: insert_hit h l'
  end.

(** Modelled from the spec: the hits, best first. *)
Definition rank (l : list Hit) : list Hit := fold_right insert_hit [] l.

(** Modelled from the spec: [EmbeddingIndex.search] (section 4.3), missing
    from the client: the [k] best chunks of the lecture, best first. *)
Definition search (lid : Z) (query_vector : Vector) (k : nat) (idx : Index) : list Hit :=
  firstn k
    (rank (List.map (fun e => (chunk_of e, similarity (vector e) query_vector))
                    (filter (in_lecture lid) idx))).

(** *** RetrievalEngine *)

(** The smaller and the larger of two rationals. *)
Definition Qmin' (x y : Q) : Q := if Qle_bool x y then x else y.
Definition Qmax' (x y : Q) : Q := if Qle_bool x y then y else x.

(** Modelled from the spec: the length of the common part of two time
    ranges (section 4.4). *)
Definition overlap (a b : Chunk) : Q :=
  Qmax' 0 (Qmin' (end_time a) (end_time b) - Qmax' (start_time a) (start_time b)).

(** Modelled from the spec: the duration of the shorter range. *)
Definition shorter (a b : Chunk) : Q :=
  Qmin' (end_time a - start_time a) (end_time b - start_time b).

(** Modelled from the spec: the two ranges overlap by more than half the
    shorter one (section 4.4). *)
Definition overlaps_too_much (a b : Chunk) : bool :=
  Qltb (shorter a b) (2 * overlap a b).

(** Modelled from the spec: of two hits that overlap too much only the
    higher-similarity one is kept (section 4.4): a hit is dropped when a
    hit ranked before it overlaps it. *)
Fixpoint dedup (before : list Hit) (hits : list Hit) : list Hit :=
  match hits with
  | [] => []
  | h :: hits' =>
      if existsb (fun h' => overlaps_too_much (fst h') (fst h)) before
      then dedup (before ++ [h]) hits'
      else h :: dedup (before ++ [h]) hits'
  end.

(** Modelled from the spec: a retrieved span, [{text, start_time,
    end_time, score}] (section 6). *)
Record Span := {
  span_text : string;
  span_start : Q;
  span_end : Q;
  score : Q;
}.

(** Modelled from the spec: the span of a hit. *)
Definition span_of (h : Hit) : Span :=
  {| span_text := text (fst h); span_start := start_time (fst h);
     span_end := end_time (fst h); score := snd h |}.

(** Modelled from the spec: the measure of section 4.4 on spans. *)
Definition spans_overlap_too_much (a b : Span) : bool :=
  Qltb (Qmin' (span_end a - span_start a) (span_end b - span_start b))
       (2 * Qmax' 0 (Qmin' (span_end a) (span_end b)
                     - Qmax' (span_start a) (span_start b))).

(** Modelled from the spec: [RetrievalEngine.retrieve] (section 4.4),
    missing from the client. *)
Definition retrieve (embed : Embedder) (status : TranscriptStatus) (idx : Index)
    (lid : Z) (query_text : string) (k : nat) : result (list Span) :=
  match status with
  | completed =>
      match embed query_text with
      | None => Failed CapabilityUnavailable
      | Some query_vector =>
          Done (List.map span_of (dedup [] (search lid query_vector k idx)))
      end
  | _ => Failed NotReady
  end.

(** *** IngestionPipeline *)

(** Modelled from the spec: a lecture as the pipeline sees it
    (section 3): its status, and every status it has held, oldest
    first. *)
Record LectureState := {
  status : TranscriptStatus;
  trail : list TranscriptStatus;
}.

(** Modelled from the spec: a lecture is created pending. *)
Definition new_lecture : LectureState :=
  {| status := pending; trail := [pending] |}.

(** Modelled from the spec: writing a status. *)
Definition set_status (s : TranscriptStatus) (l : LectureState) : LectureState :=
  {| status := s; trail := trail l ++ [s] |}.

(** Modelled from the spec: [IngestionPipeline.ingest] (section 4.1),
    missing from the client.  A failed lecture is reset to pending first;
    a lecture that is processing or completed is rejected; the old chunks
    go, the transcript is chunked and embedded, and a failure leaves
    nothing of the batch behind. *)
Definition ingest (embed : Embedder) (budget ovl : nat) (lid : Z)
    (transcript : list Utterance) (l : LectureState) (idx : Index)
    : result unit * LectureState * Index :=
  match status l with
  | processing => (Failed ConcurrentIngestion, l, idx)
  | completed => (Failed PreconditionFailed, l, idx)
  | st =>
      let l0 := match st with failed => set_status pending l | _ => l end in
      let l1 := set_status processing l0 in
      let idx0 := remove lid idx in
      match add embed (number_from lid 0 (chunk budget ovl transcript)) idx0 with
      | Some idx' => (Done tt, set_status completed l1, idx')
      | None => (Failed CapabilityUnavailable, set_status failed l1, idx0)
      end
  end.

(** Modelled from the spec: the explicit reset before a re-ingestion
    (sections 8 and 9), missing from the client: a finished lecture goes
    back to pending and loses its chunks. *)
Definition reset (lid : Z) (l : LectureState) (idx : Index)
    : result unit * LectureState * Index :=
  match status l with
  | completed | failed => (Done tt, set_status pending l, remove lid idx)
  | pending => (Done tt, l, idx)
  | processing => (Failed ConcurrentIngestion, l, idx)
  end.

(** Modelled from the spec: the operations that write a status. *)
Inductive Op :=
| Ingest (embed : Embedder) (budget ovl : nat) (transcript : list Utterance)
| Reset.

(** Modelled from the spec: one operation on a lecture and the index. *)
Definition apply_op (lid : Z) (op : Op) (l : LectureState) (idx : Index)
    : result unit * LectureState * Index :=
  match op with
  | Ingest embed budget ovl transcript => ingest embed budget ovl lid transcript l idx
  | Reset => reset lid l idx
  end.

(** Modelled from the spec: a sequence of operations on a lecture. *)
Fixpoint run (lid : Z) (ops : list Op) (l : LectureState) (idx : Index)
    : LectureState * Index :=
  match ops with
  | [] => (l, idx)
  | op :: ops' =>
      match apply_op lid op l idx with
      | (_, l', idx') => run lid ops' l' idx'
      end
  end.

(** Modelled from the spec: the chunks the index holds for a lecture. *)
Definition chunks_in (lid : Z) (idx : Index) : list Chunk :=
  List.map chunk_of (filter (in_lecture lid) idx).

(** Every step of a trail satisfies [ok]. *)
Fixpoint steps (ok : TranscriptStatus -> TranscriptStatus -> bool)
    (t : list TranscriptStatus) : bool :=
  match t with
  | a :: (b :: _) as t' => ok a b && steps ok t'
  | _ => true
  end.

End Core.

(** ** The timestamp format in words *)

(** A count printed in decimal, with a leading zero below ten. *)
Definition two_digits (z : Z) : jsstring :=
  if z <? 10 then 48%N :: digits (Z.to_N z) else digits (Z.to_N z).

(** The whole minutes in a positive number of seconds, and the whole
    seconds left over. *)
Definition whole_minutes (q : Q) : Z := Qfloor (q / 60).
Definition left_over_seconds (q : Q) : Z :=
  Qfloor (q - 60 * inject_Z (Qfloor (q / 60))).

(** ** The chat in words *)

(** The link texts of a sources block. *)
Definition sources_of (r : Refs) : list jsstring :=
  match r with
  | RArray refs => List.map link_text refs
  | _ => []
  end.

(** The two nodes one turn of the history is shown as. *)
Definition shown (t : ChatTurn) : list ChatNode :=
  [Message user (user_message t) [];
   Message bot (bot_response t) (sources_of (timestamp_references t))].

(** The answer request failed: the promise rejected, the response was an
    error, or its body could not be read. *)
Definition request_failed {A E} (resp : Response A E) : Prop :=
  match resp with
  | Ok (Some _) => False
  | _ => True
  end.

(** A node is a message of the bot. *)
Definition is_bot_message (n : ChatNode) : bool :=
  match n with
  | Message bot _ _ => true
  | _ => false
  end.

(** The toast [selectLecture] shows for a lecture that is not ready. *)
Definition not_ready_toast : Toast :=
  {| toast_message :=
       lit "Lecture transcript is not ready yet. Please wait for processing to complete.";
     toast_type := warning |}.

(** The chat nodes without a given typing indicator. *)
Definition without (indicator : nat) (nodes : list ChatNode) : list ChatNode :=
  filter (fun n => negb (is_node indicator n)) nodes.

(** ** Pages and answers used in the examples *)

Definition pending_lecture : Lecture :=
  {| id := 7; title := lit "Loops"; description := [];
     transcript_status := lit "pending" |}.

Definition completed_lecture : Lecture :=
  {| id := 3; title := lit "Sorting"; description := [];
     transcript_status := lit "completed" |}.

Definition page (cur : option Lecture) (chat : jsstring) (input : jsstring)
    (nodes : list ChatNode) : State :=
  {| currentLecture := cur;
     lecture_items :=
       [{| item_lecture := completed_lecture; active := false |};
        {| item_lecture := pending_lecture; active := false |}];
     welcomeScreen_display := lit "flex";
     chatInterface_display := chat;
     current_lecture_title := [];
     chat_messages := nodes;
     chat_input_field := input;
     loadingOverlay_display := lit "none";
     toasts := [];
     fetched := [];
     console := [];
     fresh := 0 |}.

Definition closed_page : State := page None (lit "none") [] [].

Definition typed_page : State := page None (lit "none") (lit " what is a loop? ") [].

Definition blank_page : State :=
  page (Some completed_lecture) (lit "flex") [32; 9; 160; 10]%N
       [Message user (lit "hello") []].

Definition asking_page : State :=
  page (Some completed_lecture) (lit "flex") (lit "what is a loop?")
       [Message user (lit "hello") []; Message bot (lit "hi") []].

(** A page waiting for an answer, and an answer with one cited span. *)
Definition waiting_page : State :=
  page (Some completed_lecture) (lit "flex") []
       [Message user (lit "hello") []; TypingIndicator 0].

Definition loop_answer : AskData :=
  {| response := lit "A loop repeats.";
     ask_timestamp_references :=
       RArray [{| start_time := Num (Finite 10); end_time := Num (Finite 25) |}] |}.

Definition turn1 : ChatTurn :=
  {| user_message := lit "first question"; bot_response := lit "first answer";
     timestamp_references := RArray [] |}.

Definition turn2 : ChatTurn :=
  {| user_message := lit "second question"; bot_response := lit "second answer";
     timestamp_references :=
       RArray [{| start_time := Num (Finite 10); end_time := Num (Finite 25) |}] |}.


(** ** The rules of the core in words *)

Module Rules.
Import Core.

Local Open Scope Q_scope.

(** A step that [ingest] may write: a forward transition, or the reset of
    a failed lecture to pending. *)
Definition ingest_step (a b : TranscriptStatus) : bool :=
  forward a b
  || match a, b with
     | failed, pending => true
     | _, _ => false
     end.

(** A step that any operation may write: those of [ingest], or the
    explicit reset of a completed lecture to pending. *)
Definition any_step (a b : TranscriptStatus) : bool :=
  ingest_step a b
  || match a, b with
     | completed, pending => true
     | _, _ => false
     end.

Definition is_reset (op : Op) : bool :=
  match op with
  | Reset => true
  | Ingest _ _ _ _ => false
  end.

(** A trail ends in the status the lecture has. *)
Definition ends_in_status (l : LectureState) : Prop :=
  exists t, trail l = t ++ [status l].

(** Hits in the order of their scores, best first. *)
Definition score_order (a b : Hit) : Prop := snd b <= snd a.

(** Two hits do not overlap by more than half the shorter range. *)
Definition apart (a b : Hit) : Prop :=
  overlaps_too_much (fst a) (fst b) = false.

End Rules.

(** ** Lectures, indexes and runs used in the examples *)

Module Samples.
Import Core.

Local Open Scope Q_scope.

(** An embedder that is unavailable, and two that answer. *)
Definition no_embed : Embedder := fun _ => None.
Definition flat_embed : Embedder := fun _ => Some [1; 0].
Definition other_embed : Embedder := fun _ => Some [0; 1].

(** The transcript of the end-to-end example. *)
Definition loops : list Utterance :=
  [{| u_text := "Intro to loops"; u_start := 0; u_end := 10 |};
   {| u_text := "A for-loop repeats"; u_start := 10; u_end := 25 |};
   {| u_text := "A while-loop checks a condition first";
      u_start := 25; u_end := 40 |}].

(** Three chunks of lecture 1, the second overlapping the first, and a
    chunk of lecture 2 with the content of the first. *)
Definition chunk_a0 : Chunk :=
  {| lecture_id := 1; seq_index := 0; text := "Intro to loops";
     start_time := 0; end_time := 10 |}.
Definition chunk_a1 : Chunk :=
  {| lecture_id := 1; seq_index := 1; text := "Intro to loops A for-loop repeats";
     start_time := 0; end_time := 25 |}.
Definition chunk_a2 : Chunk :=
  {| lecture_id := 1; seq_index := 2; text := "A while-loop checks a condition first";
     start_time := 25; end_time := 40 |}.
Definition chunk_b0 : Chunk :=
  {| lecture_id := 2; seq_index := 0; text := "Intro to loops";
     start_time := 0; end_time := 10 |}.

Definition two_lectures : Index :=
  [{| chunk_of := chunk_b0; vector := [1; 0] |};
   {| chunk_of := chunk_a0; vector := [1; 0] |};
   {| chunk_of := chunk_a1; vector := [3; 1] |};
   {| chunk_of := chunk_a2; vector := [0; 1] |}].

(** An ingestion that fails, tried again. *)
Definition retry : list Op :=
  [Ingest no_embed 800 150 loops; Ingest flat_embed 800 150 loops].

(** A lecture whose ingestion is in flight. *)
Definition in_flight : LectureState := set_status processing new_lecture.

(** An ingestion, a reset, and the ingestion again with another embedder. *)
Definition first_run := ingest flat_embed 800 150 1 loops new_lecture [].
Definition after_reset := reset 1 (snd (fst first_run)) (snd first_run).
Definition second_run :=
  ingest other_embed 800 150 1 loops (snd (fst after_reset)) (snd after_reset).

End Samples.

(** ** The whole application: accounts, sections and uploads

    The page state above holds what the chat code touches.  The rest of
    [app.js] also keeps the signed-in user and the token, shows one of
    the three sections, and owns the forms and the upload modal. *)

(** A user object as the account endpoint returns it. *)
Record User := {
  user_username : jsstring;
  user_email : jsstring;
}.

(** The requests of the account, lecture-list and upload code, with the
    token of their Authorization header ([None]: the header reads
    "Bearer null"). *)
Inductive ApiRequest :=
| PostLogin (username password : jsstring)
| PostRegister (username email password : jsstring)
| GetMe (token : option jsstring)
| GetLectures (token : option jsstring)
| PostUpload (token : option jsstring) (title description : jsstring)
    (video : option jsstring).

(** The module-level variables [currentUser] and [authToken], the
    [authToken] entry of localStorage, the sections, the logout button and
    the upload modal by their [style.display], the values of the form
    fields (the chosen file by its name), the default values the page
    declares for the text fields of the upload form, and the requests
    sent. *)
Record App := {
  page_state : State;
  currentUser : option User;
  authToken : option jsstring;
  localStorage_authToken : option jsstring;
  loginSection_display : jsstring;
  registerSection_display : jsstring;
  dashboardSection_display : jsstring;
  logout_btn_display : jsstring;
  uploadModal_display : jsstring;
  login_username : jsstring;
  login_password : jsstring;
  register_username : jsstring;
  register_email : jsstring;
  register_password : jsstring;
  video_title : jsstring;
  video_description : jsstring;
  video_file : option jsstring;
  video_title_default : jsstring;
  video_description_default : jsstring;
  sent : list ApiRequest;
}.

Definition set_page_state (x : State) (a : App) : App :=
  {| page_state := x;
     currentUser := currentUser a;
     authToken := authToken a;
     localStorage_authToken := localStorage_authToken a;
     loginSection_display := loginSection_display a;
     registerSection_display := registerSection_display a;
     dashboardSection_display := dashboardSection_display a;
     logout_btn_display := logout_btn_display a;
     uploadModal_display := uploadModal_display a;
     login_username := login_username a;
     login_password := login_password a;
     register_username := register_username a;
     register_email := register_email a;
     register_password := register_password a;
     video_title := video_title a;
     video_description := video_description a;
     video_file := video_file a;
     video_title_default := video_title_default a;
     video_description_default := video_description_default a;
     sent := sent a |}.

Definition set_currentUser (x : option User) (a : App) : App :=
  {| page_state := page_state a;
     currentUser := x;
     authToken := authToken a;
     localStorage_authToken := localStorage_authToken a;
     loginSection_display := loginSection_display a;
     registerSection_display := registerSection_display a;
     dashboardSection_display := dashboardSection_display a;
     logout_btn_display := logout_btn_display a;
     uploadModal_display := uploadModal_display a;
     login_username := login_username a;
     login_password := login_password a;
     register_username := register_username a;
     register_email := register_email a;
     register_password := register_password a;
     video_title := video_title a;
     video_description := video_description a;
     video_file := video_file a;
     video_title_default := video_title_default a;
     video_description_default := video_description_default a;
     sent := sent a |}.

Definition set_authToken (x : option jsstring) (a : App) : App :=
  {| page_state := page_state a;
     currentUser := currentUser a;
     authToken := x;
     localStorage_authToken := localStorage_authToken a;
     loginSection_display := loginSection_display a;
     registerSection_display := registerSection_display a;
     dashboardSection_display := dashboardSection_display a;
     logout_btn_display := logout_btn_display a;
     uploadModal_display := uploadModal_display a;
     login_username := login_username a;
     login_password := login_password a;
     register_username := register_username a;
     register_email := register_email a;
     register_password := register_password a;
     video_title := video_title a;
     video_description := video_description a;
     video_file := video_file a;
     video_title_default := video_title_default a;
     video_description_default := video_description_default a;
     sent := sent a |}.

Definition set_localStorage_authToken (x : option jsstring) (a : App) : App :=
  {| page_state := page_state a;
     currentUser := currentUser a;
     authToken := authToken a;
     localStorage_authToken := x;
     loginSection_display := loginSection_display a;
     registerSection_display := registerSection_display a;
     dashboardSection_display := dashboardSection_display a;
     logout_btn_display := logout_btn_display a;
     uploadModal_display := uploadModal_display a;
     login_username := login_username a;
     login_password := login_password a;
     register_username := register_username a;
     register_email := register_email a;
     register_password := register_password a;
     video_title := video_title a;
     video_description := video_description a;
     video_file := video_file a;
     video_title_default := video_title_default a;
     video_description_default := video_description_default a;
     sent := sent a |}.

Definition set_loginSection_display (x : jsstring) (a : App) : App :=
  {| page_state := page_state a;
     currentUser := currentUser a;
     authToken := authToken a;
     localStorage_authToken := localStorage_authToken a;
     loginSection_display := x;
     registerSection_display := registerSection_display a;
     dashboardSection_display := dashboardSection_display a;
     logout_btn_display := logout_btn_display a;
     uploadModal_display := uploadModal_display a;
     login_username := login_username a;
     login_password := login_password a;
     register_username := register_username a;
     register_email := register_email a;
     register_password := register_password a;
     video_title := video_title a;
     video_description := video_description a;
     video_file := video_file a;
     video_title_default := video_title_default a;
     video_description_default := video_description_default a;
     sent := sent a |}.

Definition set_registerSection_display (x : jsstring) (a : App) : App :=
  {| page_state := page_state a;
     currentUser := currentUser a;
     authToken := authToken a;
     localStorage_authToken := localStorage_authToken a;
     loginSection_display := loginSection_display a;
     registerSection_display := x;
     dashboardSection_display := dashboardSection_display a;
     logout_btn_display := logout_btn_display a;
     uploadModal_display := uploadModal_display a;
     login_username := login_username a;
     login_password := login_password a;
     register_username := register_username a;
     register_email := register_email a;
     register_password := register_password a;
     video_title := video_title a;
     video_description := video_description a;
     video_file := video_file a;
     video_title_default := video_title_default a;
     video_description_default := video_description_default a;
     sent := sent a |}.

Definition set_dashboardSection_display (x : jsstring) (a : App) : App :=
  {| page_state := page_state a;
     currentUser := currentUser a;
     authToken := authToken a;
     localStorage_authToken := localStorage_authToken a;
     loginSection_display := loginSection_display a;
     registerSection_display := registerSection_display a;
     dashboardSection_display := x;
     logout_btn_display := logout_btn_display a;
     uploadModal_display := uploadModal_display a;
     login_username := login_username a;
     login_password := login_password a;
     register_username := register_username a;
     register_email := register_email a;
     register_password := register_password a;
     video_title := video_title a;
     video_description := video_description a;
     video_file := video_file a;
     video_title_default := video_title_default a;
     video_description_default := video_description_default a;
     sent := sent a |}.

Definition set_logout_btn_display (x : jsstring) (a : App) : App :=
  {| page_state := page_state a;
     currentUser := currentUser a;
     authToken := authToken a;
     localStorage_authToken := localStorage_authToken a;
     loginSection_display := loginSection_display a;
     registerSection_display := registerSection_display a;
     dashboardSection_display := dashboardSection_display a;
     logout_btn_display := x;
     uploadModal_display := uploadModal_display a;
     login_username := login_username a;
     login_password := login_password a;
     register_username := register_username a;
     register_email := register_email a;
     register_password := register_password a;
     video_title := video_title a;
     video_description := video_description a;
     video_file := video_file a;
     video_title_default := video_title_default a;
     video_description_default := video_description_default a;
     sent := sent a |}.

Definition set_uploadModal_display (x : jsstring) (a : App) : App :=
  {| page_state := page_state a;
     currentUser := currentUser a;
     authToken := authToken a;
     localStorage_authToken := localStorage_authToken a;
     loginSection_display := loginSection_display a;
     registerSection_display := registerSection_display a;
     dashboardSection_display := dashboardSection_display a;
     logout_btn_display := logout_btn_display a;
     uploadModal_display := x;
     login_username := login_username a;
     login_password := login_password a;
     register_username := register_username a;
     register_email := register_email a;
     register_password := register_password a;
     video_title := video_title a;
     video_description := video_description a;
     video_file := video_file a;
     video_title_default := video_title_default a;
     video_description_default := video_description_default a;
     sent := sent a |}.

Definition set_video_title (x : jsstring) (a : App) : App :=
  {| page_state := page_state a;
     currentUser := currentUser a;
     authToken := authToken a;
     localStorage_authToken := localStorage_authToken a;
     loginSection_display := loginSection_display a;
     registerSection_display := registerSection_display a;
     dashboardSection_display := dashboardSection_display a;
     logout_btn_display := logout_btn_display a;
     uploadModal_display := uploadModal_display a;
     login_username := login_username a;
     login_password := login_password a;
     register_username := register_username a;
     register_email := register_email a;
     register_password := register_password a;
     video_title := x;
     video_description := video_description a;
     video_file := video_file a;
     video_title_default := video_title_default a;
     video_description_default := video_description_default a;
     sent := sent a |}.

Definition set_video_description (x : jsstring) (a : App) : App :=
  {| page_state := page_state a;
     currentUser := currentUser a;
     authToken := authToken a;
     localStorage_authToken := localStorage_authToken a;
     loginSection_display := loginSection_display a;
     registerSection_display := registerSection_display a;
     dashboardSection_display := dashboardSection_display a;
     logout_btn_display := logout_btn_display a;
     uploadModal_display := uploadModal_display a;
     login_username := login_username a;
     login_password := login_password a;
     register_username := register_username a;
     register_email := register_email a;
     register_password := register_password a;
     video_title := video_title a;
     video_description := x;
     video_file := video_file a;
     video_title_default := video_title_default a;
     video_description_default := video_description_default a;
     sent := sent a |}.

Definition set_video_file (x : option jsstring) (a : App) : App :=
  {| page_state := page_state a;
     currentUser := currentUser a;
     authToken := authToken a;
     localStorage_authToken := localStorage_authToken a;
     loginSection_display := loginSection_display a;
     registerSection_display := registerSection_display a;
     dashboardSection_display := dashboardSection_display a;
     logout_btn_display := logout_btn_display a;
     uploadModal_display := uploadModal_display a;
     login_username := login_username a;
     login_password := login_password a;
     register_username := register_username a;
     register_email := register_email a;
     register_password := register_password a;
     video_title := video_title a;
     video_description := video_description a;
     video_file := x;
     video_title_default := video_title_default a;
     video_description_default := video_description_default a;
     sent := sent a |}.

Definition set_sent (x : list ApiRequest) (a : App) : App :=
  {| page_state := page_state a;
     currentUser := currentUser a;
     authToken := authToken a;
     localStorage_authToken := localStorage_authToken a;
     loginSection_display := loginSection_display a;
     registerSection_display := registerSection_display a;
     dashboardSection_display := dashboardSection_display a;
     logout_btn_display := logout_btn_display a;
     uploadModal_display := uploadModal_display a;
     login_username := login_username a;
     login_password := login_password a;
     register_username := register_username a;
     register_email := register_email a;
     register_password := register_password a;
     video_title := video_title a;
     video_description := video_description a;
     video_file := video_file a;
     video_title_default := video_title_default a;
     video_description_default := video_description_default a;
     sent := x |}.

(** ** Statements of the whole application *)

Definition MA (A : Type) : Type := App -> completion A * App.

Definition aret {A} (x : A) : MA A := fun a => (Return x, a).

Definition athrow {A} (e : exn) : MA A := fun a => (Throw e, a).

Definition abind {A B} (c : MA A) (k : A -> MA B) : MA B :=
  fun a =>
    match c a with
    | (Return x, a') => k x a'
    | (Throw e, a') => (Throw e, a')
    end.

Declare Scope app_scope.
Delimit Scope app_scope with app.
Bind Scope app_scope with MA.

Notation "x <- c ;; k" := (abind c (fun x => k))
  (at level 61, c at next level, right associativity) : app_scope.
Notation "c ;; k" := (abind c (fun _ => k))
  (at level 61, right associativity) : app_scope.

Local Open Scope app_scope.

(** [try { c } catch (error) { h error }]. *)
Definition atry {A} (c : MA A) (h : exn -> MA A) : MA A :=
  fun a =>
    match c a with
    | (Return x, a') => (Return x, a')
    | (Throw e, a') => h e a'
    end.

Definition aget {A} (f : App -> A) : MA A := fun a => (Return (f a), a).

Definition amodify (f : App -> App) : MA unit := fun a => (Return tt, f a).

(** A statement of the chat code, run on the page it works on. *)
Definition on_page {A} (c : M A) : MA A :=
  fun a =>
    match c (page_state a) with
    | (r, s') => (r, set_page_state s' a)
    end.

(** The state a statement leaves, and how it completed. *)
Definition aexec {A} (c : MA A) (a : App) : App := snd (c a).
Definition aoutcome {A} (c : MA A) (a : App) : completion A := fst (c a).

(** [fetch(...)] of the account, lecture-list and upload code. *)
Definition send (r : ApiRequest) : MA unit :=
  amodify (fun a => set_sent (sent a ++ [r]) a).

(** [await response.json()]. *)
Definition ajson {A} (body : option A) : MA A :=
  match body with
  | Some x => aret x
  | None => athrow JsonRejected
  end.

(** ToBoolean of a string or null, as in [if (authToken)]. *)
Definition truthy_string (x : option jsstring) : bool :=
  match x with
  | Some (_ :: _) => true
  | _ => false
  end.

(** ** Navigation *)

(** [showLogin()]. *)
Definition showLogin : MA unit :=
  amodify (set_loginSection_display (lit "block")) ;;
  amodify (set_registerSection_display (lit "none")) ;;
  amodify (set_dashboardSection_display (lit "none")) ;;
  amodify (set_logout_btn_display (lit "none")).

(** [showRegister()]. *)
Definition showRegister : MA unit :=
  amodify (set_loginSection_display (lit "none")) ;;
  amodify (set_registerSection_display (lit "block")) ;;
  amodify (set_dashboardSection_display (lit "none")) ;;
  amodify (set_logout_btn_display (lit "none")).

(** [showDashboard()]. *)
Definition showDashboard : MA unit :=
  amodify (set_loginSection_display (lit "none")) ;;
  amodify (set_registerSection_display (lit "none")) ;;
  amodify (set_dashboardSection_display (lit "block")) ;;
  amodify (set_logout_btn_display (lit "block")) ;;
  on_page (modify (set_welcomeScreen_display (lit "flex"))) ;;
  on_page (modify (set_chatInterface_display (lit "none"))).

(** [showUploadModal()]. *)
Definition showUploadModal : MA unit :=
  amodify (set_uploadModal_display (lit "flex")).

(** [hideUploadModal()]: the modal is hidden and the upload form reset:
    [reset()] gives the text fields the default values the page declares
    for them and leaves no file chosen. *)
Definition hideUploadModal : MA unit :=
  amodify (set_uploadModal_display (lit "none")) ;;
  amodify (fun a => set_video_title (video_title_default a) a) ;;
  amodify (fun a => set_video_description (video_description_default a) a) ;;
  amodify (set_video_file None).

(** The click handler on the modal: only a click on the modal itself,
    outside its content, closes it. *)
Definition click_uploadModal (target_is_modal : bool) : MA unit :=
  if target_is_modal then hideUploadModal else aret tt.

(** ** Lectures *)

(** [loadLectures()] up to its [await]. *)
Definition loadLectures : MA unit :=
  token <- aget authToken ;;
  send (GetLectures token).

(** [loadLectures] from the point where its request has settled. *)
Definition loadLectures_settled (resp : Response (list Lecture) unit) : MA unit :=
  atry
    (match resp with
     | Rejected => athrow FetchRejected
     | Ok body =>
         lectures <- ajson body ;;
         on_page (displayLectures lectures)
     | NotOk _ => on_page (showToast (lit "Failed to load lectures") error)
     end)
    (fun _ =>
       on_page (console_error (lit "Error loading lectures:")) ;;
       on_page (showToast (lit "Failed to load lectures") error)).

(** ** Accounts *)

(** [getCurrentUser()] up to its [await]. *)
Definition getCurrentUser : MA unit :=
  token <- aget authToken ;;
  send (GetMe token).

(** [getCurrentUser] from the point where its request has settled: the
    user, or null. *)
Definition getCurrentUser_settled (resp : Response User unit) : MA (option User) :=
  atry
    (match resp with
     | Rejected => athrow FetchRejected
     | Ok body => u <- ajson body ;; aret (Some u)
     | NotOk _ => aret None
     end)
    (fun _ =>
       on_page (console_error (lit "Error getting current user:")) ;;
       aret None).

(** [initializeApp()] up to its [await]: whether a request is pending. *)
Definition initializeApp : MA bool :=
  token <- aget authToken ;;
  if truthy_string token then
    atry (getCurrentUser ;; aret true)
         (fun _ =>
            on_page (console_error (lit "Error initializing app:")) ;;
            showLogin ;; aret false)
  else
    showLogin ;; aret false.

(** [initializeApp] from the point where [getCurrentUser] has settled. *)
Definition initializeApp_settled (resp : Response User unit) : MA unit :=
  atry
    (u <- getCurrentUser_settled resp ;;
     match u with
     | Some _ =>
         amodify (set_currentUser u) ;;
         showDashboard ;;
         loadLectures
     | None => showLogin
     end)
    (fun _ =>
       on_page (console_error (lit "Error initializing app:")) ;;
       showLogin).

(** The body of a successful login. *)
Record LoginData := {
  access_token : jsstring;
}.

(** [handleLogin(e)] up to its first [await]. *)
Definition handleLogin : MA unit :=
  on_page showLoading ;;
  username <- aget login_username ;;
  password <- aget login_password ;;
  send (PostLogin username password).

(** What [handleLogin] does when it fails, and its [finally]. *)
Definition handleLogin_catch : MA unit :=
  on_page (console_error (lit "Login error:")) ;;
  on_page (showToast (lit "Login failed. Please try again.") error).

(** [handleLogin] from the point where the login request has settled, up
    to its next [await] or its end: whether it is waiting for
    [getCurrentUser].  The body is read before [response.ok] is tested. *)
Definition handleLogin_settled (resp : Response LoginData ErrorBody) : MA bool :=
  waiting <-
    atry
      (match resp with
       | Rejected => athrow FetchRejected
       | Ok body =>
           data <- ajson body ;;
           amodify (set_authToken (Some (access_token data))) ;;
           amodify (set_localStorage_authToken (Some (access_token data))) ;;
           getCurrentUser ;;
           aret true
       | NotOk body =>
           data <- ajson body ;;
           on_page (showToast (detail_or data (lit "Login failed")) error) ;;
           aret false
       end)
      (fun _ => handleLogin_catch ;; aret false) ;;
  if waiting then aret true else on_page hideLoading ;; aret false.

(** [handleLogin] from the point where [getCurrentUser] has settled. *)
Definition handleLogin_user_settled (resp : Response User unit) : MA unit :=
  atry
    (u <- getCurrentUser_settled resp ;;
     amodify (set_currentUser u) ;;
     on_page (showToast (lit "Login successful!") success) ;;
     showDashboard ;;
     loadLectures)
    (fun _ => handleLogin_catch) ;;
  on_page hideLoading.

(** [handleRegister(e)] up to its [await]. *)
Definition handleRegister : MA unit :=
  on_page showLoading ;;
  username <- aget register_username ;;
  email <- aget register_email ;;
  password <- aget register_password ;;
  send (PostRegister username email password).

(** [handleRegister] from the point where its request has settled. *)
Definition handleRegister_settled (resp : Response unit ErrorBody) : MA unit :=
  atry
    (match resp with
     | Rejected => athrow FetchRejected
     | Ok body =>
         ajson body ;;
         on_page (showToast (lit "Registration successful! Please login.") success) ;;
         showLogin
     | NotOk body =>
         data <- ajson body ;;
         on_page (showToast (detail_or data (lit "Registration failed")) error)
     end)
    (fun _ =>
       on_page (console_error (lit "Registration error:")) ;;
       on_page (showToast (lit "Registration failed. Please try again.") error)) ;;
  on_page hideLoading.

(** [handleLogout()]. *)
Definition handleLogout : MA unit :=
  amodify (set_authToken None) ;;
  amodify (set_currentUser None) ;;
  on_page (modify (set_currentLecture None)) ;;
  amodify (set_localStorage_authToken None) ;;
  showLogin ;;
  on_page (showToast (lit "Logged out successfully") info).

(** ** Uploads *)

(** [handleUpload(e)] up to its [await]. *)
Definition handleUpload : MA unit :=
  on_page showLoading ;;
  title <- aget video_title ;;
  description <- aget video_description ;;
  video <- aget video_file ;;
  token <- aget authToken ;;
  send (PostUpload token title description video).

(** [handleUpload] from the point where its request has settled; the
    body is read only when the response is an error. *)
Definition handleUpload_settled (resp : Response unit ErrorBody) : MA unit :=
  atry
    (match resp with
     | Rejected => athrow FetchRejected
     | Ok _ =>
         on_page (showToast
                    (lit "Video uploaded successfully! Processing will begin shortly.")
                    success) ;;
         hideUploadModal ;;
         loadLectures
     | NotOk body =>
         err <- ajson body ;;
         on_page (showToast (detail_or err (lit "Upload failed")) error)
     end)
    (fun _ =>
       on_page (console_error (lit "Upload error:")) ;;
       on_page (showToast (lit "Upload failed. Please try again.") error)) ;;
  on_page hideLoading.

(** ** Events

    The handlers [setupEventListeners] registers, and the points where a
    waiting handler goes on. *)

Inductive Event :=
| DOMContentLoaded
| InitUserSettled (resp : Response User unit)
| SubmitLogin
| LoginSettled (resp : Response LoginData ErrorBody)
| LoginUserSettled (resp : Response User unit)
| SubmitRegister
| RegisterSettled (resp : Response unit ErrorBody)
| ClickShowRegister
| ClickShowLogin
| ClickLogout
| ClickUploadBtn
| ClickCloseUploadModal
| ClickCancelUpload
| ClickUploadModal (target_is_modal : bool)
| SubmitUpload
| UploadSettled (resp : Response unit ErrorBody)
| LecturesSettled (resp : Response (list Lecture) unit)
| ClickLecture (lecture : Lecture)
| HistorySettled (resp : Response (list ChatTurn) unit)
| SubmitChat
| ChatSettled (typingIndicator : nat) (resp : Response AskData ErrorBody)
| ClickSummarize
| SummarizeSettled (resp : Response SummaryData ErrorBody).

(** The statement an event runs. *)
Definition handler (e : Event) : MA unit :=
  match e with
  | DOMContentLoaded => initializeApp ;; aret tt
  | InitUserSettled resp => initializeApp_settled resp
  | SubmitLogin => handleLogin
  | LoginSettled resp => handleLogin_settled resp ;; aret tt
  | LoginUserSettled resp => handleLogin_user_settled resp
  | SubmitRegister => handleRegister
  | RegisterSettled resp => handleRegister_settled resp
  | ClickShowRegister => showRegister
  | ClickShowLogin => showLogin
  | ClickLogout => handleLogout
  | ClickUploadBtn => showUploadModal
  | ClickCloseUploadModal => hideUploadModal
  | ClickCancelUpload => hideUploadModal
  | ClickUploadModal target_is_modal => click_uploadModal target_is_modal
  | SubmitUpload => handleUpload
  | UploadSettled resp => handleUpload_settled resp
  | LecturesSettled resp => loadLectures_settled resp
  | ClickLecture lecture => on_page (selectLecture lecture)
  | HistorySettled resp => on_page (loadChatHistory_settled resp)
  | SubmitChat => on_page (bind handleChatMessage (fun _ => ret tt))
  | ChatSettled typingIndicator resp =>
      on_page (handleChatMessage_settled typingIndicator resp)
  | ClickSummarize => on_page (bind handleSummarize (fun _ => ret tt))
  | SummarizeSettled resp => on_page (handleSummarize_settled resp)
  end.

(** The application after an event, and after a sequence of events. *)
Definition step (e : Event) (a : App) : App := aexec (handler e) a.

Definition steps_from (a : App) (es : list Event) : App :=
  fold_left (fun a e => step e a) es a.

Local Close Scope app_scope.

(** ** Further properties in words *)

(** Every typing indicator in the chat is older than the next node. *)
Definition indicators_fresh (s : State) : Prop :=
  Forall (fun n => match n with
                   | TypingIndicator k => (k < fresh s)%nat
                   | Message _ _ _ => True
                   end) (chat_messages s).

(** A node is a message. *)
Definition is_message (n : ChatNode) : bool :=
  match n with
  | Message _ _ _ => true
  | TypingIndicator _ => false
  end.

(** The nodes a history is shown as when a turn may have null
    references: rendering ends with the user message of the first such
    turn. *)
Fixpoint shown_until_null (turns : list ChatTurn) : list ChatNode :=
  match turns with
  | [] => []
  | t :: rest =>
      match timestamp_references t with
      | RNull => [Message user (user_message t) []]
      | _ => shown t ++ shown_until_null rest
      end
  end.

Definition has_null (turns : list ChatTurn) : bool :=
  existsb (fun t => match timestamp_references t with
                    | RNull => true
                    | _ => false
                    end) turns.

(** The prompt [handleSummarize] shows as the user's message. *)
Definition summary_prompt : jsstring := lit "Please provide a summary of this lecture.".

(** The warning of the two chat handlers when no lecture is selected. *)
Definition select_first_toast : Toast :=
  {| toast_message := lit "Please select a lecture first"; toast_type := warning |}.

(** The number a string of decimal digits stands for. *)
Definition num (s : jsstring) : N :=
  fold_left (fun a d => (10 * a + (d - 48))%N) s 0%N.

(** A code unit is a decimal digit. *)
Definition is_digit (c : N) : bool := ((48 <=? c) && (c <=? 57))%N.

(** The number of seconds a label minutes:seconds stands for. *)
Fixpoint label_seconds (minutes : jsstring) (s : jsstring) : N :=
  match s with
  | [] => num minutes
  | c :: s' =>
      if (c =? 58)%N then (60 * num minutes + num s')%N
      else label_seconds (minutes ++ [c]) s'
  end.

(** ** The application in words *)

(** Exactly one of the three sections is displayed, and the logout
    button exactly with the dashboard. *)
Definition one_section (a : App) : Prop :=
  (loginSection_display a = lit "block"
   /\ registerSection_display a = lit "none"
   /\ dashboardSection_display a = lit "none"
   /\ logout_btn_display a = lit "none")
  \/ (loginSection_display a = lit "none"
      /\ registerSection_display a = lit "block"
      /\ dashboardSection_display a = lit "none"
      /\ logout_btn_display a = lit "none")
  \/ (loginSection_display a = lit "none"
      /\ registerSection_display a = lit "none"
      /\ dashboardSection_display a = lit "block"
      /\ logout_btn_display a = lit "block").

(** The login section is the one displayed. *)
Definition login_shown (a : App) : Prop :=
  loginSection_display a = lit "block"
  /\ registerSection_display a = lit "none"
  /\ dashboardSection_display a = lit "none"
  /\ logout_btn_display a = lit "none".

(** The dashboard is the section displayed, on its welcome screen. *)
Definition dashboard_shown (a : App) : Prop :=
  loginSection_display a = lit "none"
  /\ registerSection_display a = lit "none"
  /\ dashboardSection_display a = lit "block"
  /\ logout_btn_display a = lit "block"
  /\ welcomeScreen_display (page_state a) = lit "flex"
  /\ chatInterface_display (page_state a) = lit "none".

(** The token variable and the token in localStorage agree. *)
Definition token_in_sync (a : App) : Prop :=
  authToken a = localStorage_authToken a.


(** The user [getCurrentUser] gives for a settled request. *)
Definition user_of (resp : Response User unit) : option User :=
  match resp with
  | Ok (Some u) => Some u
  | _ => None
  end.

(** The account state: user, token and stored token. *)
Definition account (a : App) : option User * option jsstring * option jsstring :=
  (currentUser a, authToken a, localStorage_authToken a).

(** The displays of the sections and the logout button. *)
Definition sections (a : App) : jsstring * jsstring * jsstring * jsstring :=
  (loginSection_display a, registerSection_display a,
   dashboardSection_display a, logout_btn_display a).

(** The upload form and its modal. *)
Definition upload_dialog (a : App) : jsstring * jsstring * jsstring * option jsstring :=
  (uploadModal_display a, video_title a, video_description a, video_file a).

(** An application as the browser has it before the script runs: the
    stored token [stored], empty forms, nothing displayed by the script
    yet. *)
Definition blank_State : State :=
  {| currentLecture := None; lecture_items := [];
     welcomeScreen_display := []; chatInterface_display := [];
     current_lecture_title := []; chat_messages := []; chat_input_field := [];
     loadingOverlay_display := []; toasts := []; fetched := []; console := [];
     fresh := 0 |}.

Definition loaded (stored : option jsstring) : App :=
  {| page_state := blank_State; currentUser := None; authToken := stored;
     localStorage_authToken := stored;
     loginSection_display := []; registerSection_display := [];
     dashboardSection_display := []; logout_btn_display := [];
     uploadModal_display := [];
     login_username := lit "ada"; login_password := lit "secret";
     register_username := []; register_email := []; register_password := [];
     video_title := lit "Loops"; video_description := []; video_file := None;
     video_title_default := []; video_description_default := [];
     sent := [] |}.

Definition ada : User := {| user_username := lit "ada"; user_email := lit "ada@example.org" |}.

(** * Properties *)

(** ** formatTimestamp *)

Lemma digits_aux_length (fuel : nat) : forall n acc,
  (List.length acc <= List.length (digits_aux fuel n acc))%nat.
Proof.
  induction fuel as [|fuel IH]; intros n acc; simpl; [lia|].
  destruct (n <? 10)%N; simpl; [lia|].
  specialize (IH (n / 10)%N ((48 + n mod 10)%N :: acc)). simpl in IH. lia.
Qed.

Lemma digits_aux_length_S (fuel : nat) (n : N) (acc : jsstring) :
  (S (List.length acc) <= List.length (digits_aux (S fuel) n acc))%nat.
Proof.
  simpl. destruct (n <? 10)%N; simpl; [lia|].
  pose proof (digits_aux_length fuel (n / 10)%N ((48 + n mod 10)%N :: acc)) as H.
  simpl in H. lia.
Qed.

Lemma digits_small (n : N) : (n < 10)%N -> digits n = [(48 + n mod 10)%N].
Proof.
  intros H. unfold digits. cbn [digits_aux].
  apply N.ltb_lt in H. now rewrite H.
Qed.

Lemma log2_fuel (n a : N) :
  (a <= n)%N -> exists f, N.to_nat (N.log2 n) = (N.to_nat (N.log2 a) + f)%nat.
Proof.
  intros H. apply N.log2_le_mono in H.
  exists (N.to_nat (N.log2 n) - N.to_nat (N.log2 a))%nat. lia.
Qed.

Lemma digits_aux_step (fuel : nat) (n : N) (acc : jsstring) :
  (10 <= n)%N ->
  digits_aux (S fuel) n acc = digits_aux fuel (n / 10)%N ((48 + n mod 10)%N :: acc).
Proof.
  intros H. cbn [digits_aux].
  assert (E : (n <? 10)%N = false) by (apply N.ltb_ge; exact H).
  now rewrite E.
Qed.

Lemma digits_two (n : N) : (10 <= n)%N -> (2 <= List.length (digits n))%nat.
Proof.
  intros H. unfold digits.
  destruct (log2_fuel n 10 H) as [f ->].
  change (N.to_nat (N.log2 10)) with 3%nat.
  change (S (3 + f)) with (S (S (2 + f))).
  rewrite digits_aux_step by exact H.
  pose proof (digits_aux_length_S (2 + f) (n / 10)%N [(48 + n mod 10)%N]) as L.
  cbn [List.length] in L. exact L.
Qed.

Lemma digits_three (n : N) : (100 <= n)%N -> (3 <= List.length (digits n))%nat.
Proof.
  intros H. unfold digits.
  destruct (log2_fuel n 100 H) as [f ->].
  change (N.to_nat (N.log2 100)) with 6%nat.
  change (S (6 + f)) with (S (S (S (4 + f)))).
  rewrite digits_aux_step by lia.
  rewrite digits_aux_step by (apply N.div_le_lower_bound; lia).
  pose proof (digits_aux_length_S (4 + f) (n / 10 / 10)%N
                [(48 + (n / 10) mod 10)%N; (48 + n mod 10)%N]) as L.
  cbn [List.length] in L. exact L.
Qed.


(** ** Rounding to a double *)

Lemma pow2_pos (c : Z) : (0 < pow2 c)%Q.
Proof. apply Qpower_0_lt. reflexivity. Qed.

Lemma pow2_add (a b : Z) : (pow2 (a + b) == pow2 a * pow2 b)%Q.
Proof. apply Qpower_plus. discriminate. Qed.

Lemma pow2_Z (c : Z) : 0 <= c -> (pow2 c == inject_Z (2 ^ c))%Q.
Proof. intros H. unfold pow2. now rewrite Zpower_Qpower. Qed.

Lemma pow2_le (a b : Z) : a <= b -> (pow2 a <= pow2 b)%Q.
Proof. intros H. apply Qpower_le_compat_l; [exact H | discriminate]. Qed.

Lemma pow2_lt (a b : Z) : a < b -> (pow2 a < pow2 b)%Q.
Proof. intros H. apply Qpower_lt_compat_l; [exact H | reflexivity]. Qed.

Lemma pow2_lt_inv (a b : Z) : (pow2 a < pow2 b)%Q -> a < b.
Proof. intros H. eapply Qpower_lt_compat_l_inv; [exact H | reflexivity]. Qed.

Lemma pow2_opp (c : Z) : (pow2 c * pow2 (- c) == 1)%Q.
Proof. rewrite <- pow2_add, Z.add_opp_diag_r. reflexivity. Qed.

(** The bounds of [Z.log2], as rationals. *)
Lemma log2_bounds (a : Z) :
  0 < a -> (pow2 (Z.log2 a) <= inject_Z a)%Q /\ (inject_Z a < pow2 (Z.log2 a + 1))%Q.
Proof.
  intros H. pose proof (Z.log2_nonneg a) as N.
  destruct (Z.log2_spec a H) as [L U].
  rewrite !pow2_Z by lia. rewrite <- Zle_Qle, <- Zlt_Qlt.
  replace (Z.log2 a + 1) with (Z.succ (Z.log2 a)) by lia. split; assumption.
Qed.

Lemma ilog2_spec (q : Q) :
  (0 < q)%Q -> (pow2 (ilog2 q) <= q)%Q /\ (q < pow2 (ilog2 q + 1))%Q.
Proof.
  intros H. unfold ilog2.
  set (e := Z.log2 (Qnum q) - Z.log2 (Zpos (Qden q))).
  assert (Ha : 0 < Qnum q) by (destruct q as [a b]; unfold Qlt in H; simpl in *; lia).
  destruct (log2_bounds (Qnum q) Ha) as [La Ua].
  destruct (log2_bounds (Zpos (Qden q)) eq_refl) as [Lb Ub].
  assert (Eq : (q * inject_Z (Zpos (Qden q)) == inject_Z (Qnum q))%Q).
  { destruct q as [a b]. unfold Qeq, inject_Z. simpl. lia. }
  set (A := inject_Z (Qnum q)) in *. set (B := inject_Z (Zpos (Qden q))) in *.
  assert (HB : (0 < B)%Q) by (unfold B; change 0%Q with (inject_Z 0); now rewrite <- Zlt_Qlt).
  assert (E1 : (pow2 (Z.log2 (Qnum q)) == pow2 e * pow2 (Z.log2 (Zpos (Qden q))))%Q).
  { rewrite <- pow2_add. unfold e. now replace (Z.log2 (Qnum q) - Z.log2 (Z.pos (Qden q)) + Z.log2 (Z.pos (Qden q))) with (Z.log2 (Qnum q)) by lia. }
  assert (E2 : (pow2 (Z.log2 (Qnum q) + 1) == pow2 (e + 1) * pow2 (Z.log2 (Zpos (Qden q))))%Q).
  { rewrite <- pow2_add. unfold e. now replace (Z.log2 (Qnum q) - Z.log2 (Z.pos (Qden q)) + 1 + Z.log2 (Z.pos (Qden q))) with (Z.log2 (Qnum q) + 1) by lia. }
  assert (E3 : (pow2 (Z.log2 (Zpos (Qden q)) + 1) == 2 * pow2 (Z.log2 (Zpos (Qden q))))%Q).
  { rewrite pow2_add. change (pow2 1) with 2%Q. ring. }
  assert (E4 : (pow2 (e + 1) == 2 * pow2 e)%Q).
  { rewrite pow2_add. change (pow2 1) with 2%Q. ring. }
  assert (E5 : (pow2 (e - 1 + 1) == pow2 e)%Q) by (now replace (e - 1 + 1) with e by lia).
  assert (E6 : (pow2 e == 2 * pow2 (e - 1))%Q).
  { rewrite <- E5 at 1. rewrite pow2_add. change (pow2 1) with 2%Q. ring. }
  pose proof (pow2_pos e) as Pe. pose proof (pow2_pos (e - 1)) as Pe1.
  pose proof (pow2_pos (Z.log2 (Zpos (Qden q)))) as Pb.
  set (pb := pow2 (Z.log2 (Zpos (Qden q)))) in *.
  set (pa := pow2 (Z.log2 (Qnum q))) in *.
  (* q < 2^(e+1) *)
  assert (U : (q < pow2 (e + 1))%Q).
  { apply Qnot_le_lt. intros C.
    assert (X : (pow2 (e + 1) * pb <= q * B)%Q).
    { apply Qle_trans with (q * pb)%Q.
      - apply Qmult_le_compat_r; [exact C | now apply Qlt_le_weak].
      - rewrite !(Qmult_comm q). apply Qmult_le_compat_r; [exact Lb | now apply Qlt_le_weak]. }
    rewrite Eq, <- E2 in X. apply (Qlt_irrefl A). eapply Qlt_le_trans; eassumption. }
  (* 2^(e-1) < q *)
  assert (L : (pow2 (e - 1) < q)%Q).
  { apply Qnot_le_lt. intros C.
    assert (X : (q * B < pow2 e * pb)%Q).
    { apply Qle_lt_trans with (pow2 (e - 1) * B)%Q.
      - apply Qmult_le_compat_r; [exact C | now apply Qlt_le_weak].
      - rewrite E6. rewrite <- Qmult_assoc. rewrite (Qmult_comm 2).
        rewrite <- Qmult_assoc. rewrite Qmult_lt_l by exact Pe1.
        rewrite Qmult_comm, <- E3. exact Ub. }
    rewrite Eq, <- E1 in X. apply (Qlt_irrefl A). eapply Qlt_le_trans; eassumption. }
  destruct (Qle_bool (pow2 e) q) eqn:T.
  - apply Qle_bool_iff in T. split; assumption.
  - split; [now apply Qlt_le_weak|]. rewrite E5.
    apply Qnot_le_lt. intros C. apply Qle_bool_iff in C. congruence.
Qed.

Lemma pow2_succ (c : Z) : (pow2 (c + 1) == 2 * pow2 c)%Q.
Proof. rewrite pow2_add. change (pow2 1) with 2%Q. ring. Qed.

Lemma ilog2_lt (q : Q) (k : Z) : (0 < q)%Q -> (q < pow2 k)%Q -> ilog2 q < k.
Proof.
  intros H U. destruct (ilog2_spec q H) as [L _].
  apply pow2_lt_inv. eapply Qle_lt_trans; eassumption.
Qed.

Lemma ilog2_ge (q : Q) (k : Z) : (0 < q)%Q -> (pow2 k <= q)%Q -> k <= ilog2 q.
Proof.
  intros H L. destruct (ilog2_spec q H) as [_ U].
  assert (X : k < ilog2 q + 1) by (apply pow2_lt_inv; eapply Qle_lt_trans; eassumption).
  lia.
Qed.

Lemma round_half_even_bounds (x : Q) :
  (inject_Z (round_half_even x) <= x + (1 # 2))%Q
  /\ (x - (1 # 2) <= inject_Z (round_half_even x))%Q
  /\ Qfloor x <= round_half_even x.
Proof.
  unfold round_half_even.
  pose proof (Qfloor_le x) as L. pose proof (Qlt_floor x) as U.
  rewrite inject_Z_plus in U. change (inject_Z 1) with 1%Q in U.
  set (f := Qfloor x) in *.
  destruct (Qcompare_spec (x - inject_Z f) (1 # 2)) as [E|E|E].
  - destruct (Z.even f); rewrite ?inject_Z_plus; change (inject_Z 1) with 1%Q;
      (split; [lra | split; [lra | lia]]).
  - split; [lra | split; [lra | lia]].
  - rewrite inject_Z_plus. change (inject_Z 1) with 1%Q.
    split; [lra | split; [lra | lia]].
Qed.

Lemma round_half_even_ge (x : Q) (z : Z) :
  (inject_Z z <= x)%Q -> z <= round_half_even x.
Proof.
  intros H. destruct (round_half_even_bounds x) as (_ & _ & F).
  apply Qfloor_resp_le in H. rewrite Qfloor_Z in H. lia.
Qed.

Lemma round_half_even_lt (x : Q) (z : Z) :
  (x < inject_Z z - (1 # 2))%Q -> round_half_even x < z.
Proof.
  intros H. destruct (round_half_even_bounds x) as (U & _ & _).
  rewrite Zlt_Qlt. lra.
Qed.

Lemma round_half_even_Z (x : Q) (z : Z) :
  (x == inject_Z z)%Q -> round_half_even x = z.
Proof.
  intros H. destruct (round_half_even_bounds x) as (U & L & _).
  assert (A : (inject_Z (round_half_even x) < inject_Z (z + 1))%Q).
  { rewrite inject_Z_plus. change (inject_Z 1) with 1%Q. lra. }
  assert (B : (inject_Z z < inject_Z (round_half_even x + 1))%Q).
  { rewrite inject_Z_plus. change (inject_Z 1) with 1%Q. lra. }
  rewrite <- Zlt_Qlt in A, B. lia.
Qed.

(** *** The grid of a rounding *)

Section Grid.

Variable a : Q.

Lemma nearest_ge (k : Z) :
  (inject_Z k * pow2 (ulp_exponent a) <= a)%Q ->
  (inject_Z k * pow2 (ulp_exponent a) <= nearest a)%Q.
Proof.
  intros H. unfold nearest. cbv zeta. set (c := ulp_exponent a) in *.
  pose proof (pow2_pos c) as P. pose proof (pow2_pos (- c)) as P'.
  apply Qmult_le_compat_r; [|now apply Qlt_le_weak].
  rewrite <- Zle_Qle. apply round_half_even_ge.
  assert (E : (inject_Z k == inject_Z k * pow2 c * pow2 (- c))%Q).
  { rewrite <- Qmult_assoc, pow2_opp. ring. }
  rewrite E. apply Qmult_le_compat_r; [exact H | now apply Qlt_le_weak].
Qed.

Lemma nearest_lt (k : Z) :
  (a < inject_Z k * pow2 (ulp_exponent a) - (1 # 2) * pow2 (ulp_exponent a))%Q ->
  (nearest a < inject_Z k * pow2 (ulp_exponent a))%Q.
Proof.
  intros H. unfold nearest. cbv zeta. set (c := ulp_exponent a) in *.
  pose proof (pow2_pos c) as P. pose proof (pow2_pos (- c)) as P'.
  apply Qmult_lt_compat_r; [exact P|].
  rewrite <- Zlt_Qlt. apply round_half_even_lt.
  assert (E : (inject_Z k - (1 # 2) == (inject_Z k * pow2 c - (1 # 2) * pow2 c) * pow2 (- c))%Q).
  { setoid_replace ((inject_Z k * pow2 c - (1 # 2) * pow2 c) * pow2 (- c))%Q
      with ((inject_Z k - (1 # 2)) * (pow2 c * pow2 (- c)))%Q by ring.
    rewrite pow2_opp. ring. }
  rewrite E. apply Qmult_lt_compat_r; [exact P' | exact H].
Qed.

Lemma nearest_exact (k : Z) :
  (a == inject_Z k * pow2 (ulp_exponent a))%Q -> (nearest a == a)%Q.
Proof.
  intros H. unfold nearest. cbv zeta. set (c := ulp_exponent a) in *.
  rewrite (round_half_even_Z _ k); [now symmetry|].
  rewrite H, <- Qmult_assoc, pow2_opp. ring.
Qed.

End Grid.

(** *** Rounding positive and negative numbers *)

Lemma Qabs_pos_eq (q : Q) : (0 < q)%Q -> Qabs q = q.
Proof.
  destruct q as [[|n|n] d]; intros H; try reflexivity; discriminate H.
Qed.

Lemma Qabs_neg_eq (q : Q) : (q < 0)%Q -> Qabs q = (- q)%Q.
Proof.
  destruct q as [[|n|n] d]; intros H; try reflexivity; discriminate H.
Qed.

Lemma round64_pos (q : Q) :
  (0 < q)%Q ->
  round64 q = if Qle_bool (pow2 1024) (nearest q) then Infinity false
              else Finite (nearest q).
Proof.
  intros H. unfold round64. rewrite (Qabs_pos_eq q H).
  assert (Z0 : Qeq_bool q 0 = false).
  { destruct (Qeq_bool q 0) eqn:E; [|reflexivity]. apply Qeq_bool_eq in E. lra. }
  assert (P : Qle_bool 0 q = true) by (apply Qle_bool_iff; lra).
  rewrite Z0, P. reflexivity.
Qed.

Lemma round64_neg (q : Q) :
  (q < 0)%Q ->
  round64 q = if Qle_bool (pow2 1024) (nearest (- q)) then Infinity true
              else Finite (- nearest (- q)).
Proof.
  intros H. unfold round64. rewrite (Qabs_neg_eq q H).
  assert (Z0 : Qeq_bool q 0 = false).
  { destruct (Qeq_bool q 0) eqn:E; [|reflexivity]. apply Qeq_bool_eq in E. lra. }
  assert (P : Qle_bool 0 q = false).
  { destruct (Qle_bool 0 q) eqn:E; [|reflexivity]. apply Qle_bool_iff in E. lra. }
  rewrite Z0, P. reflexivity.
Qed.

(** An integer is a multiple of [2^c] when [c <= 0]. *)
Lemma int_on_grid (k c : Z) :
  c <= 0 -> (inject_Z k == inject_Z (k * 2 ^ (- c)) * pow2 c)%Q.
Proof.
  intros H. rewrite inject_Z_mult, <- pow2_Z by lia.
  rewrite <- Qmult_assoc, (Qmult_comm (pow2 (- c))), pow2_opp. ring.
Qed.

Lemma pow2_53_1024 : (pow2 53 < pow2 1024)%Q.
Proof. apply pow2_lt. lia. Qed.

Lemma Qle_bool_false (x y : Q) : (y < x)%Q -> Qle_bool x y = false.
Proof.
  intros H. destruct (Qle_bool x y) eqn:E; [|reflexivity].
  apply Qle_bool_iff in E. lra.
Qed.

(** Integers below [2^53] are doubles. *)
Lemma round64_small_int (w : Z) :
  0 <= w < 2 ^ 53 ->
  exists v, round64 (inject_Z w) = Finite v /\ (v == inject_Z w)%Q.
Proof.
  intros [L U].
  destruct (Z.eq_dec w 0) as [->|N]; [exists 0%Q; split; reflexivity|].
  assert (P : (0 < inject_Z w)%Q).
  { change 0%Q with (inject_Z 0). rewrite <- Zlt_Qlt. lia. }
  assert (B : (inject_Z w < pow2 53)%Q).
  { rewrite pow2_Z by lia. now rewrite <- Zlt_Qlt. }
  assert (B1 : (pow2 0 <= inject_Z w)%Q).
  { change (pow2 0) with (inject_Z 1). rewrite <- Zle_Qle. lia. }
  pose proof (ilog2_lt _ 53 P B) as E1. pose proof (ilog2_ge _ 0 P B1) as E0.
  assert (C : ulp_exponent (inject_Z w) <= 0) by (unfold ulp_exponent; lia).
  assert (X : (nearest (inject_Z w) == inject_Z w)%Q).
  { apply (nearest_exact _ (w * 2 ^ (- ulp_exponent (inject_Z w)))).
    now apply int_on_grid. }
  exists (nearest (inject_Z w)). split; [|exact X].
  rewrite round64_pos by exact P.
  rewrite Qle_bool_false; [reflexivity|].
  rewrite X. pose proof pow2_53_1024. lra.
Qed.

(** From [2^53] on a number rounds to a double that is not below [2^53],
    or to infinity. *)
Lemma round64_big (a : Q) :
  (pow2 53 <= a)%Q ->
  match round64 a with
  | Finite v => (pow2 53 <= v)%Q
  | Infinity _ => True
  | NaN => False
  end.
Proof.
  intros H. pose proof (pow2_pos 53) as P53.
  assert (P : (0 < a)%Q) by lra.
  rewrite round64_pos by exact P.
  destruct (Qle_bool (pow2 1024) (nearest a)); [exact I|].
  pose proof (ilog2_ge _ 53 P H) as E.
  destruct (ilog2_spec a P) as [L _].
  assert (C : ulp_exponent a = ilog2 a - 52) by (unfold ulp_exponent; lia).
  assert (G : (inject_Z (2 ^ 52) * pow2 (ulp_exponent a) == pow2 (ilog2 a))%Q).
  { rewrite <- pow2_Z by lia. rewrite <- pow2_add, C.
    now replace (52 + (ilog2 a - 52)) with (ilog2 a) by lia. }
  pose proof (nearest_ge a (2 ^ 52)) as K. rewrite G in K.
  specialize (K L).
  pose proof (pow2_le 53 (ilog2 a) E). lra.
Qed.

(** *** Printing integers below 2^53 *)

Lemma rounds_to_small (c z : Z) :
  0 <= c -> 0 <= z < 2 ^ 53 -> rounds_to c z = (c =? z).
Proof.
  intros Hc Hz. unfold rounds_to.
  destruct (Z_lt_le_dec c (2 ^ 53)) as [S|B].
  - destruct (round64_small_int c (conj Hc S)) as (v & -> & E).
    destruct (Z.eqb_spec c z) as [->|N].
    + now apply Qeq_bool_iff.
    + destruct (Qeq_bool v (inject_Z z)) eqn:X; [|reflexivity].
      apply Qeq_bool_eq in X. rewrite E in X.
      exfalso. apply N. apply eq_sym, Z.le_antisymm;
        rewrite Zle_Qle, X; apply Qle_refl.
  - assert (H : (pow2 53 <= inject_Z c)%Q).
    { rewrite pow2_Z by lia. now rewrite <- Zle_Qle. }
    apply round64_big in H.
    assert (Zb : (inject_Z z < pow2 53)%Q).
    { rewrite pow2_Z by lia. rewrite <- Zlt_Qlt. lia. }
    destruct (Z.eqb_spec c z) as [->|N]; [lia|].
    destruct (round64 (inject_Z c)) as [|s|v]; try reflexivity.
    destruct (Qeq_bool v (inject_Z z)) eqn:X; [|reflexivity].
    apply Qeq_bool_eq in X. lra.
Qed.

Lemma shortest_from_small (z : Z) (j : nat) :
  0 <= z < 2 ^ 53 -> shortest_from j z = z.
Proof.
  intros Hz. induction j as [|j IH].
  - cbn [shortest_from]. change (10 ^ Z.of_nat 0) with 1.
    rewrite Z.div_1_r, Z.mul_1_r.
    rewrite !rounds_to_small by lia.
    rewrite Z.eqb_refl. destruct (Z.eqb_spec (z + 1) z); [lia | reflexivity].
  - cbn [shortest_from].
    set (step := 10 ^ Z.of_nat (S j)).
    assert (Hs : 0 < step) by (apply Z.pow_pos_nonneg; lia).
    pose proof (Z.div_mod z step ltac:(lia)) as DM.
    pose proof (Z.mod_pos_bound z step Hs) as MB.
    assert (D0 : 0 <= z / step) by (apply Z.div_pos; lia).
    rewrite !rounds_to_small by nia.
    destruct (Z.eqb_spec (z / step * step + step) z) as [E|_]; [nia|].
    destruct (Z.eqb_spec (z / step * step) z) as [E|_]; [exact E | exact IH].
Qed.

Lemma digits_aux_length_le (fuel : nat) : forall n acc (k : nat),
  (n < 10 ^ N.of_nat k)%N -> (1 <= k)%nat ->
  (List.length (digits_aux fuel n acc) <= List.length acc + k)%nat.
Proof.
  induction fuel as [|fuel IH]; intros n acc k Hn Hk; [simpl; lia|].
  cbn [digits_aux]. destruct (N.ltb_spec n 10) as [S|B].
  - cbn [List.length]. lia.
  - destruct k as [|[|k]]; [lia | change (10 ^ N.of_nat 1)%N with 10%N in Hn; lia |].
    specialize (IH (n / 10)%N ((48 + n mod 10)%N :: acc) (S k)).
    cbn [List.length] in IH.
    assert (X : (n / 10 < 10 ^ N.of_nat (S k))%N).
    { apply N.Div0.div_lt_upper_bound.
      rewrite <- N.pow_succ_r', <- Nat2N.inj_succ. exact Hn. }
    specialize (IH X ltac:(lia)). lia.
Qed.

Lemma toString_nonneg_small (z : Z) :
  0 <= z < 2 ^ 53 -> toString_nonneg z = digits (Z.to_N z).
Proof.
  intros Hz. unfold toString_nonneg, shortest.
  rewrite shortest_from_small by exact Hz.
  assert (L : (List.length (digits (Z.to_N z)) <= 16)%nat).
  { unfold digits.
    apply (digits_aux_length_le _ (Z.to_N z) [] 16); [|lia].
    change (10 ^ N.of_nat 16)%N with (Z.to_N (10 ^ 16)).
    apply Z2N.inj_lt; lia. }
  destruct (Nat.leb_spec (List.length (digits (Z.to_N z))) 21); [reflexivity | lia].
Qed.

(** *** Dividing a double by 60 *)

Lemma Qfloor_unique (x : Q) (z : Z) :
  (inject_Z z <= x)%Q -> (x < inject_Z (z + 1))%Q -> Qfloor x = z.
Proof.
  intros L U.
  pose proof (Qfloor_le x) as FL. pose proof (Qlt_floor x) as FU.
  assert (A : (inject_Z (Qfloor x) < inject_Z (z + 1))%Q)
    by (eapply Qle_lt_trans; eassumption).
  assert (B : (inject_Z z < inject_Z (Qfloor x + 1))%Q)
    by (eapply Qle_lt_trans; eassumption).
  rewrite <- Zlt_Qlt in A, B. lia.
Qed.

(** A positive double is a multiple of what its last bit is worth. *)
Lemma is_double_grid (q : Q) :
  (0 < q)%Q -> is_double q = true ->
  exists k, (q == inject_Z k * pow2 (ulp_exponent q))%Q.
Proof.
  intros P D. unfold is_double in D. rewrite round64_pos in D by exact P.
  destruct (Qle_bool (pow2 1024) (nearest q)); [discriminate|].
  apply Qeq_bool_eq in D. unfold nearest in D. cbv zeta in D.
  eexists. symmetry. exact D.
Qed.

(** Two multiples of [2^c] are at least [2^c] apart. *)
Lemma grid_gap (j k c : Z) :
  (inject_Z j * pow2 c < inject_Z k * pow2 c)%Q ->
  (inject_Z j * pow2 c + pow2 c <= inject_Z k * pow2 c)%Q.
Proof.
  intros H. pose proof (pow2_pos c) as P.
  assert (L : j < k).
  { rewrite Zlt_Qlt. apply Qmult_lt_r in H; assumption. }
  assert (L' : (inject_Z (j + 1) <= inject_Z k)%Q) by (rewrite <- Zle_Qle; lia).
  rewrite inject_Z_plus in L'. change (inject_Z 1) with 1%Q in L'.
  apply (Qmult_le_compat_r _ _ (pow2 c)) in L'; [|now apply Qlt_le_weak].
  lra.
Qed.

(** The quotient of a double below [2^53] by 60 is rounded to a number
    with the same whole part. *)
Lemma div60_floor (q : Q) :
  (0 < q)%Q -> (q < pow2 53)%Q -> is_double q = true ->
  exists v, round64 (q / 60) = Finite v /\ Qfloor v = Qfloor (q / 60).
Proof.
  intros P B D.
  set (r := (q / 60)%Q).
  assert (Er : (q == 60 * r)%Q) by (unfold r; field).
  assert (Pr : (0 < r)%Q) by lra.
  pose proof (pow2_pos 53) as P53.
  (* the exponents *)
  destruct (ilog2_spec q P) as [Lq Uq].
  pose proof (ilog2_lt q 53 P B) as Eq53.
  assert (Er53 : ilog2 r < 53) by (apply ilog2_lt; [exact Pr | lra]).
  assert (E5 : ilog2 r + 5 <= ilog2 q).
  { assert (X : ilog2 r < ilog2 q - 4); [|lia].
    apply ilog2_lt; [exact Pr|].
    assert (S : (pow2 (ilog2 q + 1) == 32 * pow2 (ilog2 q - 4))%Q).
    { replace (ilog2 q + 1) with (5 + (ilog2 q - 4)) by lia.
      rewrite pow2_add. change (pow2 5) with 32%Q. reflexivity. }
    pose proof (pow2_pos (ilog2 q - 4)). lra. }
  set (cq := ulp_exponent q). set (cr := ulp_exponent r).
  assert (Cq : cq <= 0) by (unfold cq, ulp_exponent; lia).
  assert (Cr : cr <= 0) by (unfold cr, ulp_exponent; lia).
  pose proof (pow2_pos cq) as Pcq. pose proof (pow2_pos cr) as Pcr.
  (* the whole part *)
  set (m := Qfloor r).
  pose proof (Qfloor_le r) as Lm. pose proof (Qlt_floor r) as Um. fold m in Lm, Um.
  assert (M0 : 0 <= m).
  { unfold m. change 0 with (Qfloor 0). apply Qfloor_resp_le. lra. }
  assert (Y1 : (1 <= inject_Z (m + 1))%Q).
  { change 1%Q with (inject_Z 1). rewrite <- Zle_Qle. lia. }
  (* the gap below 60 (m + 1) *)
  destruct (is_double_grid q P D) as [k Gq]. fold cq in Gq.
  assert (Gy : (inject_Z (60 * (m + 1)) == inject_Z (60 * (m + 1) * 2 ^ (- cq)) * pow2 cq)%Q)
    by (now apply int_on_grid).
  assert (Gap : (q + pow2 cq <= 60 * inject_Z (m + 1))%Q).
  { assert (X : (inject_Z k * pow2 cq < inject_Z (60 * (m + 1) * 2 ^ (- cq)) * pow2 cq)%Q).
    { rewrite <- Gq, <- Gy, inject_Z_mult. change (inject_Z 60) with 60%Q. lra. }
    apply grid_gap in X. rewrite <- Gq, <- Gy, inject_Z_mult in X.
    change (inject_Z 60) with 60%Q in X. exact X. }
  (* half a step of the quotient is less than that gap *)
  assert (Half : (r < inject_Z (m + 1) - (1 # 2) * pow2 cr)%Q).
  { destruct (Z_le_gt_dec (cr + 5) cq) as [Near|Far].
    - assert (S : (pow2 (cr + 5) == 32 * pow2 cr)%Q).
      { rewrite Z.add_comm, pow2_add. change (pow2 5) with 32%Q. reflexivity. }
      pose proof (pow2_le _ _ Near). lra.
    - assert (C1 : cr = -1074) by (unfold cr, cq, ulp_exponent in *; lia).
      assert (Q1 : ilog2 q + 1 <= 0) by (unfold cr, cq, ulp_exponent in *; lia).
      pose proof (pow2_le _ _ Q1) as X. change (pow2 0) with 1%Q in X.
      assert (S : (pow2 cr <= 1)%Q).
      { change 1%Q with (pow2 0). apply pow2_le. lia. }
      lra. }
  (* the rounded quotient *)
  assert (Gm : (inject_Z m == inject_Z (m * 2 ^ (- cr)) * pow2 cr)%Q)
    by (now apply int_on_grid).
  assert (Gm1 : (inject_Z (m + 1) == inject_Z ((m + 1) * 2 ^ (- cr)) * pow2 cr)%Q)
    by (now apply int_on_grid).
  assert (Lo : (inject_Z m <= nearest r)%Q).
  { rewrite Gm. apply nearest_ge. fold cr. now rewrite <- Gm. }
  assert (Hi : (nearest r < inject_Z (m + 1))%Q).
  { rewrite Gm1. apply nearest_lt. fold cr. now rewrite <- Gm1. }
  exists (nearest r). split.
  - rewrite round64_pos by exact Pr.
    rewrite Qle_bool_false; [reflexivity|].
    rewrite inject_Z_plus in Hi. change (inject_Z 1) with 1%Q in Hi.
    pose proof pow2_53_1024 as X.
    assert (O : (1 <= pow2 53)%Q) by (change 1%Q with (pow2 0); apply pow2_le; lia).
    assert (T : (pow2 54 == 2 * pow2 53)%Q) by (apply (pow2_succ 53)).
    assert (T' : (pow2 54 <= pow2 1024)%Q) by (apply pow2_le; lia).
    lra.
  - now apply Qfloor_unique.
Qed.

(** ** formatTimestamp: the label *)

Lemma padStart_two (s : jsstring) :
  (2 <= List.length (padStart 2 (lit "0") s))%nat.
Proof.
  destruct s as [|a [|b s]]; cbn; lia.
Qed.

Lemma padStart_long (s : jsstring) :
  (2 <= List.length s)%nat -> padStart 2 (lit "0") s = s.
Proof.
  intros H. unfold padStart.
  destruct (Nat.leb_spec 2 (List.length s)); [reflexivity | lia].
Qed.

Lemma padStart_digits (z : Z) :
  0 <= z < 2 ^ 53 -> padStart 2 (lit "0") (toString (IInt z)) = two_digits z.
Proof.
  intros Hz. unfold toString, two_digits.
  destruct (Z.ltb_spec z 0) as [|_]; [lia|].
  rewrite toString_nonneg_small by exact Hz.
  destruct (Z.ltb_spec z 10) as [Hlt|Hge].
  - rewrite digits_small by lia. reflexivity.
  - apply padStart_long. apply digits_two. lia.
Qed.

Lemma Qdiv60_nonneg (q : Q) : (0 < q)%Q -> (0 <= q / 60)%Q.
Proof.
  intros H. apply Qle_shift_div_l; [reflexivity|]. lra.
Qed.

Lemma whole_minutes_nonneg (q : Q) : (0 < q)%Q -> 0 <= whole_minutes q.
Proof.
  intros H. unfold whole_minutes.
  change 0 with (Qfloor 0). apply Qfloor_resp_le. now apply Qdiv60_nonneg.
Qed.

Lemma left_over_seconds_range (q : Q) :
  (0 < q)%Q -> 0 <= left_over_seconds q < 60.
Proof.
  intros H. unfold left_over_seconds.
  pose proof (Qfloor_le (q / 60)) as Hle.
  pose proof (Qlt_floor (q / 60)) as Hlt.
  rewrite inject_Z_plus in Hlt. change (inject_Z 1) with 1%Q in Hlt.
  assert (Hq : (q == 60 * (q / 60))%Q) by (field).
  set (m := inject_Z (Qfloor (q / 60))) in *.
  set (d := (q / 60)%Q) in *.
  assert (L : (0 <= q - 60 * m)%Q) by lra.
  assert (U : (q - 60 * m < 60)%Q) by lra.
  split.
  - change 0 with (Qfloor 0). now apply Qfloor_resp_le.
  - pose proof (Qfloor_le (q - 60 * m)) as F.
    assert (F' : (inject_Z (Qfloor (q - 60 * m)) < inject_Z 60)%Q)
      by (eapply Qle_lt_trans; [exact F | exact U]).
    now rewrite <- Zlt_Qlt in F'.
Qed.

Lemma whole_minutes_small (q : Q) :
  (0 < q)%Q -> (q < pow2 53)%Q -> 0 <= whole_minutes q < 2 ^ 53.
Proof.
  intros P B. split; [now apply whole_minutes_nonneg|].
  unfold whole_minutes. pose proof (Qfloor_le (q / 60)) as L.
  assert (D : (q / 60 < q)%Q).
  { assert (E : (q == 60 * (q / 60))%Q) by field.
    set (d := (q / 60)%Q) in *. lra. }
  rewrite pow2_Z in B by lia. rewrite Zlt_Qlt. lra.
Qed.

Lemma truthy_nonzero (q : Q) : ~ (q == 0)%Q -> truthy (Num (Finite q)) = true.
Proof.
  intros H. simpl. destruct (Qeq_bool q 0) eqn:E; [|reflexivity].
  apply Qeq_bool_eq in E. contradiction.
Qed.

(** The label of a positive double below [2^53]. *)
Lemma formatTimestamp_positive (q : Q) :
  is_double q = true -> (0 < q)%Q -> (q < pow2 53)%Q ->
  formatTimestamp (Num (Finite q))
  = two_digits (whole_minutes q) ++ lit ":" ++ two_digits (left_over_seconds q).
Proof.
  intros D P B. unfold formatTimestamp.
  rewrite truthy_nonzero by lra.
  cbn [negb to_number div_lit rem_lit Math_floor].
  destruct (div60_floor q P B D) as (v & Rv & Fv).
  change (inject_Z 60) with 60%Q. rewrite Rv. cbn [Math_floor]. rewrite Fv.
  assert (R : Qtrunc (q / 60) = Qfloor (q / 60)).
  { unfold Qtrunc.
    assert (T : Qle_bool 0 (q / 60) = true)
      by (apply Qle_bool_iff; now apply Qdiv60_nonneg).
    now rewrite T. }
  rewrite R.
  rewrite (padStart_digits (Qfloor (q / 60))) by (now apply whole_minutes_small).
  rewrite padStart_digits by (pose proof (left_over_seconds_range q P); unfold left_over_seconds in *; lia).
  reflexivity.
Qed.

(** C9.  [formatTimestamp] gives 00:00 on every falsy input (0, null,
    undefined and NaN among them); on a positive number of seconds below
    2^53 it gives the whole minutes and the whole seconds left over, each
    in decimal with a leading zero below ten, so from 6000 seconds on the
    minutes take more than two digits and 3661 gives 61:01; on every
    input the result is two fields of at least two characters around a
    colon. *)
Theorem formatTimestamp_spec (v : value) (q : Q) :
  (truthy v = false -> formatTimestamp v = lit "00:00")
  /\ formatTimestamp (Num (Finite 0)) = lit "00:00"
  /\ formatTimestamp null = lit "00:00"
  /\ formatTimestamp undefined = lit "00:00"
  /\ formatTimestamp (Num NaN) = lit "00:00"
  /\ (is_double q = true -> (0 < q)%Q -> (q < pow2 53)%Q ->
      formatTimestamp (Num (Finite q))
      = two_digits (whole_minutes q) ++ lit ":" ++ two_digits (left_over_seconds q)
      /\ 0 <= whole_minutes q
      /\ 0 <= left_over_seconds q < 60
      /\ ((6000 <= q)%Q -> (2 < List.length (two_digits (whole_minutes q)))%nat))
  /\ formatTimestamp (Num (Finite 3661)) = lit "61:01"
  /\ (exists m s, formatTimestamp v = m ++ lit ":" ++ s
                  /\ (2 <= List.length m)%nat /\ (2 <= List.length s)%nat).
Proof.
  split; [|split; [|split; [|split; [|split; [|split; [|split]]]]]].
  - intros H. unfold formatTimestamp. now rewrite H.
  - vm_compute. reflexivity.
  - vm_compute. reflexivity.
  - vm_compute. reflexivity.
  - vm_compute. reflexivity.
  - intros D P B.
    split; [now apply formatTimestamp_positive|].
    split; [now apply whole_minutes_nonneg|].
    split; [now apply left_over_seconds_range|].
    intros H.
    assert (M : 100 <= whole_minutes q).
    { unfold whole_minutes. change 100 with (Qfloor 100).
      apply Qfloor_resp_le. apply Qle_shift_div_l; [reflexivity|]. lra. }
    unfold two_digits.
    destruct (Z.ltb_spec (whole_minutes q) 10); [lia|].
    apply digits_three. lia.
  - vm_compute. reflexivity.
  - unfold formatTimestamp. destruct (negb (truthy v)).
    + exists (lit "00"), (lit "00"). repeat split; cbn; lia.
    + eexists _, _. split; [reflexivity|]. split; apply padStart_two.
Qed.

Lemma formatTimestamp_spec_witness :
  formatTimestamp null = lit "00:00"
  /\ formatTimestamp (Num (Finite 7325.5))
     = two_digits 122 ++ lit ":" ++ two_digits 5
  /\ (2 < List.length (two_digits (whole_minutes 7325.5)))%nat.
Proof.
  destruct (formatTimestamp_spec null 7325.5) as (F & _ & _ & _ & _ & P & _).
  split; [apply F; reflexivity|].
  destruct P as (E & _ & _ & L);
    [vm_compute; reflexivity | reflexivity | vm_compute; reflexivity |].
  split; [exact E | apply L; discriminate].
Defined.

(** C9 as stated does not hold of every positive number of seconds.  On
    270215977642230176 seconds, a double above 2^53, the quotient by 60
    is rounded up to the next integer:
    the label shows 4503599627370503 minutes, one more than the whole
    minutes, and so differs from the whole minutes and the seconds left
    over.  On 6e22 seconds the minutes are 1e21 and print in exponent
    notation, not as decimal digits. *)
Theorem formatTimestamp_rounds_minutes :
  is_double 270215977642230176 = true
  /\ whole_minutes 270215977642230176 = 4503599627370502
  /\ left_over_seconds 270215977642230176 = 56
  /\ formatTimestamp (Num (Finite 270215977642230176)) = lit "4503599627370503:56"
  /\ formatTimestamp (Num (Finite 270215977642230176))
     <> two_digits (whole_minutes 270215977642230176) ++ lit ":"
        ++ two_digits (left_over_seconds 270215977642230176)
  /\ is_double 60000000000000000000000 = true
  /\ formatTimestamp (Num (Finite 60000000000000000000000)) = lit "1e+21:00".
Proof.
  split; [vm_compute; reflexivity|].
  split; [vm_compute; reflexivity|].
  split; [vm_compute; reflexivity|].
  split; [vm_compute; reflexivity|].
  split; [vm_compute; discriminate|].
  split; vm_compute; reflexivity.
Qed.

(** ** Selecting a lecture *)

Lemma str_eqb_eq (a b : jsstring) : str_eqb a b = true <-> a = b.
Proof.
  revert b. induction a as [|x a IH]; intros [|y b]; simpl; split;
    try congruence; try reflexivity.
  - intros H. apply andb_true_iff in H as [H1 H2].
    apply N.eqb_eq in H1. apply IH in H2. congruence.
  - intros H. inversion H; subst. apply andb_true_iff. split.
    + apply N.eqb_refl.
    + now apply IH.
Qed.

Lemma querySelector_remove_active (lid : Z) (items : list LectureItem) :
  querySelector lid (List.map remove_active items) = querySelector lid items.
Proof.
  induction items as [|it items IH]; simpl; [reflexivity|].
  unfold dataset_lectureId in *. simpl. now rewrite IH.
Qed.

Lemma querySelector_In (it : LectureItem) (items : list LectureItem) :
  In it items -> exists n, querySelector (dataset_lectureId it) items = Some n.
Proof.
  induction items as [|x items IH]; simpl; [tauto|].
  intros [->|H].
  - rewrite Z.eqb_refl. now exists O.
  - destruct (dataset_lectureId x =? dataset_lectureId it); [now exists O|].
    destruct (IH H) as [n ->]. now exists (S n).
Qed.

(** Every lecture [displayLectures] is given has its item on the page. *)
Lemma displayLectures_items (lectures : list Lecture) (lecture : Lecture) (s : State) :
  In lecture lectures ->
  In {| item_lecture := lecture; active := false |}
     (lecture_items (exec (displayLectures lectures) s)).
Proof.
  intros H. unfold exec, displayLectures, modify. cbn [snd lecture_items set_lecture_items].
  now apply (in_map (fun l => {| item_lecture := l; active := false |})).
Qed.

(** What [selectLecture] leaves when the clicked item is on the page. *)
Lemma selectLecture_found (lecture : Lecture) (s : State) (n : nat) :
  querySelector (id lecture) (lecture_items s) = Some n ->
  selectLecture lecture s
  = let s1 := set_lecture_items
                (update_nth n add_active (List.map remove_active (lecture_items s)))
                (set_currentLecture (Some lecture) s) in
    if str_eqb (transcript_status lecture) (lit "completed")
    then (Return tt,
          set_fetched (fetched s ++ [GetHistory (id lecture)])
            (set_current_lecture_title (title lecture)
               (set_chatInterface_display (lit "flex")
                  (set_welcomeScreen_display (lit "none") s1))))
    else (Return tt, set_toasts (toasts s ++ [not_ready_toast]) s1).
Proof.
  intros Q. unfold selectLecture, bind, modify, get. cbn [lecture_items set_lecture_items set_currentLecture].
  rewrite querySelector_remove_active, Q.
  destruct (str_eqb (transcript_status lecture) (lit "completed")); reflexivity.
Qed.

(** C1.  Clicking the item of a lecture returns at once; it sends the
    history request exactly when the lecture's transcript_status is
    'completed', and then shows the chat interface with the lecture's
    title; for any other status it leaves the chat interface, the welcome
    screen, the title, the messages and the requests as they were and
    shows the 'not ready' warning.  On a page whose chat interface is
    closed, it is open afterwards exactly when the status is
    'completed'.  Whatever the status, the lecture is the current lecture
    afterwards. *)
Theorem selectLecture_gate (s : State) (it : LectureItem)
    (Hin : In it (lecture_items s)) :
  let lecture := item_lecture it in
  let s' := exec (selectLecture lecture) s in
  outcome (selectLecture lecture) s = Return tt
  /\ (fetched s' = fetched s ++ [GetHistory (id lecture)]
      <-> transcript_status lecture = lit "completed")
  /\ (transcript_status lecture = lit "completed" ->
      chatInterface_display s' = lit "flex"
      /\ welcomeScreen_display s' = lit "none"
      /\ current_lecture_title s' = title lecture
      /\ toasts s' = toasts s)
  /\ (transcript_status lecture <> lit "completed" ->
      chatInterface_display s' = chatInterface_display s
      /\ welcomeScreen_display s' = welcomeScreen_display s
      /\ current_lecture_title s' = current_lecture_title s
      /\ chat_messages s' = chat_messages s
      /\ fetched s' = fetched s
      /\ toasts s' = toasts s ++ [not_ready_toast])
  /\ (chatInterface_display s <> lit "flex" ->
      (chatInterface_display s' = lit "flex"
       <-> transcript_status lecture = lit "completed"))
  /\ currentLecture s' = Some lecture.
Proof.
  intros lecture s'.
  destruct (querySelector_In it _ Hin) as [n Q].
  change (dataset_lectureId it) with (id lecture) in Q.
  unfold s', exec, outcome. rewrite (selectLecture_found lecture s n Q).
  cbv zeta.
  destruct (str_eqb (transcript_status lecture) (lit "completed")) eqn:E.
  - apply str_eqb_eq in E.
    cbn [fst snd fetched toasts chat_messages chatInterface_display
         welcomeScreen_display current_lecture_title currentLecture set_fetched
         set_current_lecture_title set_chatInterface_display
         set_welcomeScreen_display set_lecture_items set_currentLecture].
    repeat split; auto; intros; try contradiction.
  - assert (NE : transcript_status lecture <> lit "completed").
    { intros H. apply str_eqb_eq in H. congruence. }
    cbn [fst snd fetched toasts chat_messages chatInterface_display
         welcomeScreen_display current_lecture_title currentLecture set_toasts
         set_lecture_items set_currentLecture].
    repeat split; auto; intros; try contradiction; try congruence.
    exfalso. apply (f_equal (@List.length _)) in H.
    rewrite length_app in H. simpl in H. lia.
Qed.

Lemma selectLecture_gate_witness :
  (chatInterface_display (exec (selectLecture pending_lecture) closed_page) = lit "none"
   /\ fetched (exec (selectLecture pending_lecture) closed_page) = []
   /\ toasts (exec (selectLecture pending_lecture) closed_page) = [not_ready_toast])
  /\ (chatInterface_display (exec (selectLecture completed_lecture) closed_page) = lit "flex"
      /\ fetched (exec (selectLecture completed_lecture) closed_page) = [GetHistory 3])
  /\ (chatInterface_display (exec (selectLecture pending_lecture) closed_page) = lit "flex"
      <-> transcript_status pending_lecture = lit "completed").
Proof.
  assert (Hp : In {| item_lecture := pending_lecture; active := false |}
                  (lecture_items closed_page)) by (simpl; auto).
  assert (Hc : In {| item_lecture := completed_lecture; active := false |}
                  (lecture_items closed_page)) by (simpl; auto).
  destruct (selectLecture_gate closed_page _ Hp) as (_ & _ & _ & N & O & _).
  destruct (selectLecture_gate closed_page _ Hc) as (_ & F & C & _ & _).
  split; [|split].
  - destruct N as (A & _ & _ & _ & B & T); [discriminate|].
    repeat split; assumption.
  - destruct C as (A & _); [reflexivity|].
    split; [exact A | apply F; reflexivity].
  - apply O. discriminate.
Defined.

(** C1 as stated does not hold: selecting a lecture that is not ready
    does not close the chat.  On the closed page the completed lecture
    is selected and then the pending one: the chat interface is still
    displayed, under the title of the completed lecture, although the
    current lecture is the pending one; the question then submitted is
    not rejected but sent for the pending lecture. *)
Theorem selectLecture_leaves_interface_open :
  let s := exec (selectLecture pending_lecture)
             (exec (selectLecture completed_lecture) closed_page) in
  let asked := set_chat_input_field (lit "what is a loop?") s in
  transcript_status pending_lecture <> lit "completed"
  /\ currentLecture s = Some pending_lecture
  /\ chatInterface_display s = lit "flex"
  /\ current_lecture_title s = title completed_lecture
  /\ toasts s = [not_ready_toast]
  /\ outcome handleChatMessage asked = Return (Some 0%nat)
  /\ fetched (exec handleChatMessage asked)
     = [GetHistory 3; PostAsk (lit "what is a loop?") 7].
Proof.
  vm_compute. split; [discriminate|]. repeat split; reflexivity.
Qed.

(** ** The current lecture and the two request handlers *)

Lemma selectLecture_currentLecture (lecture : Lecture) (s : State) :
  currentLecture (exec (selectLecture lecture) s) = Some lecture.
Proof.
  unfold exec, selectLecture, bind, modify, get.
  cbn [lecture_items set_lecture_items set_currentLecture].
  destruct (querySelector _ _); [|reflexivity].
  destruct (str_eqb _ _); reflexivity.
Qed.

Lemma selectLecture_keeps (lecture : Lecture) (s : State) :
  chat_input_field (exec (selectLecture lecture) s) = chat_input_field s.
Proof.
  unfold exec, selectLecture, bind, modify, get.
  cbn [lecture_items set_lecture_items set_currentLecture].
  destruct (querySelector _ _); [|reflexivity].
  destruct (str_eqb _ _); reflexivity.
Qed.

Lemma handleSummarize_selected (lecture : Lecture) (s : State) :
  currentLecture s = Some lecture ->
  handleSummarize s
  = (Return true,
     set_fetched (fetched s ++ [PostSummarize (id lecture)])
       (set_loadingOverlay_display (lit "flex") s)).
Proof.
  intros H. unfold handleSummarize, bind, get. rewrite H. reflexivity.
Qed.

Lemma handleChatMessage_selected (lecture : Lecture) (s : State) :
  currentLecture s = Some lecture ->
  trim (chat_input_field s) <> [] ->
  handleChatMessage s
  = (Return (Some (fresh s)),
     set_fetched (fetched s ++ [PostAsk (trim (chat_input_field s)) (id lecture)])
       (set_chat_messages
          (chat_messages s ++ [Message user (trim (chat_input_field s)) [];
                               TypingIndicator (fresh s)])
          (set_fresh (S (fresh s)) (set_chat_input_field [] s)))).
Proof.
  intros H T. unfold handleChatMessage, bind, get. rewrite H.
  destruct (trim (chat_input_field s)) as [|c m] eqn:E; [congruence|].
  cbn. rewrite <- app_assoc. reflexivity.
Qed.

(** C10.  [selectLecture] stores the lecture in [currentLecture]
    whatever its transcript_status (and even when it throws); after it,
    [handleSummarize] passes its guard and sends the summarize request
    for that lecture, and [handleChatMessage], given a message that is
    not blank, passes its guard and sends the ask request for that
    lecture; neither shows the 'Please select a lecture first' toast. *)
Theorem selectLecture_unconditional (lecture : Lecture) (s : State) :
  let s1 := exec (selectLecture lecture) s in
  currentLecture s1 = Some lecture
  /\ outcome handleSummarize s1 = Return true
  /\ fetched (exec handleSummarize s1) = fetched s1 ++ [PostSummarize (id lecture)]
  /\ toasts (exec handleSummarize s1) = toasts s1
  /\ (trim (chat_input_field s) <> [] ->
      outcome handleChatMessage s1 = Return (Some (fresh s1))
      /\ fetched (exec handleChatMessage s1)
         = fetched s1 ++ [PostAsk (trim (chat_input_field s)) (id lecture)]
      /\ toasts (exec handleChatMessage s1) = toasts s1).
Proof.
  intros s1.
  pose proof (selectLecture_currentLecture lecture s) as C. fold s1 in C.
  pose proof (selectLecture_keeps lecture s) as K. fold s1 in K.
  unfold exec at 1 2, outcome.
  rewrite (handleSummarize_selected lecture s1 C).
  repeat split; try assumption; try reflexivity;
    unfold exec; rewrite <- K in *;
    rewrite (handleChatMessage_selected lecture s1 C) by assumption; reflexivity.
Qed.

Lemma selectLecture_unconditional_witness :
  transcript_status pending_lecture <> lit "completed"
  /\ currentLecture (exec (selectLecture pending_lecture) typed_page)
     = Some pending_lecture
  /\ fetched (exec handleChatMessage (exec (selectLecture pending_lecture) typed_page))
     = [PostAsk (lit "what is a loop?") 7]
  /\ fetched (exec handleSummarize (exec (selectLecture pending_lecture) typed_page))
     = [PostSummarize 7].
Proof.
  destruct (selectLecture_unconditional pending_lecture typed_page)
    as (C & _ & S & _ & A).
  destruct A as (_ & A & _); [discriminate|].
  split; [discriminate|].
  split; [exact C|].
  split; [exact A | exact S].
Defined.

(** ** A blank message *)

(** C8.  When the trimmed input is empty, [handleChatMessage] returns
    without throwing and without a pending request: it sends nothing,
    adds no node to the chat, logs nothing and shows no error toast (the
    only toast it can show is the warning that no lecture is selected);
    with a lecture selected it changes nothing at all. *)
Theorem handleChatMessage_blank (s : State)
    (H : trim (chat_input_field s) = []) :
  outcome handleChatMessage s = Return None
  /\ fetched (exec handleChatMessage s) = fetched s
  /\ chat_messages (exec handleChatMessage s) = chat_messages s
  /\ chat_input_field (exec handleChatMessage s) = chat_input_field s
  /\ console (exec handleChatMessage s) = console s
  /\ (forall t, In t (toasts (exec handleChatMessage s)) ->
                toast_type t = error -> In t (toasts s))
  /\ (currentLecture s <> None -> exec handleChatMessage s = s).
Proof.
  unfold outcome, exec, handleChatMessage, bind, get.
  destruct (currentLecture s) as [lecture|] eqn:C.
  - rewrite H. cbn. repeat split; auto.
  - cbn. repeat split; auto; [|congruence].
    intros t I E. apply in_app_or in I as [I|[<-|[]]]; [exact I|discriminate].
Qed.

Lemma handleChatMessage_blank_witness :
  outcome handleChatMessage blank_page = Return None
  /\ fetched (exec handleChatMessage blank_page) = []
  /\ chat_messages (exec handleChatMessage blank_page)
     = [Message user (lit "hello") []].
Proof.
  destruct (handleChatMessage_blank blank_page) as (A & B & C & _);
    [reflexivity|].
  repeat split; assumption.
Defined.

(** ** A failed answer *)

Lemma without_bot (indicator : nat) (nodes : list ChatNode) :
  filter is_bot_message (without indicator nodes) = filter is_bot_message nodes.
Proof.
  unfold without. induction nodes as [|n nodes IH]; simpl; [reflexivity|].
  destruct n as [[|] text sources|k]; simpl; rewrite ?IH; try reflexivity.
  destruct (Nat.eqb k indicator); simpl; now rewrite ?IH.
Qed.

Lemma without_idem (indicator : nat) (nodes : list ChatNode) :
  without indicator (without indicator nodes) = without indicator nodes.
Proof.
  unfold without. induction nodes as [|n l IH]; simpl; [reflexivity|].
  destruct (negb (is_node indicator n)) eqn:E; simpl; rewrite ?E, IH; reflexivity.
Qed.

Lemma handleChatMessage_settled_failed (s : State) (indicator : nat)
    (resp : Response AskData ErrorBody) :
  request_failed resp ->
  chat_messages (exec (handleChatMessage_settled indicator resp) s)
  = without indicator (chat_messages s)
  /\ fetched (exec (handleChatMessage_settled indicator resp) s) = fetched s
  /\ exists m, toasts (exec (handleChatMessage_settled indicator resp) s)
               = toasts s ++ [{| toast_message := m; toast_type := error |}].
Proof.
  intros F. destruct resp as [|[data|]|[err|]]; try contradiction;
    cbn; repeat split; eauto.
Qed.

Lemma handleChatMessage_settled_ok (s : State) (indicator : nat) (data : AskData) :
  chat_messages (exec (handleChatMessage_settled indicator (Ok (Some data))) s)
  = match ask_timestamp_references data with
    | RNull => without indicator (chat_messages s)
    | r => without indicator (chat_messages s)
           ++ [Message bot (response data) (sources_of r)]
    end.
Proof.
  destruct data as [text [| |refs]]; cbn; try reflexivity.
  apply without_idem.
Qed.

(** C2, as the code has it.  When the answer request fails (the promise
    rejects, the response is an error, or its body cannot be read),
    the part of [handleChatMessage] that runs afterwards removes the
    typing indicator, adds no node to the chat, sends nothing and shows an
    error toast; the messages of the bot change only when the response is
    a success, and then one bot message with the answer and its cited
    spans is appended.  Over a whole run that fails, the chat gains the
    user's own message, which was added before the request was sent, and
    nothing else. *)
Theorem handleChatMessage_failure (s : State) (indicator : nat)
    (resp : Response AskData ErrorBody) :
  (request_failed resp ->
   chat_messages (exec (handleChatMessage_settled indicator resp) s)
   = without indicator (chat_messages s)
   /\ fetched (exec (handleChatMessage_settled indicator resp) s) = fetched s
   /\ exists m, toasts (exec (handleChatMessage_settled indicator resp) s)
                = toasts s ++ [{| toast_message := m; toast_type := error |}])
  /\ (filter is_bot_message (chat_messages (exec (handleChatMessage_settled indicator resp) s))
      <> filter is_bot_message (chat_messages s) ->
      exists data, resp = Ok (Some data)
        /\ chat_messages (exec (handleChatMessage_settled indicator resp) s)
           = without indicator (chat_messages s)
             ++ [Message bot (response data) (sources_of (ask_timestamp_references data))])
  /\ (request_failed resp ->
      currentLecture s <> None ->
      trim (chat_input_field s) <> [] ->
      chat_messages (exec (handleChatMessage_run resp) s)
      = without (fresh s) (chat_messages s)
        ++ [Message user (trim (chat_input_field s)) []]).
Proof.
  split; [apply handleChatMessage_settled_failed|]. split.
  - intros D.
    assert (F : request_failed resp -> False).
    { intros F. apply D.
      destruct (handleChatMessage_settled_failed s indicator resp F) as (-> & _).
      apply without_bot. }
    destruct resp as [|[data|]|body]; try (exfalso; apply F; exact I).
    exists data. split; [reflexivity|].
    rewrite handleChatMessage_settled_ok in *.
    destruct (ask_timestamp_references data); try reflexivity.
    exfalso. apply D. apply without_bot.
  - intros F C T.
    destruct (currentLecture s) as [lecture|] eqn:E; [clear C|congruence].
    unfold exec, handleChatMessage_run, bind.
    rewrite (handleChatMessage_selected lecture s E T).
    match goal with
    | |- chat_messages (snd (handleChatMessage_settled ?i resp ?s1)) = _ =>
        destruct (handleChatMessage_settled_failed s1 i resp F) as (R & _)
    end.
    unfold exec in R. rewrite R. cbn [chat_messages set_fetched set_chat_messages].
    unfold without. rewrite filter_app. cbn. rewrite Nat.eqb_refl. reflexivity.
Qed.

Lemma handleChatMessage_failure_witness :
  chat_messages (exec (handleChatMessage_settled 0 (NotOk None)) waiting_page)
  = [Message user (lit "hello") []]
  /\ (exists data,
        @Ok AskData ErrorBody (Some loop_answer) = Ok (Some data)
        /\ chat_messages (exec (handleChatMessage_settled 0 (Ok (Some loop_answer))) waiting_page)
           = [Message user (lit "hello") [];
              Message bot (response data) (sources_of (ask_timestamp_references data))])
  /\ chat_messages (exec (handleChatMessage_run Rejected) asking_page)
     = [Message user (lit "hello") []; Message bot (lit "hi") [];
        Message user (lit "what is a loop?") []].
Proof.
  destruct (handleChatMessage_failure waiting_page 0 (NotOk None)) as (F & _ & _).
  destruct (handleChatMessage_failure waiting_page 0 (Ok (Some loop_answer)))
    as (_ & S & _).
  destruct (handleChatMessage_failure asking_page 0 Rejected) as (_ & _ & R).
  split; [|split].
  - destruct F as (E & _); [exact I | exact E].
  - apply S. discriminate.
  - apply R; [exact I | discriminate | discriminate].
Defined.

(** C2 as stated does not hold of the chat on the page: a run whose
    request fails leaves the user's message in it. *)
Lemma failed_ask_keeps_user_message :
  ~ (forall (s : State) (resp : Response AskData ErrorBody),
       request_failed resp ->
       chat_messages (exec (handleChatMessage_run resp) s) = chat_messages s).
Proof.
  intros H. specialize (H asking_page Rejected I). discriminate H.
Qed.

(** ** The order of the history *)

Lemma forEach_render_turn (l : list ChatTurn) :
  Forall (fun t => timestamp_references t <> RNull) l ->
  forall s, forEach l render_turn s
            = (Return tt, set_chat_messages (chat_messages s ++ flat_map shown l) s).
Proof.
  induction 1 as [|t l Ht Hl IH]; intros s.
  - destruct s. cbn. now rewrite app_nil_r.
  - cbn [forEach]. unfold bind at 1.
    assert (R : render_turn t s
                = (Return tt, set_chat_messages (chat_messages s ++ shown t) s)).
    { destruct t as [um br [| |refs]]; cbn in Ht; try congruence;
        cbn; unfold modify; cbn; rewrite <- app_assoc; reflexivity. }
    rewrite R, IH. cbn. now rewrite <- app_assoc.
Qed.

Lemma nth_error_shown (l : list ChatTurn) : forall i t,
  nth_error l i = Some t ->
  nth_error (flat_map shown l) (2 * i)
  = Some (Message user (user_message t) [])
  /\ nth_error (flat_map shown l) (2 * i + 1)
     = Some (Message bot (bot_response t) (sources_of (timestamp_references t))).
Proof.
  induction l as [|x l IH]; intros [|i] t H; simpl in H; try discriminate.
  - inversion H; subst. split; reflexivity.
  - replace (2 * S i)%nat with (S (S (2 * i))) by lia.
    cbn [flat_map shown app Nat.add nth_error]. now apply IH.
Qed.

(** C3, as the code has it.  [loadChatHistory] shows the turns of the
    list it receives in reverse: for a history of n turns without a null
    timestamp_references, the chat consists of the pairs of the reversed
    list, and the i-th pair shown (user message, then bot response) is
    turn n-1-i of the list received. *)
Theorem loadChatHistory_reversed (s : State) (history : list ChatTurn)
    (H : Forall (fun t => timestamp_references t <> RNull) history) :
  chat_messages (exec (loadChatHistory_settled (Ok (Some history))) s)
  = flat_map shown (rev history)
  /\ forall i t,
       (i < List.length history)%nat ->
       nth_error history (List.length history - S i) = Some t ->
       nth_error (chat_messages (exec (loadChatHistory_settled (Ok (Some history))) s))
                 (2 * i)
       = Some (Message user (user_message t) [])
       /\ nth_error (chat_messages (exec (loadChatHistory_settled (Ok (Some history))) s))
                    (2 * i + 1)
          = Some (Message bot (bot_response t) (sources_of (timestamp_references t))).
Proof.
  assert (E : chat_messages (exec (loadChatHistory_settled (Ok (Some history))) s)
              = flat_map shown (rev history)).
  { unfold exec, loadChatHistory_settled, try_catch, bind. cbn [json ret modify].
    rewrite forEach_render_turn by (apply Forall_rev; exact H). reflexivity. }
  split; [exact E|].
  intros i t L N. rewrite E. apply nth_error_shown.
  rewrite nth_error_rev.
  destruct (Nat.ltb_spec i (List.length history)); [exact N | lia].
Qed.

Lemma two_turns_not_null :
  Forall (fun t => timestamp_references t <> RNull) [turn1; turn2].
Proof. repeat constructor; discriminate. Qed.

Lemma loadChatHistory_reversed_witness :
  chat_messages (exec (loadChatHistory_settled (Ok (Some [turn1; turn2]))) closed_page)
  = [Message user (lit "second question") [];
     Message bot (lit "second answer") [lit "00:10 - 00:25"];
     Message user (lit "first question") [];
     Message bot (lit "first answer") []]
  /\ nth_error
       (chat_messages (exec (loadChatHistory_settled (Ok (Some [turn1; turn2]))) closed_page))
       (2 * 0)
     = Some (Message user (lit "second question") []).
Proof.
  destruct (loadChatHistory_reversed closed_page [turn1; turn2] two_turns_not_null)
    as (E & N).
  split; [exact E|].
  destruct (N 0%nat turn2) as (A & _); [simpl; lia | reflexivity | exact A].
Defined.

(** C3 as stated does not hold: given a list that is oldest first, the
    first pair shown is not the oldest turn. *)
Lemma loadChatHistory_not_in_order :
  ~ (forall (s : State) (history : list ChatTurn) (i : nat) (t : ChatTurn),
       Forall (fun t => timestamp_references t <> RNull) history ->
       nth_error history i = Some t ->
       nth_error (chat_messages (exec (loadChatHistory_settled (Ok (Some history))) s))
                 (2 * i)
       = Some (Message user (user_message t) [])).
Proof.
  intros H.
  specialize (H closed_page [turn1; turn2] 0%nat turn1 two_turns_not_null eq_refl).
  discriminate H.
Qed.

(** ** The core *)

Module CoreFacts.
Import Core Rules Samples.

Local Open Scope Q_scope.

(** *** Search *)

Lemma In_insert_hit (h x : Hit) (l : list Hit) :
  In x (insert_hit h l) <-> x = h \/ In x l.
Proof.
  induction l as [|y l IH]; simpl.
  - intuition congruence.
  - destruct (ranks_before h y); simpl; rewrite ?IH; intuition congruence.
Qed.

Lemma In_rank (x : Hit) (l : list Hit) : In x (rank l) <-> In x l.
Proof.
  induction l as [|y l IH]; simpl; [tauto|].
  rewrite In_insert_hit, IH. intuition congruence.
Qed.

Lemma In_firstn {A} (k : nat) (x : A) : forall l, In x (firstn k l) -> In x l.
Proof.
  induction k as [|k IH]; intros [|y l]; simpl; try tauto.
  intros [->|H]; [now left | right; now apply IH].
Qed.

Lemma In_search (h : Hit) (lid : Z) (qv : Vector) (k : nat) (idx : Index) :
  In h (search lid qv k idx) ->
  exists e, In e idx /\ in_lecture lid e = true /\ fst h = chunk_of e.
Proof.
  unfold search. intros H. apply In_firstn in H. rewrite In_rank in H.
  apply in_map_iff in H as (e & <- & H). apply filter_In in H as [H1 H2].
  now exists e.
Qed.

Lemma Qltb_lt (x y : Q) : Qltb x y = true <-> x < y.
Proof.
  unfold Qltb. rewrite negb_true_iff. split.
  - intros H. apply Qnot_le_lt. intros L. apply Qle_bool_iff in L. congruence.
  - intros H. destruct (Qle_bool y x) eqn:E; [|reflexivity].
    apply Qle_bool_iff in E. apply Qlt_not_le in H. contradiction.
Qed.

Lemma Qltb_ge (x y : Q) : Qltb x y = false <-> y <= x.
Proof.
  unfold Qltb. rewrite negb_false_iff. apply Qle_bool_iff.
Qed.

Lemma ranks_before_score (a b : Hit) : ranks_before a b = true -> score_order a b.
Proof.
  unfold ranks_before, score_order. intros H.
  apply orb_true_iff in H as [H|H].
  - apply Qltb_lt in H. now apply Qlt_le_weak.
  - apply andb_true_iff in H as [H _]. apply Qeq_bool_eq in H.
    rewrite H. apply Qle_refl.
Qed.

Lemma not_ranks_before_score (a b : Hit) : ranks_before a b = false -> score_order b a.
Proof.
  unfold ranks_before, score_order. intros H.
  apply orb_false_iff in H as [H _]. now apply Qltb_ge in H.
Qed.

Lemma insert_hit_sorted (h : Hit) (l : list Hit) :
  StronglySorted score_order l -> StronglySorted score_order (insert_hit h l).
Proof.
  induction 1 as [|x l S IH F]; simpl.
  - repeat constructor.
  - destruct (ranks_before h x) eqn:E.
    + constructor; [now constructor|].
      apply ranks_before_score in E. constructor; [exact E|].
      eapply Forall_impl; [|exact F].
      intros y Hy. unfold score_order in *. eapply Qle_trans; eassumption.
    + constructor; [exact IH|].
      apply Forall_forall. intros y Hy. rewrite In_insert_hit in Hy. destruct Hy as [->|Hy].
      * now apply not_ranks_before_score.
      * rewrite Forall_forall in F. now apply F.
Qed.

Lemma rank_sorted (l : list Hit) : StronglySorted score_order (rank l).
Proof.
  induction l as [|h l IH]; simpl; [constructor|]. now apply insert_hit_sorted.
Qed.

Lemma firstn_sorted (k : nat) : forall l,
  StronglySorted score_order l -> StronglySorted score_order (firstn k l).
Proof.
  induction k as [|k IH]; intros l S; [constructor|].
  destruct S as [|x l S F]; simpl; [constructor|].
  constructor; [now apply IH|].
  apply Forall_forall. intros y Hy. apply In_firstn in Hy.
  rewrite Forall_forall in F. now apply F.
Qed.

Lemma search_sorted (lid : Z) (qv : Vector) (k : nat) (idx : Index) :
  StronglySorted score_order (search lid qv k idx).
Proof. unfold search. apply firstn_sorted, rank_sorted. Qed.

Lemma sorted_split (pre : list Hit) : forall h post,
  StronglySorted score_order (pre ++ h :: post) ->
  forall h', In h' pre -> snd h <= snd h'.
Proof.
  induction pre as [|x pre IH]; intros h post S h' Hin; [destruct Hin|].
  simpl in S. inversion S as [|? ? S' F]; subst.
  destruct Hin as [->|Hin].
  - rewrite Forall_forall in F. apply (F h). apply in_or_app. right. now left.
  - eapply IH; eassumption.
Qed.

(** C5.  Every chunk [search] returns for lecture A is a chunk the index
    holds for A, so its lecture is A and it belongs to no other lecture
    B, whatever the query vector and k. *)
Theorem search_isolation (idx : Index) (A B : Z) (query_vector : Vector)
    (k : nat) (h : Hit)
    (HAB : A <> B) (Hin : In h (search A query_vector k idx)) :
  lecture_id (fst h) = A
  /\ lecture_id (fst h) <> B
  /\ In (fst h) (chunks_in A idx).
Proof.
  apply In_search in Hin as (e & I & L & ->).
  assert (E : lecture_id (chunk_of e) = A) by (now apply Z.eqb_eq).
  repeat split; [exact E | congruence |].
  unfold chunks_in. apply in_map. apply filter_In. now split.
Qed.

Lemma search_isolation_witness :
  lecture_id chunk_a0 = 1%Z
  /\ lecture_id chunk_a0 <> 2%Z
  /\ In chunk_a0 (chunks_in 1 two_lectures).
Proof.
  apply (search_isolation two_lectures 1 2 [1; 0] 2 (chunk_a0, 1));
    [discriminate | vm_compute; auto].
Defined.

(** *** Retrieval *)

Ltac q_case x y :=
  let E := fresh "E" in
  destruct (Qle_bool x y) eqn:E;
  [apply Qle_bool_iff in E
  |apply Qltb_lt in E || (assert (y < x) by (apply Qltb_lt; unfold Qltb; now rewrite E); clear E)].

Lemma Qmin'_sym (x y : Q) : Qmin' x y == Qmin' y x.
Proof.
  unfold Qmin'. q_case x y; q_case y x; lra.
Qed.

Lemma Qmax'_sym (x y : Q) : Qmax' x y == Qmax' y x.
Proof.
  unfold Qmax'. q_case x y; q_case y x; lra.
Qed.

Lemma Qmax'_proper (a x y : Q) : x == y -> Qmax' a x == Qmax' a y.
Proof.
  intros H. unfold Qmax'. q_case a x; q_case a y; lra.
Qed.

Lemma Qltb_proper (x x' y y' : Q) : x == x' -> y == y' -> Qltb x y = Qltb x' y'.
Proof.
  intros Hx Hy. destruct (Qltb x' y') eqn:E.
  - apply Qltb_lt. apply Qltb_lt in E. lra.
  - apply Qltb_ge. apply Qltb_ge in E. lra.
Qed.

Lemma overlaps_too_much_sym (a b : Chunk) :
  overlaps_too_much a b = overlaps_too_much b a.
Proof.
  unfold overlaps_too_much, shorter, overlap.
  apply Qltb_proper; [apply Qmin'_sym|].
  apply Qmult_comp; [reflexivity|].
  apply Qmax'_proper.
  rewrite (Qmin'_sym (end_time a)), (Qmax'_sym (start_time a)). reflexivity.
Qed.

Lemma dedup_before (hits : list Hit) : forall before h,
  In h (dedup before hits) -> forall h', In h' before -> apart h' h.
Proof.
  induction hits as [|x hits IH]; intros before h Hin h' Hb; [destruct Hin|].
  simpl in Hin.
  destruct (existsb (fun h0 => overlaps_too_much (fst h0) (fst x)) before) eqn:E.
  - apply (IH _ _ Hin). apply in_or_app. now left.
  - destruct Hin as [->|Hin].
    + unfold apart. destruct (overlaps_too_much (fst h') (fst h)) eqn:O; [|reflexivity].
      assert (X : existsb (fun h'0 => overlaps_too_much (fst h'0) (fst h)) before = true)
        by (apply existsb_exists; now exists h').
      congruence.
    + apply (IH _ _ Hin). apply in_or_app. now left.
Qed.

Lemma dedup_pairs (hits : list Hit) : forall before,
  ForallOrdPairs apart (dedup before hits).
Proof.
  induction hits as [|x hits IH]; intros before; simpl; [constructor|].
  destruct (existsb (fun h0 => overlaps_too_much (fst h0) (fst x)) before); [apply IH|].
  constructor; [|apply IH].
  apply Forall_forall. intros y Hy.
  apply (dedup_before _ _ _ Hy). apply in_or_app. right. now left.
Qed.

Lemma dedup_app (l1 : list Hit) : forall before l2,
  dedup before (l1 ++ l2) = dedup before l1 ++ dedup (before ++ l1) l2.
Proof.
  induction l1 as [|x l1 IH]; intros before l2; simpl.
  - now rewrite app_nil_r.
  - rewrite IH, <- app_assoc. simpl.
    destruct (existsb (fun h0 => overlaps_too_much (fst h0) (fst x)) before); reflexivity.
Qed.

Lemma ordered_pairs_nth {A} (R : A -> A -> Prop) (l : list A) :
  ForallOrdPairs R l ->
  forall i j a b, (i < j)%nat ->
    nth_error l i = Some a -> nth_error l j = Some b -> R a b.
Proof.
  induction 1 as [|x l F P IH]; intros i j a b L Hi Hj.
  - destruct i; discriminate.
  - destruct j as [|j]; [lia|]. simpl in Hj.
    destruct i as [|i]; simpl in Hi.
    + inversion Hi; subst. rewrite Forall_forall in F.
      apply F. eapply nth_error_In; eassumption.
    + apply (IH i j); [lia | assumption | assumption].
Qed.

Lemma nth_error_spans (hits : list Hit) (i : nat) (a : Span) :
  nth_error (List.map span_of hits) i = Some a ->
  exists h, nth_error hits i = Some h /\ a = span_of h.
Proof.
  rewrite nth_error_map. destruct (nth_error hits i) as [h|]; simpl; [|discriminate].
  intros E. inversion E. now exists h.
Qed.

(** C6.  The spans [retrieve] returns are the hits of the search, best
    first, without every hit that a higher-ranked hit overlaps by more
    than half the shorter of the two time ranges: no two returned spans
    overlap by more than that, and a hit of the search is kept exactly
    when none of the hits before it, whose similarity is at least as
    high, overlaps it so. *)
Theorem retrieve_no_overlap (embed : Embedder) (st : TranscriptStatus)
    (idx : Index) (lid : Z) (query_text : string) (k : nat) (spans : list Span)
    (H : retrieve embed st idx lid query_text k = Done spans) :
  (forall i j a b, i <> j ->
     nth_error spans i = Some a -> nth_error spans j = Some b ->
     spans_overlap_too_much a b = false)
  /\ exists query_vector,
       embed query_text = Some query_vector
       /\ spans = List.map span_of (dedup [] (search lid query_vector k idx))
       /\ forall pre h post,
            search lid query_vector k idx = pre ++ h :: post ->
            (forall h', In h' pre -> snd h <= snd h')
            /\ dedup [] (search lid query_vector k idx)
               = dedup [] pre
                 ++ (if existsb (fun h' => overlaps_too_much (fst h') (fst h)) pre
                     then [] else [h])
                 ++ dedup (pre ++ [h]) post.
Proof.
  unfold retrieve in H. destruct st; try discriminate.
  destruct (embed query_text) as [qv|]; [|discriminate].
  inversion H as [E]. clear H. split.
  - intros i j a b NE Hi Hj.
    apply nth_error_spans in Hi as (ha & Hi & ->).
    apply nth_error_spans in Hj as (hb & Hj & ->).
    change (overlaps_too_much (fst ha) (fst hb) = false).
    pose proof (dedup_pairs (search lid qv k idx) []) as P.
    destruct (Nat.lt_ge_cases i j) as [L|L].
    + exact (ordered_pairs_nth apart _ P i j ha hb L Hi Hj).
    + rewrite overlaps_too_much_sym.
      apply (ordered_pairs_nth apart _ P j i hb ha); [lia | assumption | assumption].
  - exists qv. split; [reflexivity|]. split; [reflexivity|].
    intros pre h post S. split.
    + apply (sorted_split pre h post). rewrite <- S. apply search_sorted.
    + rewrite S, dedup_app. simpl.
      destruct (existsb (fun h0 => overlaps_too_much (fst h0) (fst h)) pre); reflexivity.
Qed.

Lemma retrieve_no_overlap_witness :
  retrieve flat_embed completed two_lectures 1 "what is a for-loop?" 3
  = Done [span_of (chunk_a0, 1); span_of (chunk_a2, 0)]
  /\ spans_overlap_too_much (span_of (chunk_a0, 1)) (span_of (chunk_a2, 0)) = false
  /\ exists query_vector,
       flat_embed "what is a for-loop?"%string = Some query_vector
       /\ dedup [] (search 1 query_vector 3 two_lectures)
          = dedup [] [(chunk_a0, 1)] ++ [] ++ dedup [(chunk_a0, 1); (chunk_a1, 9 # 10)]
                                                   [(chunk_a2, 0)].
Proof.
  assert (R : retrieve flat_embed completed two_lectures 1 "what is a for-loop?" 3
              = Done [span_of (chunk_a0, 1); span_of (chunk_a2, 0)])
    by (vm_compute; reflexivity).
  split; [exact R|].
  destruct (retrieve_no_overlap _ _ _ _ _ _ _ R) as (P & qv & E & _ & D).
  split; [apply (P 0%nat 1%nat); [discriminate | reflexivity | reflexivity]|].
  exists qv. split; [exact E|].
  injection E as <-.
  destruct (D [(chunk_a0, 1)] (chunk_a1, 9 # 10) [(chunk_a2, 0)]) as (_ & X);
    [vm_compute; reflexivity | exact X].
Defined.

End CoreFacts.

Module PipelineFacts.
Import Core Rules Samples.

(** *** The status state machine *)

Lemma steps_snoc (ok : TranscriptStatus -> TranscriptStatus -> bool)
    (t : list TranscriptStatus) (a b : TranscriptStatus) :
  steps ok (t ++ [a]) = true -> ok a b = true -> steps ok ((t ++ [a]) ++ [b]) = true.
Proof.
  induction t as [|x t IH]; simpl; intros S O.
  - now rewrite O.
  - destruct (t ++ [a]) as [|y r] eqn:E; [destruct t; discriminate|].
    simpl in *. apply andb_true_iff in S as [S1 S2].
    rewrite S1. simpl. now apply IH.
Qed.

Lemma steps_weaken (ok ok' : TranscriptStatus -> TranscriptStatus -> bool)
    (t : list TranscriptStatus) :
  (forall a b, ok a b = true -> ok' a b = true) ->
  steps ok t = true -> steps ok' t = true.
Proof.
  intros W. induction t as [|x t IH]; simpl; [reflexivity|].
  destruct t as [|y r]; [reflexivity|].
  intros S. apply andb_true_iff in S as [S1 S2].
  rewrite (W _ _ S1). simpl. now apply IH.
Qed.

Lemma set_status_step (ok : TranscriptStatus -> TranscriptStatus -> bool)
    (l : LectureState) (b : TranscriptStatus) :
  ends_in_status l -> steps ok (trail l) = true -> ok (status l) b = true ->
  ends_in_status (set_status b l) /\ steps ok (trail (set_status b l)) = true.
Proof.
  intros [t E] S O. split.
  - exists (trail l). reflexivity.
  - simpl. rewrite E in *. now apply steps_snoc.
Qed.

Lemma ingest_steps (ok : TranscriptStatus -> TranscriptStatus -> bool)
    (embed : Embedder) (budget ovl : nat) (lid : Z)
    (transcript : list Utterance) (l : LectureState) (idx : Index) :
  (forall a b, ingest_step a b = true -> ok a b = true) ->
  ends_in_status l -> steps ok (trail l) = true ->
  ends_in_status (snd (fst (ingest embed budget ovl lid transcript l idx)))
  /\ steps ok (trail (snd (fst (ingest embed budget ovl lid transcript l idx))))
     = true.
Proof.
  intros I W S. unfold ingest.
  destruct (status l) eqn:St; try (split; assumption).
  - destruct (set_status_step ok l processing W S) as [W1 S1];
      [apply I; now rewrite St|].
    destruct (add _ _ _); simpl; apply set_status_step; auto.
  - destruct (set_status_step ok l pending W S) as [W0 S0];
      [apply I; now rewrite St|].
    destruct (set_status_step ok _ processing W0 S0) as [W1 S1];
      [apply I; reflexivity|].
    destruct (add _ _ _); simpl; apply set_status_step; auto.
Qed.

Lemma reset_steps (lid : Z) (l : LectureState) (idx : Index) :
  ends_in_status l -> steps any_step (trail l) = true ->
  ends_in_status (snd (fst (reset lid l idx)))
  /\ steps any_step (trail (snd (fst (reset lid l idx)))) = true.
Proof.
  intros W S. unfold reset.
  destruct (status l) eqn:St; try (split; assumption);
    simpl; apply set_status_step; auto; now rewrite St.
Qed.

Lemma ingest_step_any (a b : TranscriptStatus) :
  ingest_step a b = true -> any_step a b = true.
Proof. unfold any_step. now intros ->. Qed.

Lemma run_any_steps (lid : Z) (ops : list Op) : forall l idx,
  ends_in_status l -> steps any_step (trail l) = true ->
  steps any_step (trail (fst (run lid ops l idx))) = true.
Proof.
  induction ops as [|op ops IH]; intros l idx W S; [exact S|].
  simpl. destruct (apply_op lid op l idx) as [[r l'] idx'] eqn:E.
  destruct op as [embed budget ovl transcript|]; simpl in E.
  - destruct (ingest_steps any_step embed budget ovl lid transcript l idx
                ingest_step_any W S) as [W' S'].
    rewrite E in W', S'. now apply IH.
  - destruct (reset_steps lid l idx W S) as [W' S'].
    rewrite E in W', S'. now apply IH.
Qed.

Lemma run_ingest_steps (lid : Z) (ops : list Op) : forall l idx,
  forallb (fun op => negb (is_reset op)) ops = true ->
  ends_in_status l -> steps ingest_step (trail l) = true ->
  steps ingest_step (trail (fst (run lid ops l idx))) = true.
Proof.
  induction ops as [|op ops IH]; intros l idx N W S; [exact S|].
  simpl in N. apply andb_true_iff in N as [N1 N2].
  simpl. destruct (apply_op lid op l idx) as [[r l'] idx'] eqn:E.
  destruct op as [embed budget ovl transcript|]; simpl in E; [|discriminate].
  destruct (ingest_steps ingest_step embed budget ovl lid transcript l idx
              (fun a b H => H) W S) as [W' S'].
  rewrite E in W', S'. now apply IH.
Qed.

(** C4, as the specification has it.  A status is one of pending,
    processing, completed and failed, and a forward transition leads to
    a later stage.  Every step in a lecture's status history is a forward
    transition, or the reset of a failed lecture to pending that [ingest]
    performs first, or the explicit reset of a completed lecture; without
    the explicit reset a completed lecture is never moved back, and
    [ingest] on a completed or a processing lecture is rejected and
    leaves the lecture and the index as they were. *)
Theorem status_transitions (lid : Z) (ops : list Op) (idx : Index)
    (a b : TranscriptStatus) (l : LectureState) (embed : Embedder)
    (budget ovl : nat) (transcript : list Utterance) :
  (a = pending \/ a = processing \/ a = completed \/ a = failed)
  /\ (forward a b = true -> (stage a < stage b)%nat)
  /\ steps any_step (trail (fst (run lid ops new_lecture idx))) = true
  /\ (forallb (fun op => negb (is_reset op)) ops = true ->
      steps ingest_step (trail (fst (run lid ops new_lecture idx))) = true)
  /\ (status l = completed ->
      ingest embed budget ovl lid transcript l idx = (Failed PreconditionFailed, l, idx))
  /\ (status l = processing ->
      ingest embed budget ovl lid transcript l idx = (Failed ConcurrentIngestion, l, idx)).
Proof.
  assert (W : ends_in_status new_lecture) by (exists []; reflexivity).
  split; [destruct a; auto|].
  split; [destruct a, b; simpl; intros; try discriminate; lia|].
  split; [now apply run_any_steps|].
  split; [intros N; now apply run_ingest_steps|].
  split; intros St; unfold ingest; now rewrite St.
Qed.

Lemma status_transitions_witness :
  trail (fst (run 1 retry new_lecture []))
  = [pending; processing; failed; pending; processing; completed]
  /\ (stage pending < stage processing)%nat
  /\ steps ingest_step (trail (fst (run 1 retry new_lecture []))) = true
  /\ ingest flat_embed 800 150 1 loops (fst (run 1 retry new_lecture [])) []
     = (Failed PreconditionFailed, fst (run 1 retry new_lecture []), [])
  /\ ingest flat_embed 800 150 1 loops in_flight []
     = (Failed ConcurrentIngestion, in_flight, []).
Proof.
  destruct (status_transitions 1 retry [] pending processing
              (fst (run 1 retry new_lecture [])) flat_embed 800 150 loops)
    as (_ & G & _ & S & C & _).
  destruct (status_transitions 1 retry [] pending processing
              in_flight flat_embed 800 150 loops)
    as (_ & _ & _ & _ & _ & P).
  split; [reflexivity|].
  split; [apply G; reflexivity|].
  split; [apply S; reflexivity|].
  split; [apply C; reflexivity | apply P; reflexivity].
Defined.

(** C4 as stated does not hold: an ingestion that fails and is tried
    again moves the status from failed back to pending. *)
Lemma status_moves_back :
  ~ (forall (lid : Z) (ops : list Op) (idx : Index),
       steps forward (trail (fst (run lid ops new_lecture idx))) = true).
Proof.
  intros H. specialize (H 1%Z retry []). discriminate H.
Qed.

(** *** Re-ingestion *)

Lemma embed_all_chunks (embed : Embedder) (cs : list Chunk) : forall es,
  embed_all embed cs = Some es -> List.map chunk_of es = cs.
Proof.
  induction cs as [|c cs IH]; simpl; intros es H.
  - inversion H. reflexivity.
  - destruct (embed (text c)) as [v|]; [|discriminate].
    destruct (embed_all embed cs) as [es'|]; [|discriminate].
    inversion H. simpl. now rewrite (IH es').
Qed.

Lemma number_from_lecture (lid : Z) (ds : list Draft) : forall n,
  Forall (fun c => lecture_id c = lid) (number_from lid n ds).
Proof.
  induction ds as [|d ds IH]; intros n; simpl; constructor; [reflexivity | apply IH].
Qed.

Lemma chunks_in_app (lid : Z) (a b : Index) :
  chunks_in lid (a ++ b) = chunks_in lid a ++ chunks_in lid b.
Proof. unfold chunks_in. now rewrite filter_app, map_app. Qed.

Lemma chunks_in_remove (lid : Z) (idx : Index) : chunks_in lid (remove lid idx) = [].
Proof.
  unfold chunks_in, remove. induction idx as [|e idx IH]; simpl; [reflexivity|].
  destruct (in_lecture lid e) eqn:E; simpl; [exact IH|]. now rewrite E.
Qed.

Lemma chunks_in_other (lid other : Z) (idx : Index) :
  other <> lid -> chunks_in other (remove lid idx) = chunks_in other idx.
Proof.
  intros NE. unfold chunks_in, remove.
  induction idx as [|e idx IH]; simpl; [reflexivity|].
  destruct (in_lecture lid e) eqn:L; simpl.
  - assert (O : in_lecture other e = false).
    { unfold in_lecture in *. apply Z.eqb_eq in L. apply Z.eqb_neq. congruence. }
    rewrite O. exact IH.
  - destruct (in_lecture other e); simpl; now rewrite IH.
Qed.

Lemma chunks_in_all (lid : Z) (es : Index) :
  Forall (fun c => lecture_id c = lid) (List.map chunk_of es) ->
  chunks_in lid es = List.map chunk_of es.
Proof.
  unfold chunks_in. induction es as [|e es IH]; simpl; intros F; [reflexivity|].
  apply Forall_cons_iff in F as [E F'].
  unfold in_lecture at 1. rewrite E, Z.eqb_refl. simpl. now rewrite IH.
Qed.

Lemma chunks_in_none (lid : Z) (es : Index) :
  Forall (fun c => lecture_id c <> lid) (List.map chunk_of es) ->
  chunks_in lid es = [].
Proof.
  unfold chunks_in. induction es as [|e es IH]; simpl; intros F; [reflexivity|].
  apply Forall_cons_iff in F as [E F'].
  unfold in_lecture at 1.
  destruct (Z.eqb_spec (lecture_id (chunk_of e)) lid); [contradiction | now apply IH].
Qed.

Lemma ingest_done (embed : Embedder) (budget ovl : nat) (lid : Z)
    (transcript : list Utterance) (l l' : LectureState) (idx idx' : Index) :
  ingest embed budget ovl lid transcript l idx = (Done tt, l', idx') ->
  chunks_in lid idx' = number_from lid 0 (chunk budget ovl transcript)
  /\ forall other, other <> lid -> chunks_in other idx' = chunks_in other idx.
Proof.
  unfold ingest, add. intros H.
  destruct (embed_all embed (number_from lid 0 (chunk budget ovl transcript)))
    as [es|] eqn:E;
    [|destruct (status l); simpl in H; discriminate].
  assert (X : idx' = remove lid idx ++ es)
    by (destruct (status l); simpl in H; inversion H; reflexivity).
  subst idx'. apply embed_all_chunks in E.
  pose proof (number_from_lecture lid (chunk budget ovl transcript) 0) as F.
  rewrite <- E in F. split.
  - rewrite chunks_in_app, chunks_in_remove, chunks_in_all by exact F.
    simpl. exact E.
  - intros other NE.
    rewrite chunks_in_app, chunks_in_other by exact NE.
    rewrite (chunks_in_none other es); [now rewrite app_nil_r|].
    eapply Forall_impl; [|exact F]. simpl. intros c Hc. congruence.
Qed.

(** C7.  The chunks a successful ingestion leaves in the index for a
    lecture are the numbered chunks of the transcript under the budget
    and overlap, and nothing else decides them: two ingestions of the same
    transcript with the same configuration leave the same chunks, with
    the same boundaries, whatever the lecture's earlier state, the
    earlier contents of the index and the embedder were. *)
Theorem reingest_same_chunks (embed1 embed2 : Embedder) (budget ovl : nat)
    (lid : Z) (transcript : list Utterance)
    (l1 l2 l1' l2' : LectureState) (idx1 idx2 idx1' idx2' : Index)
    (H1 : ingest embed1 budget ovl lid transcript l1 idx1 = (Done tt, l1', idx1'))
    (H2 : ingest embed2 budget ovl lid transcript l2 idx2 = (Done tt, l2', idx2')) :
  chunks_in lid idx1' = chunks_in lid idx2'
  /\ chunks_in lid idx1' = number_from lid 0 (chunk budget ovl transcript).
Proof.
  apply ingest_done in H1 as [E1 _]. apply ingest_done in H2 as [E2 _].
  split; congruence.
Qed.

Lemma reingest_same_chunks_witness :
  chunks_in 1 (snd first_run) = chunks_in 1 (snd second_run)
  /\ chunks_in 1 (snd first_run)
     = [{| lecture_id := 1; seq_index := 0;
           text := "Intro to loops A for-loop repeats A while-loop checks a condition first";
           start_time := 0; end_time := 40 |}].
Proof.
  assert (H1 : first_run = (Done tt, snd (fst first_run), snd first_run))
    by reflexivity.
  assert (H2 : second_run = (Done tt, snd (fst second_run), snd second_run))
    by reflexivity.
  destruct (reingest_same_chunks _ _ _ _ _ _ _ _ _ _ _ _ _ _ H1 H2) as [A B].
  split; [exact A|]. rewrite B. reflexivity.
Defined.

End PipelineFacts.

(** * Further properties of the client *)

(** ** The typing indicator and the answer *)

Lemma without_not_in (indicator : nat) (nodes : list ChatNode) :
  ~ In (TypingIndicator indicator) (without indicator nodes).
Proof.
  unfold without. intros H. apply filter_In in H as [_ H].
  simpl in H. now rewrite Nat.eqb_refl in H.
Qed.

Lemma without_messages (indicator : nat) (nodes : list ChatNode) :
  filter is_message (without indicator nodes) = filter is_message nodes.
Proof.
  unfold without. induction nodes as [|n nodes IH]; simpl; [reflexivity|].
  destruct n as [sender text sources|k]; simpl; rewrite ?IH; try reflexivity.
  destruct (Nat.eqb k indicator); simpl; now rewrite ?IH.
Qed.

Lemma without_fresh (s : State) :
  indicators_fresh s -> without (fresh s) (chat_messages s) = chat_messages s.
Proof.
  unfold indicators_fresh, without.
  induction (chat_messages s) as [|n nodes IH]; intros F; [reflexivity|].
  apply Forall_cons_iff in F as [H F]. simpl.
  destruct n as [sender text sources|k]; simpl; [now rewrite IH|].
  destruct (Nat.eqb_spec k (fresh s)); [lia|]. simpl. now rewrite IH.
Qed.

(** X1.  When the answer request settles, whatever it settles to and
    whatever happened to the page meanwhile, the typing indicator of the
    question is no longer in the chat; every message that was in the chat
    is still there, in order, followed by at most one new message, a
    message of the bot. *)
Theorem typing_indicator_always_removed (s : State) (indicator : nat)
    (resp : Response AskData ErrorBody) :
  ~ In (TypingIndicator indicator)
       (chat_messages (exec (handleChatMessage_settled indicator resp) s))
  /\ exists tail,
       filter is_message (chat_messages (exec (handleChatMessage_settled indicator resp) s))
       = filter is_message (chat_messages s) ++ tail
       /\ (tail = [] \/ exists text sources, tail = [Message bot text sources]).
Proof.
  assert (E : exists tail,
             chat_messages (exec (handleChatMessage_settled indicator resp) s)
             = without indicator (chat_messages s) ++ tail
             /\ (tail = [] \/ exists text sources, tail = [Message bot text sources])).
  { destruct resp as [|[data|]|body].
    - exists []. rewrite app_nil_r. split; [|now left].
      now apply handleChatMessage_settled_failed.
    - rewrite handleChatMessage_settled_ok.
      destruct (ask_timestamp_references data) eqn:R.
      + eexists. split; [reflexivity|]. right. eauto.
      + exists []. rewrite app_nil_r. split; [reflexivity | now left].
      + eexists. split; [reflexivity|]. right. eauto.
    - exists []. rewrite app_nil_r. split; [|now left].
      now apply handleChatMessage_settled_failed.
    - exists []. rewrite app_nil_r. split; [|now left].
      now apply handleChatMessage_settled_failed. }
  destruct E as (tail & E & T). rewrite E. split.
  - intros H. apply in_app_or in H as [H|H].
    + now apply without_not_in in H.
    + destruct T as [->|(text & sources & ->)]; [destruct H|].
      destruct H as [H|[]]. discriminate H.
  - exists tail. split; [|exact T].
    rewrite filter_app, without_messages. f_equal.
    destruct T as [->|(text & sources & ->)]; reflexivity.
Qed.

(** X2.  A successful answer whose timestamp_references is null is not
    shown: the chat gets no bot message and the user is told 'Failed to
    send message'.  With the key missing or an empty array the answer is
    shown without a sources block, and otherwise with one link per
    reference, in order. *)
Theorem answer_references (s : State) (indicator : nat) (data : AskData) :
  match ask_timestamp_references data with
  | RNull =>
      chat_messages (exec (handleChatMessage_settled indicator (Ok (Some data))) s)
      = without indicator (chat_messages s)
      /\ toasts (exec (handleChatMessage_settled indicator (Ok (Some data))) s)
         = toasts s ++ [{| toast_message := lit "Failed to send message";
                           toast_type := error |}]
  | RUndefined =>
      chat_messages (exec (handleChatMessage_settled indicator (Ok (Some data))) s)
      = without indicator (chat_messages s) ++ [Message bot (response data) []]
      /\ toasts (exec (handleChatMessage_settled indicator (Ok (Some data))) s)
         = toasts s
  | RArray refs =>
      chat_messages (exec (handleChatMessage_settled indicator (Ok (Some data))) s)
      = without indicator (chat_messages s)
        ++ [Message bot (response data) (List.map link_text refs)]
      /\ List.length (List.map link_text refs) = List.length refs
      /\ toasts (exec (handleChatMessage_settled indicator (Ok (Some data))) s)
         = toasts s
  end.
Proof.
  destruct data as [text [| |refs]]; cbn; repeat split; try reflexivity.
  - apply without_idem.
  - apply length_map.
Qed.

(** X3.  A question that is answered: on a page with a lecture selected
    and a message that is not blank, a run of [handleChatMessage] whose
    request succeeds with references that are not null empties the input
    field, sends one ask request with the trimmed message and the
    lecture's id, and leaves the chat as it was followed by the user's
    message and the bot's answer; no typing indicator is left. *)
Theorem handleChatMessage_answered (s : State) (lecture : Lecture) (data : AskData)
    (Hcur : currentLecture s = Some lecture)
    (Hmsg : trim (chat_input_field s) <> [])
    (Hrefs : ask_timestamp_references data <> RNull)
    (Hfresh : indicators_fresh s) :
  chat_messages (exec (handleChatMessage_run (Ok (Some data))) s)
  = chat_messages s
    ++ [Message user (trim (chat_input_field s)) [];
        Message bot (response data) (sources_of (ask_timestamp_references data))]
  /\ chat_input_field (exec (handleChatMessage_run (Ok (Some data))) s) = []
  /\ fetched (exec (handleChatMessage_run (Ok (Some data))) s)
     = fetched s ++ [PostAsk (trim (chat_input_field s)) (id lecture)]
  /\ toasts (exec (handleChatMessage_run (Ok (Some data))) s) = toasts s.
Proof.
  unfold exec, handleChatMessage_run, bind.
  rewrite (handleChatMessage_selected lecture s Hcur Hmsg).
  destruct data as [text refs]. simpl in Hrefs.
  pose proof (without_fresh s Hfresh) as W. unfold without in W.
  destruct refs as [| |refs]; try congruence; cbn;
    rewrite filter_app, W; cbn; rewrite Nat.eqb_refl; cbn;
    rewrite <- app_assoc; repeat split; reflexivity.
Qed.

Lemma asking_page_fresh : indicators_fresh asking_page.
Proof. repeat constructor. Qed.

Lemma handleChatMessage_answered_witness :
  chat_messages (exec (handleChatMessage_run (Ok (Some loop_answer))) asking_page)
  = [Message user (lit "hello") []; Message bot (lit "hi") [];
     Message user (lit "what is a loop?") [];
     Message bot (lit "A loop repeats.") [lit "00:10 - 00:25"]]
  /\ chat_input_field (exec (handleChatMessage_run (Ok (Some loop_answer))) asking_page) = []
  /\ fetched (exec (handleChatMessage_run (Ok (Some loop_answer))) asking_page)
     = [PostAsk (lit "what is a loop?") 3].
Proof.
  destruct (handleChatMessage_answered asking_page completed_lecture loop_answer)
    as (A & B & C & _);
    [reflexivity | discriminate | discriminate | exact asking_page_fresh |].
  repeat split; assumption.
Defined.

(** ** Summaries *)

(** X4.  [handleSummarize] shows the loading overlay while it waits and
    hides it again however the request settles.  On success it appends
    two messages to the chat, the fixed prompt as the user's and the
    summary as the bot's, without sources; on failure it leaves the chat
    as it was and shows one error toast. *)
Theorem handleSummarize_outcomes (s : State) (lecture : Lecture)
    (resp : Response SummaryData ErrorBody)
    (Hcur : currentLecture s = Some lecture) :
  loadingOverlay_display (exec handleSummarize s) = lit "flex"
  /\ loadingOverlay_display (exec (handleSummarize_settled resp) (exec handleSummarize s))
     = lit "none"
  /\ outcome (handleSummarize_settled resp) (exec handleSummarize s) = Return tt
  /\ (forall data, resp = Ok (Some data) ->
      chat_messages (exec (handleSummarize_settled resp) (exec handleSummarize s))
      = chat_messages s ++ [Message user summary_prompt []; Message bot (summary data) []]
      /\ toasts (exec (handleSummarize_settled resp) (exec handleSummarize s)) = toasts s)
  /\ (request_failed resp ->
      chat_messages (exec (handleSummarize_settled resp) (exec handleSummarize s))
      = chat_messages s
      /\ exists m,
           toasts (exec (handleSummarize_settled resp) (exec handleSummarize s))
           = toasts s ++ [{| toast_message := m; toast_type := error |}]).
Proof.
  assert (E : exec handleSummarize s
              = set_fetched (fetched s ++ [PostSummarize (id lecture)])
                  (set_loadingOverlay_display (lit "flex") s))
    by (unfold exec; now rewrite (handleSummarize_selected lecture s Hcur)).
  rewrite E. unfold exec, outcome. split; [reflexivity|].
  destruct resp as [|[data|]|[err|]]; cbn; repeat split;
    try reflexivity; try contradiction; try discriminate; eauto.
  match goal with D : Ok _ = Ok _ |- _ => inversion D; subst end.
  now rewrite <- app_assoc.
Qed.

Lemma handleSummarize_outcomes_witness :
  loadingOverlay_display
    (exec (handleSummarize_settled (Ok (Some {| summary := lit "Loops repeat." |})))
          (exec handleSummarize asking_page)) = lit "none"
  /\ chat_messages
       (exec (handleSummarize_settled (Ok (Some {| summary := lit "Loops repeat." |})))
             (exec handleSummarize asking_page))
     = [Message user (lit "hello") []; Message bot (lit "hi") [];
        Message user summary_prompt []; Message bot (lit "Loops repeat.") []]
  /\ chat_messages (exec (handleSummarize_settled Rejected) (exec handleSummarize asking_page))
     = [Message user (lit "hello") []; Message bot (lit "hi") []].
Proof.
  destruct (handleSummarize_outcomes asking_page completed_lecture
              (Ok (Some {| summary := lit "Loops repeat." |})) eq_refl)
    as (_ & H & _ & S & _).
  destruct (handleSummarize_outcomes asking_page completed_lecture Rejected eq_refl)
    as (_ & _ & _ & _ & F).
  split; [exact H|]. split.
  - destruct (S _ eq_refl) as (C & _). exact C.
  - destruct (F I) as (C & _). exact C.
Defined.

(** ** No lecture selected *)

(** X5.  With no lecture selected, [handleChatMessage] and
    [handleSummarize] send nothing and wait for nothing: each shows the
    'Please select a lecture first' warning and changes nothing else; a
    message typed in the input field stays there and is not added to the
    chat, and the loading overlay is not shown. *)
Theorem no_lecture_no_request (s : State) (Hcur : currentLecture s = None) :
  (outcome handleChatMessage s = Return None
   /\ exec handleChatMessage s = set_toasts (toasts s ++ [select_first_toast]) s)
  /\ (outcome handleSummarize s = Return false
      /\ exec handleSummarize s = set_toasts (toasts s ++ [select_first_toast]) s).
Proof.
  unfold outcome, exec, handleChatMessage, handleSummarize, bind, get.
  rewrite Hcur. repeat split; reflexivity.
Qed.

Lemma no_lecture_no_request_witness :
  fetched (exec handleChatMessage typed_page) = []
  /\ chat_input_field (exec handleChatMessage typed_page) = lit " what is a loop? "
  /\ chat_messages (exec handleChatMessage typed_page) = []
  /\ loadingOverlay_display (exec handleSummarize typed_page) = lit "none".
Proof.
  destruct (no_lecture_no_request typed_page eq_refl) as ((_ & C) & (_ & S)).
  rewrite C, S. repeat split; reflexivity.
Defined.

(** ** Loading the history *)

Lemma forEach_until_null (l : list ChatTurn) : forall s,
  forEach l render_turn s
  = (if has_null l then Throw TypeError else Return tt,
     set_chat_messages (chat_messages s ++ shown_until_null l) s).
Proof.
  induction l as [|t l IH]; intros s.
  - destruct s. cbn. now rewrite app_nil_r.
  - cbn [forEach]. unfold bind at 1.
    destruct t as [um br [| |refs]]; cbn [has_null existsb timestamp_references orb
                                          shown_until_null].
    + assert (R : render_turn {| user_message := um; bot_response := br;
                                 timestamp_references := RUndefined |} s
                  = (Return tt,
                     set_chat_messages
                       (chat_messages s
                        ++ shown {| user_message := um; bot_response := br;
                                    timestamp_references := RUndefined |}) s))
        by (cbn; unfold modify; cbn; rewrite <- app_assoc; reflexivity).
      rewrite R, IH. cbn. now rewrite <- app_assoc.
    + reflexivity.
    + assert (R : render_turn {| user_message := um; bot_response := br;
                                 timestamp_references := RArray refs |} s
                  = (Return tt,
                     set_chat_messages
                       (chat_messages s
                        ++ shown {| user_message := um; bot_response := br;
                                    timestamp_references := RArray refs |}) s))
        by (cbn; unfold modify; cbn; rewrite <- app_assoc; reflexivity).
      rewrite R, IH. cbn. now rewrite <- app_assoc.
Qed.

Lemma shown_until_null_messages (l : list ChatTurn) :
  forallb is_message (shown_until_null l) = true.
Proof.
  induction l as [|t l IH]; simpl; [reflexivity|].
  destruct (timestamp_references t); simpl; try reflexivity; exact IH.
Qed.

Lemma without_only_messages (indicator : nat) (nodes : list ChatNode) :
  forallb is_message nodes = true -> without indicator nodes = nodes.
Proof.
  unfold without. induction nodes as [|n nodes IH]; simpl; [reflexivity|].
  destruct n as [sender text sources|k]; simpl; [|discriminate].
  intros H. now rewrite IH.
Qed.

Lemma loadChatHistory_settled_history (s : State) (history : list ChatTurn) :
  chat_messages (exec (loadChatHistory_settled (Ok (Some history))) s)
  = shown_until_null (rev history)
  /\ outcome (loadChatHistory_settled (Ok (Some history))) s = Return tt
  /\ toasts (exec (loadChatHistory_settled (Ok (Some history))) s) = toasts s
  /\ console (exec (loadChatHistory_settled (Ok (Some history))) s)
     = console s ++ (if has_null history
                     then [lit "Error loading chat history:"] else []).
Proof.
  assert (N : has_null (rev history) = has_null history).
  { unfold has_null. destruct (existsb _ history) eqn:E.
    - apply existsb_exists in E as (t & I & T).
      apply existsb_exists. exists t. split; [now apply in_rev in I | exact T].
    - destruct (existsb _ (rev history)) eqn:E'; [|reflexivity].
      apply existsb_exists in E' as (t & I & T). apply in_rev in I.
      assert (X : existsb (fun t => match timestamp_references t with
                                    | RNull => true | _ => false end) history = true)
        by (apply existsb_exists; now exists t).
      congruence. }
  unfold exec, outcome, loadChatHistory_settled, try_catch, bind.
  cbn [json ret modify]. rewrite forEach_until_null, N.
  destruct (has_null history); cbn; rewrite ?app_nil_r; repeat split; reflexivity.
Qed.


(** X8.  A history that arrives replaces whatever the chat showed.  Its
    turns are shown from the last of the list to the first, each as the
    user's message and the bot's answer, up to the first turn whose
    timestamp_references is null: of that turn only the user's message is
    shown, the rest of the history is not shown, and the error is caught
    and logged, not thrown and not shown to the user. *)
Theorem loadChatHistory_until_null (s : State) (history : list ChatTurn) :
  chat_messages (exec (loadChatHistory_settled (Ok (Some history))) s)
  = shown_until_null (rev history)
  /\ outcome (loadChatHistory_settled (Ok (Some history))) s = Return tt
  /\ toasts (exec (loadChatHistory_settled (Ok (Some history))) s) = toasts s
  /\ console (exec (loadChatHistory_settled (Ok (Some history))) s)
     = console s ++ (if has_null history
                     then [lit "Error loading chat history:"] else []).
Proof. apply loadChatHistory_settled_history. Qed.

(** X9.  A history request that fails, because the promise rejects, the
    response is an error or its body cannot be read, changes neither the
    chat nor the toasts: after a completed lecture has been selected, the
    chat still shows the messages it showed before, under the title of
    the newly selected lecture, and the user is not told. *)
Theorem loadChatHistory_failed_keeps_chat (s : State) (it : LectureItem)
    (resp : Response (list ChatTurn) unit)
    (Hin : In it (lecture_items s))
    (Hdone : transcript_status (item_lecture it) = lit "completed")
    (Hfail : request_failed resp) :
  chat_messages (exec (loadChatHistory_settled resp)
                      (exec (selectLecture (item_lecture it)) s))
  = chat_messages s
  /\ current_lecture_title (exec (loadChatHistory_settled resp)
                                 (exec (selectLecture (item_lecture it)) s))
     = title (item_lecture it)
  /\ toasts (exec (loadChatHistory_settled resp)
                  (exec (selectLecture (item_lecture it)) s))
     = toasts s
  /\ fetched (exec (loadChatHistory_settled resp)
                   (exec (selectLecture (item_lecture it)) s))
     = fetched s ++ [GetHistory (id (item_lecture it))].
Proof.
  destruct (querySelector_In it _ Hin) as [n Q].
  change (dataset_lectureId it) with (id (item_lecture it)) in Q.
  unfold exec at 2 4 6 8. rewrite (selectLecture_found _ s n Q). cbv zeta.
  apply str_eqb_eq in Hdone. rewrite Hdone.
  destruct resp as [|[history|]|body]; try contradiction;
    cbn; repeat split; reflexivity.
Qed.

Lemma loadChatHistory_failed_keeps_chat_witness :
  chat_messages (exec (loadChatHistory_settled (NotOk None))
                      (exec (selectLecture completed_lecture) asking_page))
  = [Message user (lit "hello") []; Message bot (lit "hi") []]
  /\ current_lecture_title (exec (loadChatHistory_settled (NotOk None))
                                 (exec (selectLecture completed_lecture) asking_page))
     = lit "Sorting".
Proof.
  destruct (loadChatHistory_failed_keeps_chat asking_page
              {| item_lecture := completed_lecture; active := false |} (NotOk None))
    as (C & T & _); [simpl; auto | reflexivity | exact I |].
  split; [exact C | exact T].
Defined.

(** X10.  A history that arrives while a question is waiting for its
    answer wipes the question and its typing indicator from the chat;
    when the answer then arrives it is appended to the history shown, so
    the chat ends with the bot's answer and does not show the question
    it answers. *)
Theorem history_wipes_pending_question (s : State) (lecture : Lecture)
    (history : list ChatTurn) (data : AskData)
    (Hcur : currentLecture s = Some lecture)
    (Hmsg : trim (chat_input_field s) <> [])
    (Hrefs : ask_timestamp_references data <> RNull) :
  outcome handleChatMessage s = Return (Some (fresh s))
  /\ chat_messages
       (exec (handleChatMessage_settled (fresh s) (Ok (Some data)))
          (exec (loadChatHistory_settled (Ok (Some history)))
             (exec handleChatMessage s)))
     = shown_until_null (rev history)
       ++ [Message bot (response data) (sources_of (ask_timestamp_references data))].
Proof.
  split.
  - unfold outcome. now rewrite (handleChatMessage_selected lecture s Hcur Hmsg).
  - rewrite handleChatMessage_settled_ok.
    destruct (loadChatHistory_settled_history (exec handleChatMessage s) history)
      as (-> & _).
    rewrite without_only_messages by apply shown_until_null_messages.
    destruct (ask_timestamp_references data); congruence.
Qed.

Lemma history_wipes_pending_question_witness :
  chat_messages
    (exec (handleChatMessage_settled 0 (Ok (Some loop_answer)))
       (exec (loadChatHistory_settled (Ok (Some [turn1])))
          (exec handleChatMessage asking_page)))
  = [Message user (lit "first question") []; Message bot (lit "first answer") [];
     Message bot (lit "A loop repeats.") [lit "00:10 - 00:25"]].
Proof.
  destruct (history_wipes_pending_question asking_page completed_lecture [turn1]
              loop_answer) as (_ & C);
    [reflexivity | discriminate | discriminate | exact C].
Defined.

(** ** What is sent as the question *)

Lemma trimStart_split (s : jsstring) :
  exists spaces, s = spaces ++ trimStart s /\ forallb is_space spaces = true.
Proof.
  induction s as [|c s (sp & E & F)]; [now exists []|].
  simpl. destruct (is_space c) eqn:C.
  - exists (c :: sp). simpl. rewrite C, F. split; [now f_equal | reflexivity].
  - now exists [].
Qed.

Lemma trimStart_head (s : jsstring) (c : N) (r : jsstring) :
  trimStart s = c :: r -> is_space c = false.
Proof.
  induction s as [|x s IH]; simpl; [discriminate|].
  destruct (is_space x) eqn:X; [exact IH|].
  intros E. inversion E; subst. exact X.
Qed.

Lemma trimStart_nil (s : jsstring) :
  trimStart s = [] <-> forallb is_space s = true.
Proof.
  induction s as [|x s IH]; simpl; [tauto|].
  destruct (is_space x); simpl; [exact IH|]. split; discriminate.
Qed.

Lemma forallb_rev {A} (f : A -> bool) (l : list A) :
  forallb f (rev l) = forallb f l.
Proof.
  induction l as [|x l IH]; simpl; [reflexivity|].
  rewrite forallb_app, IH. simpl. rewrite andb_true_r. apply andb_comm.
Qed.

Lemma trim_nil (s : jsstring) : trim s = [] <-> forallb is_space s = true.
Proof.
  unfold trim, trimEnd. split.
  - intros H. apply (f_equal (@rev N)) in H. rewrite rev_involutive in H.
    simpl in H. apply trimStart_nil in H. rewrite forallb_rev in H.
    destruct (trimStart s) as [|c r] eqn:E; [now apply trimStart_nil|].
    apply trimStart_head in E. simpl in H. now rewrite E in H.
  - intros H. apply trimStart_nil in H. now rewrite H.
Qed.

Lemma trim_ends (s : jsstring) :
  trim s <> [] ->
  is_space (hd 32%N (trim s)) = false /\ is_space (last (trim s) 32%N) = false.
Proof.
  unfold trim, trimEnd. intros NE.
  destruct (trimStart s) as [|c r] eqn:T; [now destruct NE|].
  pose proof (trimStart_head s c r T) as C.
  destruct (trimStart_split (rev (c :: r))) as (sp & E & F).
  destruct (trimStart (rev (c :: r))) as [|d u] eqn:U; [now destruct NE|].
  pose proof (trimStart_head _ d u U) as D.
  apply (f_equal (@rev N)) in E. rewrite rev_involutive, rev_app_distr in E.
  split.
  - destruct (rev (d :: u)) as [|x y] eqn:R.
    + apply (f_equal (@List.length N)) in R. rewrite length_rev in R. discriminate.
    + simpl in E. inversion E; subst. exact C.
  - simpl. rewrite last_last. exact D.
Qed.

(** X11.  [handleChatMessage] sends a request exactly when a lecture is
    selected and the input field holds a character that is not white
    space; the message it sends and shows is the input without the white
    space around it, so it neither starts nor ends with white space. *)
Theorem handleChatMessage_sends_iff (s : State) :
  (fetched (exec handleChatMessage s) <> fetched s
   <-> currentLecture s <> None /\ forallb is_space (chat_input_field s) = false)
  /\ (forall lecture,
        currentLecture s = Some lecture ->
        forallb is_space (chat_input_field s) = false ->
        fetched (exec handleChatMessage s)
        = fetched s ++ [PostAsk (trim (chat_input_field s)) (id lecture)]
        /\ is_space (hd 32%N (trim (chat_input_field s))) = false
        /\ is_space (last (trim (chat_input_field s)) 32%N) = false).
Proof.
  assert (T : forallb is_space (chat_input_field s) = false
              -> trim (chat_input_field s) <> []).
  { intros F E. apply trim_nil in E. congruence. }
  split.
  - split.
    + intros D. destruct (currentLecture s) as [lecture|] eqn:C.
      * split; [discriminate|].
        destruct (forallb is_space (chat_input_field s)) eqn:F; [|reflexivity].
        exfalso. apply D. apply trim_nil in F.
        unfold exec, handleChatMessage, bind, get. now rewrite C, F.
      * exfalso. apply D. unfold exec, handleChatMessage, bind, get.
        now rewrite C.
    + intros (C & F). destruct (currentLecture s) as [lecture|] eqn:L; [|congruence].
      unfold exec. rewrite (handleChatMessage_selected lecture s L (T F)).
      cbn. intros E. apply (f_equal (@List.length _)) in E.
      rewrite length_app in E. simpl in E. lia.
  - intros lecture C F. split; [|now apply trim_ends, T].
    unfold exec. now rewrite (handleChatMessage_selected lecture s C (T F)).
Qed.

Lemma handleChatMessage_sends_iff_witness :
  fetched (exec handleChatMessage (set_currentLecture (Some pending_lecture) typed_page))
  = [PostAsk (lit "what is a loop?") 7]
  /\ fetched (exec handleChatMessage (set_currentLecture (Some pending_lecture) typed_page))
     <> fetched (set_currentLecture (Some pending_lecture) typed_page).
Proof.
  destruct (handleChatMessage_sends_iff
              (set_currentLecture (Some pending_lecture) typed_page)) as (B & S).
  split.
  - destruct (S pending_lecture eq_refl eq_refl) as (E & _). exact E.
  - apply B. split; [discriminate | reflexivity].
Defined.
(** ** Timestamp labels *)

Lemma floor_parts (q : Q) :
  (0 <= q)%Q ->
  whole_minutes q = Qfloor q / 60 /\ left_over_seconds q = Qfloor q mod 60.
Proof.
  intros Hq.
  pose proof (Qfloor_le q) as FL. pose proof (Qlt_floor q) as FU.
  rewrite inject_Z_plus in FU. change (inject_Z 1) with 1%Q in FU.
  pose proof (Z.div_mod (Qfloor q) 60 ltac:(lia)) as DM.
  pose proof (Z.mod_pos_bound (Qfloor q) 60 ltac:(lia)) as MB.
  set (f := Qfloor q) in *. set (m := f / 60) in *. set (r := f mod 60) in *.
  assert (EF : (inject_Z f == 60 * inject_Z m + inject_Z r)%Q).
  { rewrite DM, inject_Z_plus, inject_Z_mult. reflexivity. }
  assert (R0 : (0 <= inject_Z r)%Q) by (change 0%Q with (inject_Z 0); rewrite <- Zle_Qle; lia).
  assert (R1 : (inject_Z r <= 59)%Q) by (change 59%Q with (inject_Z 59); rewrite <- Zle_Qle; lia).
  assert (Hd : (q == 60 * (q / 60))%Q) by field.
  assert (M : whole_minutes q = m).
  { unfold whole_minutes. apply Qfloor_unique.
    - set (d := (q / 60)%Q) in *. lra.
    - rewrite inject_Z_plus. change (inject_Z 1) with 1%Q.
      set (d := (q / 60)%Q) in *. lra. }
  split; [exact M|].
  unfold left_over_seconds. fold (whole_minutes q). rewrite M.
  apply Qfloor_unique.
  - lra.
  - rewrite inject_Z_plus. change (inject_Z 1) with 1%Q. lra.
Qed.

Lemma is_double_int (z : Z) : 0 <= z < 2 ^ 53 -> is_double (inject_Z z) = true.
Proof.
  intros H. unfold is_double.
  destruct (round64_small_int z H) as (v & -> & E). now apply Qeq_bool_iff.
Qed.

(** The label of a double from 0 to below [2^53]. *)
Lemma formatTimestamp_label (q : Q) :
  is_double q = true -> (0 <= q)%Q -> (q < pow2 53)%Q ->
  formatTimestamp (Num (Finite q))
  = two_digits (Qfloor q / 60) ++ lit ":" ++ two_digits (Qfloor q mod 60).
Proof.
  intros D Hq B. destruct (Qeq_bool q 0) eqn:Z0.
  - apply Qeq_bool_eq in Z0.
    assert (F : Qfloor q = 0).
    { apply Qfloor_unique.
      - change (inject_Z 0) with 0%Q. lra.
      - change (inject_Z (0 + 1)) with 1%Q. lra. }
    unfold formatTimestamp. simpl truthy.
    assert (T : Qeq_bool q 0 = true) by (now apply Qeq_bool_iff).
    rewrite T, F. reflexivity.
  - assert (P : (0 < q)%Q).
    { apply Qeq_bool_neq in Z0. apply Qle_lteq in Hq as [H|H]; [exact H|].
      exfalso. apply Z0. now symmetry. }
    destruct (floor_parts q Hq) as [<- <-].
    now apply formatTimestamp_positive.
Qed.

Lemma fold_digits_aux (fuel : nat) : forall n acc,
  (n < 2 ^ N.of_nat fuel)%N ->
  num (digits_aux fuel n acc)
  = fold_left (fun a d => (10 * a + (d - 48))%N) acc n.
Proof.
  unfold num. induction fuel as [|fuel IH]; intros n acc L.
  - simpl in L. assert (n = 0%N) by lia. subst. reflexivity.
  - cbn [digits_aux]. destruct (N.ltb_spec n 10) as [S|B].
    + cbn [fold_left]. f_equal. rewrite N.mod_small by exact S.
      rewrite (N.add_comm 48), N.add_sub. reflexivity.
    + rewrite IH.
      * cbn [fold_left]. f_equal.
        rewrite (N.add_comm 48), N.add_sub.
        symmetry. apply N.div_mod. discriminate.
      * rewrite Nat2N.inj_succ, N.pow_succ_r' in L.
        apply N.Div0.div_lt_upper_bound.
        assert (2 ^ N.of_nat fuel > 0)%N by (apply N.lt_gt, N.neq_0_lt_0, N.pow_nonzero; lia).
        nia.
Qed.

Lemma num_digits (n : N) : num (digits n) = n.
Proof.
  unfold digits. rewrite fold_digits_aux; [reflexivity|].
  rewrite Nat2N.inj_succ, N2Nat.id.
  destruct n as [|p]; [reflexivity|].
  apply N.log2_spec. lia.
Qed.

Lemma digits_aux_digits (fuel : nat) : forall n acc,
  forallb is_digit acc = true -> forallb is_digit (digits_aux fuel n acc) = true.
Proof.
  induction fuel as [|fuel IH]; intros n acc A; [exact A|].
  assert (D : is_digit (48 + n mod 10) = true).
  { pose proof (N.mod_upper_bound n 10 ltac:(discriminate)) as U.
    set (m := (n mod 10)%N) in *. clearbody m.
    unfold is_digit. apply andb_true_iff. split; apply N.leb_le; lia. }
  cbn [digits_aux]. destruct (n <? 10)%N.
  - cbn [forallb]. now rewrite D, A.
  - apply IH. cbn [forallb]. now rewrite D, A.
Qed.

Lemma two_digits_digits (z : Z) : forallb is_digit (two_digits z) = true.
Proof.
  assert (D : forall n, forallb is_digit (digits n) = true)
    by (intros n; unfold digits; now apply digits_aux_digits).
  unfold two_digits. destruct (z <? 10); [|apply D].
  cbn [forallb]. now rewrite D.
Qed.

Lemma num_two_digits (z : Z) : num (two_digits z) = Z.to_N z.
Proof.
  unfold two_digits. destruct (z <? 10); [|apply num_digits].
  unfold num. cbn [fold_left]. apply num_digits.
Qed.

Lemma label_seconds_split (minutes : jsstring) : forall before s,
  forallb is_digit minutes = true ->
  label_seconds before (minutes ++ 58%N :: s)
  = (60 * num (before ++ minutes) + num s)%N.
Proof.
  induction minutes as [|c minutes IH]; intros before s D.
  - simpl. now rewrite app_nil_r.
  - simpl in D. apply andb_true_iff in D as [C D].
    cbn [app label_seconds].
    assert (E : (c =? 58)%N = false).
    { unfold is_digit in C. apply andb_true_iff in C as [_ C].
      apply N.leb_le in C. apply N.eqb_neq. lia. }
    rewrite E, IH by exact D. now rewrite <- app_assoc.
Qed.

Lemma Qfloor_small (q : Q) :
  (0 <= q)%Q -> (q < pow2 53)%Q -> 0 <= Qfloor q < 2 ^ 53.
Proof.
  intros Hq B. split.
  - change 0 with (Qfloor 0). now apply Qfloor_resp_le.
  - pose proof (Qfloor_le q) as L. rewrite pow2_Z in B by lia.
    rewrite Zlt_Qlt. lra.
Qed.

(** X12.  For a number of seconds from 0 to below 2^53, the label of
    [formatTimestamp] is that of its whole seconds: the minutes are the
    whole seconds divided by 60 and the seconds the remainder, so the
    fraction of a second never shows.  The label can be read back: the
    minutes before the colon times 60 plus the seconds after it are the
    whole seconds; hence two times get the same label exactly when their
    whole seconds agree. *)
Theorem formatTimestamp_whole_seconds (q q' : Q)
    (D : is_double q = true) (Hq : (0 <= q)%Q) (B : (q < pow2 53)%Q)
    (D' : is_double q' = true) (Hq' : (0 <= q')%Q) (B' : (q' < pow2 53)%Q) :
  formatTimestamp (Num (Finite q))
  = two_digits (Qfloor q / 60) ++ lit ":" ++ two_digits (Qfloor q mod 60)
  /\ formatTimestamp (Num (Finite q)) = formatTimestamp (Num (Finite (inject_Z (Qfloor q))))
  /\ label_seconds [] (formatTimestamp (Num (Finite q))) = Z.to_N (Qfloor q)
  /\ (formatTimestamp (Num (Finite q)) = formatTimestamp (Num (Finite q'))
      <-> Qfloor q = Qfloor q').
Proof.
  assert (R : forall x, is_double x = true -> (0 <= x)%Q -> (x < pow2 53)%Q ->
            label_seconds [] (formatTimestamp (Num (Finite x))) = Z.to_N (Qfloor x)).
  { intros x Dx Hx Bx. rewrite (formatTimestamp_label x Dx Hx Bx).
    change (lit ":" ++ ?b) with (58%N :: b).
    rewrite label_seconds_split by apply two_digits_digits.
    cbn [app]. rewrite !num_two_digits.
    pose proof (Qfloor_small x Hx Bx).
    pose proof (Z.div_mod (Qfloor x) 60 ltac:(lia)).
    pose proof (Z.mod_pos_bound (Qfloor x) 60 ltac:(lia)).
    assert (0 <= Qfloor x / 60) by (apply Z.div_pos; lia).
    lia. }
  pose proof (Qfloor_small q Hq B) as S. pose proof (Qfloor_small q' Hq' B') as S'.
  split; [now apply formatTimestamp_label|].
  split.
  - rewrite (formatTimestamp_label q D Hq B).
    rewrite formatTimestamp_label.
    + now rewrite Qfloor_Z.
    + now apply is_double_int.
    + change 0%Q with (inject_Z 0). rewrite <- Zle_Qle. lia.
    + rewrite pow2_Z by lia. rewrite <- Zlt_Qlt. lia.
  - split; [now apply R|]. split.
    + intros E. apply (f_equal (label_seconds [])) in E.
      rewrite !R in E by assumption. lia.
    + intros E. rewrite !formatTimestamp_label by assumption. now rewrite E.
Qed.

Lemma formatTimestamp_whole_seconds_witness :
  formatTimestamp (Num (Finite 3661.75)) = formatTimestamp (Num (Finite 3661))
  /\ label_seconds [] (formatTimestamp (Num (Finite 3661.75))) = 3661%N.
Proof.
  destruct (formatTimestamp_whole_seconds 3661.75 3661) as (_ & _ & R & E);
    [vm_compute; reflexivity | discriminate | vm_compute; reflexivity
    | vm_compute; reflexivity | discriminate | vm_compute; reflexivity |].
  split; [apply E; reflexivity | exact R].
Defined.

(** *** Negative times *)

Lemma round_half_even_small (x : Q) :
  (0 <= x)%Q -> (x <= 1 # 2)%Q -> round_half_even x = 0.
Proof.
  intros L U. unfold round_half_even.
  assert (F : Qfloor x = 0).
  { apply Qfloor_unique.
    - change (inject_Z 0) with 0%Q. exact L.
    - change (inject_Z (0 + 1)) with 1%Q. lra. }
  rewrite F. change (inject_Z 0) with 0%Q.
  destruct (Qcompare_spec (x - 0) (1 # 2)) as [E|E|E]; try reflexivity. lra.
Qed.

(** A number above [2^-1075] does not round to zero. *)
Lemma nearest_pos (a : Q) : (pow2 (-1075) < a)%Q -> (0 < nearest a)%Q.
Proof.
  intros H. pose proof (pow2_pos (-1075)) as P0.
  assert (Pa : (0 < a)%Q) by lra.
  unfold nearest. cbv zeta. set (c := ulp_exponent a).
  pose proof (pow2_pos c) as Pc. pose proof (pow2_pos (- c)) as Pc'.
  assert (X : ((1 # 2) < a * pow2 (- c))%Q).
  { destruct (ilog2_spec a Pa) as [L _].
    destruct (Z_le_gt_dec (-1074) (ilog2 a - 52)) as [Nm|Sb].
    - assert (C : - c = 52 + - ilog2 a) by (unfold c, ulp_exponent; lia).
      rewrite C, pow2_add.
      pose proof (pow2_opp (ilog2 a)) as O.
      pose proof (pow2_pos (- ilog2 a)) as Pi.
      assert (M : (pow2 (ilog2 a) * pow2 (- ilog2 a) <= a * pow2 (- ilog2 a))%Q)
        by (apply Qmult_le_compat_r; [exact L | now apply Qlt_le_weak]).
      change (pow2 52) with 4503599627370496%Q.
      set (u := (a * pow2 (- ilog2 a))%Q) in *.
      setoid_replace (a * (4503599627370496 * pow2 (- ilog2 a)))%Q
        with (4503599627370496 * u)%Q by (unfold u; ring).
      lra.
    - assert (C : - c = 1074) by (unfold c, ulp_exponent; lia).
      rewrite C.
      assert (M : (pow2 (-1075) * pow2 1074 < a * pow2 1074)%Q)
        by (apply Qmult_lt_compat_r; [apply pow2_pos | exact H]).
      rewrite <- pow2_add in M. change (pow2 (-1075 + 1074)) with (1 # 2)%Q in M.
      exact M. }
  destruct (round_half_even_bounds (a * pow2 (- c))) as (_ & Lo & _).
  assert (K : (0 < inject_Z (round_half_even (a * pow2 (- c))))%Q) by lra.
  setoid_replace 0%Q with (0 * pow2 c)%Q by ring.
  apply Qmult_lt_compat_r; assumption.
Qed.

Lemma toString_nonneg_nonempty (z : Z) : (1 <= List.length (toString_nonneg z))%nat.
Proof.
  unfold toString_nonneg.
  assert (L : forall n, (1 <= List.length (digits n))%nat).
  { intros n. unfold digits.
    pose proof (digits_aux_length_S (N.to_nat (N.log2 n)) n []) as X.
    cbn [List.length] in X. exact X. }
  destruct (_ <=? 21)%nat; [apply L|].
  destruct (significant _) as [|d [|d' rest]]; [apply L | |]; cbn [List.length]; lia.
Qed.

Lemma padStart_minus (z : Z) :
  z < 0 -> exists rest, padStart 2 (lit "0") (toString (IInt z)) = 45%N :: rest.
Proof.
  intros H. unfold toString.
  destruct (Z.ltb_spec z 0) as [_|]; [|lia].
  rewrite padStart_long.
  - eexists. reflexivity.
  - pose proof (toString_nonneg_nonempty (- z)). cbn [List.length]. lia.
Qed.

(** X13.  For a negative number of seconds the label starts with a minus
    sign, a negative time never yielding a label of digits around a
    colon, unless the time is so near zero that its quotient by 60 rounds
    to zero: from -30 * 2^-1074 up to zero the label is 00:-1. *)
Theorem formatTimestamp_negative_sign (q : Q) (Hq : (q < 0)%Q) :
  ((q < - (30 * pow2 (-1074)))%Q ->
   exists rest, formatTimestamp (Num (Finite q)) = 45%N :: rest)
  /\ ((- (30 * pow2 (-1074)) <= q)%Q ->
      formatTimestamp (Num (Finite q)) = lit "00:-1").
Proof.
  assert (T : truthy (Num (Finite q)) = true) by (apply truthy_nonzero; lra).
  assert (E : (q == 60 * (q / 60))%Q) by field.
  assert (S : (pow2 (-1074) == 2 * pow2 (-1075))%Q) by (apply (pow2_succ (-1075))).
  pose proof (pow2_pos (-1075)) as P0.
  set (r := (q / 60)%Q) in *.
  split; intros H; unfold formatTimestamp; rewrite T;
    cbn [negb to_number div_lit rem_lit Math_floor];
    change (inject_Z 60) with 60%Q; fold r.
  - rewrite round64_neg by lra.
    destruct (Qle_bool (pow2 1024) (nearest (- r))).
    + eexists. reflexivity.
    + cbn [Math_floor].
      assert (N : (0 < nearest (- r))%Q) by (apply nearest_pos; lra).
      assert (F : Qfloor (- nearest (- r)) < 0).
      { pose proof (Qfloor_le (- nearest (- r))) as L.
        rewrite Zlt_Qlt. change (inject_Z 0) with 0%Q. lra. }
      destruct (padStart_minus _ F) as [rest ->]. eexists. reflexivity.
  - assert (Pr : (0 < - r)%Q) by lra.
    assert (C : ulp_exponent (- r) = -1074).
    { assert (X : ilog2 (- r) < -1074) by (apply ilog2_lt; [exact Pr | lra]).
      unfold ulp_exponent. lia. }
    assert (N : (nearest (- r) == 0)%Q).
    { unfold nearest. cbv zeta. rewrite C. change (- -1074) with 1074.
      rewrite round_half_even_small.
      - change (inject_Z 0) with 0%Q. ring.
      - apply Qmult_le_0_compat; [lra | apply Qlt_le_weak, pow2_pos].
      - assert (M : (- r * pow2 1074 <= pow2 (-1075) * pow2 1074)%Q)
          by (apply Qmult_le_compat_r; [lra | apply Qlt_le_weak, pow2_pos]).
        rewrite <- pow2_add in M. change (pow2 (-1075 + 1074)) with (1 # 2)%Q in M.
        exact M. }
    rewrite round64_neg by lra.
    rewrite Qle_bool_false by (rewrite N; apply pow2_pos).
    cbn [Math_floor].
    assert (F0 : Qfloor (- nearest (- r)) = 0).
    { apply Qfloor_unique.
      - change (inject_Z 0) with 0%Q. lra.
      - change (inject_Z (0 + 1)) with 1%Q. lra. }
    assert (Tr : Qtrunc r = 0).
    { unfold Qtrunc. rewrite Qle_bool_false by lra.
      unfold Qceiling. rewrite (Qfloor_unique (- r) 0); [reflexivity | |].
      - change (inject_Z 0) with 0%Q. lra.
      - change (inject_Z (0 + 1)) with 1%Q.
        assert (O : (pow2 (-1075) < 1)%Q) by (change 1%Q with (pow2 0); apply pow2_lt; lia).
        lra. }
    assert (F1 : Qfloor (q - 60 * inject_Z 0) = -1).
    { apply Qfloor_unique.
      - change (inject_Z 0) with 0%Q. change (inject_Z (-1)) with (-1 # 1)%Q.
        assert (O : (pow2 (-1075) <= 1 # 60)%Q).
        { apply Qle_trans with (pow2 (-6)); [apply pow2_le; lia | discriminate]. }
        lra.
      - change (inject_Z 0) with 0%Q. change (inject_Z (-1 + 1)) with 0%Q. lra. }
    rewrite F0, Tr, F1. vm_compute. reflexivity.
Qed.

Lemma formatTimestamp_negative_sign_witness :
  (exists rest, formatTimestamp (Num (Finite (-90))) = 45%N :: rest)
  /\ formatTimestamp (Num (Finite (- pow2 (-1074)))) = lit "00:-1".
Proof.
  split.
  - apply (formatTimestamp_negative_sign (-90)); [reflexivity | vm_compute; reflexivity].
  - apply (formatTimestamp_negative_sign (- pow2 (-1074)));
      [vm_compute; reflexivity | vm_compute; discriminate].
Defined.

(** ** Accounts, sections and uploads *)

Ltac run_app :=
  unfold step, handler, aexec, aoutcome,
    initializeApp, initializeApp_settled, handleLogin, handleLogin_settled,
    handleLogin_user_settled, handleLogin_catch, handleRegister,
    handleRegister_settled, handleLogout, handleUpload, handleUpload_settled,
    loadLectures, loadLectures_settled, getCurrentUser, getCurrentUser_settled,
    showLogin, showRegister, showDashboard, showUploadModal, hideUploadModal,
    click_uploadModal, send, ajson, abind, atry, aget, amodify, aret, athrow;
  cbn.

(** Splits the conjunctions of a goal, leaving its equations alone. *)
Ltac conjs := repeat match goal with |- _ /\ _ => split end.

(** Runs the handlers by evaluation, on an application given by its
    fields. *)
Ltac eval_app a :=
  destruct a as [pg cu tok stored ls rs ds lb um lu lp ru re rp vt vd vf vt0 vd0 sn];
  vm_compute.

Lemma app_two {A} (l : list A) (x y : A) : l ++ [x; y] = (l ++ [x]) ++ [y].
Proof. now rewrite <- app_assoc. Qed.

Lemma on_page_exec {A} (c : M A) (a : App) :
  aexec (on_page c) a = set_page_state (exec c (page_state a)) a.
Proof.
  unfold aexec, on_page, exec. now destruct (c (page_state a)).
Qed.

(** X14.  The token variable and the token kept in localStorage stay in
    step: no event handler changes one without the other, so if they
    agree, as they do when the script starts, they agree after every
    sequence of events. *)
Theorem token_stays_in_sync (a : App) (es : list Event)
    (H : token_in_sync a) :
  token_in_sync (steps_from a es).
Proof.
  revert a H. induction es as [|e es IH]; intros a H; [exact H|].
  simpl. apply IH. clear IH es. unfold token_in_sync in *.
  destruct e;
    try (unfold step, handler; rewrite on_page_exec; exact H);
    try (destruct resp as [|[?|]|[?|]]);
    try (destruct target_is_modal);
    run_app; try exact H; try reflexivity.
  destruct (truthy_string (authToken a)); cbn; exact H.
Qed.

Lemma token_stays_in_sync_witness :
  token_in_sync
    (steps_from (loaded (Some (lit "old")))
       [DOMContentLoaded; InitUserSettled (NotOk None); SubmitLogin;
        LoginSettled (Ok (Some {| access_token := lit "new" |}));
        LoginUserSettled (Ok (Some ada)); ClickLogout]).
Proof.
  apply token_stays_in_sync. reflexivity.
Defined.


(** X15.  Once one of the three sections is displayed alone, with the
    logout button shown exactly when it is the dashboard, this stays so
    after every sequence of events: a handler either leaves the sections
    alone or moves to another section as a whole. *)
Theorem one_section_kept (a : App) (es : list Event)
    (H : one_section a) :
  one_section (steps_from a es).
Proof.
  revert a H. induction es as [|e es IH]; intros a H; [exact H|].
  simpl. apply IH. clear IH es.
  destruct e;
    try (unfold step, handler; rewrite on_page_exec; exact H);
    try (destruct resp as [|[?|]|[?|]]);
    try (destruct target_is_modal);
    destruct a as [pg cu tok stored ls rs ds lb um lu lp ru re rp vt vd vf vt0 vd0 sn];
    try (destruct tok as [[|c tok]|]);
    vm_compute in H; vm_compute; try exact H;
    try (left; repeat split; reflexivity);
    try (right; left; repeat split; reflexivity);
    try (right; right; repeat split; reflexivity).
Qed.

Lemma one_section_kept_witness :
  one_section
    (steps_from (loaded None)
       [DOMContentLoaded; ClickShowRegister; SubmitRegister;
        RegisterSettled (Ok (Some tt)); SubmitLogin;
        LoginSettled (Ok (Some {| access_token := lit "new" |}));
        LoginUserSettled Rejected; ClickUploadBtn]).
Proof.
  apply (one_section_kept (steps_from (loaded None) [DOMContentLoaded])
           [ClickShowRegister; SubmitRegister;
            RegisterSettled (Ok (Some tt)); SubmitLogin;
            LoginSettled (Ok (Some {| access_token := lit "new" |}));
            LoginUserSettled Rejected; ClickUploadBtn]).
  left. repeat split; reflexivity.
Defined.

(** *** The lecture list *)


Lemma filter_active_displayed (lectures : list Lecture) :
  filter active
    (List.map (fun lecture => {| item_lecture := lecture; active := false |}) lectures)
  = [].
Proof. induction lectures as [|x lectures IH]; simpl; [reflexivity | exact IH]. Qed.





Lemma loadLectures_settled_items (a : App) (lectures : list Lecture) :
  lecture_items (page_state (aexec (loadLectures_settled (Ok (Some lectures))) a))
  = List.map (fun lecture => {| item_lecture := lecture; active := false |}) lectures.
Proof. destruct a. reflexivity. Qed.



(** *** Signing in *)

(** X17.  A login that fails, because the request is rejected, the
    response is an error or its body cannot be read, signs nobody in: the
    user, the token and the stored token are as before, the same section
    is displayed, no further request is sent, the loading overlay is
    hidden and one error toast is shown; for an error response with a
    detail the toast shows that detail. *)
Theorem login_failure_changes_nothing (a : App)
    (resp : Response LoginData ErrorBody) (Hfail : request_failed resp) :
  aoutcome (handleLogin_settled resp) a = Return false
  /\ account (aexec (handleLogin_settled resp) a) = account a
  /\ sections (aexec (handleLogin_settled resp) a) = sections a
  /\ sent (aexec (handleLogin_settled resp) a) = sent a
  /\ loadingOverlay_display (page_state (aexec (handleLogin_settled resp) a)) = lit "none"
  /\ (exists m,
        toasts (page_state (aexec (handleLogin_settled resp) a))
        = toasts (page_state a) ++ [{| toast_message := m; toast_type := error |}]
        /\ forall err, resp = NotOk (Some err) -> m = detail_or err (lit "Login failed")).
Proof.
  destruct resp as [|[data|]|[err|]]; try (exfalso; exact Hfail);
    eval_app a; conjs; try reflexivity;
    eexists; (split; [reflexivity|]); intros e E; try discriminate E;
    inversion E; reflexivity.
Qed.

Lemma login_failure_changes_nothing_witness :
  account (aexec (handleLogin_settled
                    (NotOk (Some {| detail := Some (lit "Incorrect password") |})))
                 (aexec handleLogin (loaded None)))
  = (None, None, None)
  /\ toasts (page_state
               (aexec (handleLogin_settled
                         (NotOk (Some {| detail := Some (lit "Incorrect password") |})))
                      (aexec handleLogin (loaded None))))
     = [{| toast_message := lit "Incorrect password"; toast_type := error |}].
Proof.
  destruct (login_failure_changes_nothing (aexec handleLogin (loaded None))
              (NotOk (Some {| detail := Some (lit "Incorrect password") |})) I)
    as (_ & A & _ & _ & _ & (m & T & D)).
  split; [exact A|]. rewrite T, (D _ eq_refl). reflexivity.
Defined.

(** X18.  A login that succeeds stores the token of the answer in the
    variable and in localStorage and asks for the user with that token;
    when that request has settled, however it settled, the dashboard is
    displayed on its welcome screen, 'Login successful!' is shown, the
    lectures are requested with the token and the loading overlay is
    hidden.  The user kept is the one received, or null when the request
    for the user failed: the login is not undone. *)
Theorem login_success_enters_dashboard (a : App) (data : LoginData)
    (me : Response User unit) :
  aoutcome (handleLogin_settled (Ok (Some data))) a = Return true
  /\ authToken (aexec (handleLogin_settled (Ok (Some data))) a) = Some (access_token data)
  /\ localStorage_authToken (aexec (handleLogin_settled (Ok (Some data))) a)
     = Some (access_token data)
  /\ sent (aexec (handleLogin_settled (Ok (Some data))) a)
     = sent a ++ [GetMe (Some (access_token data))]
  /\ dashboard_shown
       (aexec (handleLogin_user_settled me) (aexec (handleLogin_settled (Ok (Some data))) a))
  /\ account
       (aexec (handleLogin_user_settled me) (aexec (handleLogin_settled (Ok (Some data))) a))
     = (user_of me, Some (access_token data), Some (access_token data))
  /\ sent
       (aexec (handleLogin_user_settled me) (aexec (handleLogin_settled (Ok (Some data))) a))
     = sent a ++ [GetMe (Some (access_token data)); GetLectures (Some (access_token data))]
  /\ toasts (page_state
       (aexec (handleLogin_user_settled me) (aexec (handleLogin_settled (Ok (Some data))) a)))
     = toasts (page_state a)
       ++ [{| toast_message := lit "Login successful!"; toast_type := success |}]
  /\ loadingOverlay_display (page_state
       (aexec (handleLogin_user_settled me) (aexec (handleLogin_settled (Ok (Some data))) a)))
     = lit "none".
Proof.
  rewrite app_two.
  destruct data as [token], me as [|[u|]|[b|]]; eval_app a; conjs; reflexivity.
Qed.

(** *** Starting *)

(** X19.  At start, with no stored token, or an empty one, the login
    section is displayed and nothing is requested.  With a token the user
    is requested with it; if a user comes back it is kept, the dashboard
    is displayed and the lectures are requested; if not, the login
    section is displayed and nothing else changes: the token stays in the
    variable and in localStorage, and no toast is shown. *)
Theorem initializeApp_outcomes (a : App) (resp : Response User unit) :
  (truthy_string (authToken a) = false ->
   aoutcome initializeApp a = Return false
   /\ login_shown (aexec initializeApp a)
   /\ sent (aexec initializeApp a) = sent a
   /\ account (aexec initializeApp a) = account a)
  /\ (truthy_string (authToken a) = true ->
      aoutcome initializeApp a = Return true
      /\ sent (aexec initializeApp a) = sent a ++ [GetMe (authToken a)]
      /\ sections (aexec initializeApp a) = sections a
      /\ account (aexec initializeApp a) = account a)
  /\ (forall u, resp = Ok (Some u) ->
      dashboard_shown (aexec (initializeApp_settled resp) a)
      /\ account (aexec (initializeApp_settled resp) a)
         = (Some u, authToken a, localStorage_authToken a)
      /\ sent (aexec (initializeApp_settled resp) a)
         = sent a ++ [GetLectures (authToken a)])
  /\ (request_failed resp ->
      login_shown (aexec (initializeApp_settled resp) a)
      /\ account (aexec (initializeApp_settled resp) a) = account a
      /\ sent (aexec (initializeApp_settled resp) a) = sent a
      /\ toasts (page_state (aexec (initializeApp_settled resp) a))
         = toasts (page_state a)).
Proof.
  destruct a as [pg cu tok stored ls rs ds lb um lu lp ru re rp vt vd vf vt0 vd0 sn].
  conjs.
  - destruct tok as [[|c tok]|]; intros T; try discriminate T;
      vm_compute; conjs; reflexivity.
  - destruct tok as [[|c tok]|]; intros T; try discriminate T;
      vm_compute; conjs; reflexivity.
  - intros u ->. vm_compute. conjs; reflexivity.
  - intros F. destruct resp as [|[u|]|[b|]]; try (exfalso; exact F);
      vm_compute; conjs; reflexivity.
Qed.

Lemma initializeApp_outcomes_witness :
  login_shown (aexec initializeApp (loaded None))
  /\ sent (aexec initializeApp (loaded (Some (lit "old")))) = [GetMe (Some (lit "old"))]
  /\ account (aexec (initializeApp_settled (Ok (Some ada)))
                    (aexec initializeApp (loaded (Some (lit "old")))))
     = (Some ada, Some (lit "old"), Some (lit "old"))
  /\ account (aexec (initializeApp_settled (NotOk None))
                    (aexec initializeApp (loaded (Some (lit "old")))))
     = (None, Some (lit "old"), Some (lit "old")).
Proof.
  destruct (initializeApp_outcomes (loaded None) Rejected) as (N & _ & _ & _).
  destruct (initializeApp_outcomes (loaded (Some (lit "old"))) Rejected)
    as (_ & T & _ & _).
  destruct (initializeApp_outcomes (aexec initializeApp (loaded (Some (lit "old"))))
              (Ok (Some ada))) as (_ & _ & U & _).
  destruct (initializeApp_outcomes (aexec initializeApp (loaded (Some (lit "old"))))
              (NotOk None)) as (_ & _ & _ & F).
  split; [apply N; reflexivity|].
  split; [apply T; reflexivity|].
  split.
  - destruct (U ada eq_refl) as (_ & A & _). exact A.
  - destruct (F I) as (_ & A & _). exact A.
Defined.

(** *** Signing out *)

(** X20.  After [handleLogout] nobody is signed in: the user, the token,
    the stored token and the current lecture are null and the login
    section is displayed.  The chat handlers then send nothing.  The
    page itself is not cleared: the chat messages and the lecture items
    of the user who left are still in it. *)
Theorem logout_signs_out (a : App) :
  account (aexec handleLogout a) = (None, None, None)
  /\ currentLecture (page_state (aexec handleLogout a)) = None
  /\ login_shown (aexec handleLogout a)
  /\ sent (aexec handleLogout a) = sent a
  /\ fetched (exec handleChatMessage (page_state (aexec handleLogout a)))
     = fetched (page_state a)
  /\ fetched (exec handleSummarize (page_state (aexec handleLogout a)))
     = fetched (page_state a)
  /\ chat_messages (page_state (aexec handleLogout a)) = chat_messages (page_state a)
  /\ lecture_items (page_state (aexec handleLogout a)) = lecture_items (page_state a).
Proof.
  eval_app a. conjs; reflexivity.
Qed.

(** *** The list of lectures *)

(** X21.  When the list of lectures arrives it replaces the items of the
    page, one per lecture in the order received, none of them active,
    also when a lecture is selected and its chat is open: the mark of the
    current lecture is not restored.  When the request fails the items
    stay as they were and 'Failed to load lectures' is shown. *)
Theorem loadLectures_outcomes (a : App) (resp : Response (list Lecture) unit) :
  (forall lectures, resp = Ok (Some lectures) ->
   List.map item_lecture (lecture_items (page_state (aexec (loadLectures_settled resp) a)))
   = lectures
   /\ filter active (lecture_items (page_state (aexec (loadLectures_settled resp) a))) = []
   /\ currentLecture (page_state (aexec (loadLectures_settled resp) a))
      = currentLecture (page_state a)
   /\ chatInterface_display (page_state (aexec (loadLectures_settled resp) a))
      = chatInterface_display (page_state a)
   /\ toasts (page_state (aexec (loadLectures_settled resp) a)) = toasts (page_state a))
  /\ (request_failed resp ->
      lecture_items (page_state (aexec (loadLectures_settled resp) a))
      = lecture_items (page_state a)
      /\ toasts (page_state (aexec (loadLectures_settled resp) a))
         = toasts (page_state a)
           ++ [{| toast_message := lit "Failed to load lectures"; toast_type := error |}]).
Proof.
  split.
  - intros lectures ->. rewrite loadLectures_settled_items. conjs.
    + rewrite map_map. cbn [item_lecture]. apply map_id.
    + apply filter_active_displayed.
    + eval_app a. reflexivity.
    + eval_app a. reflexivity.
    + eval_app a. reflexivity.
  - intros F. destruct resp as [|[lectures|]|[b|]]; try (exfalso; exact F);
      eval_app a; split; reflexivity.
Qed.

Lemma loadLectures_outcomes_witness :
  List.map active
    (lecture_items
       (page_state
          (aexec (loadLectures_settled (Ok (Some [completed_lecture; pending_lecture])))
                 (set_page_state (exec (selectLecture completed_lecture) closed_page)
                                 (loaded None)))))
  = [false; false]
  /\ currentLecture
       (page_state
          (aexec (loadLectures_settled (Ok (Some [completed_lecture; pending_lecture])))
                 (set_page_state (exec (selectLecture completed_lecture) closed_page)
                                 (loaded None))))
     = Some completed_lecture
  /\ lecture_items
       (page_state
          (aexec (loadLectures_settled Rejected)
                 (set_page_state (exec (selectLecture completed_lecture) closed_page)
                                 (loaded None))))
     = lecture_items (exec (selectLecture completed_lecture) closed_page).
Proof.
  destruct (loadLectures_outcomes
              (set_page_state (exec (selectLecture completed_lecture) closed_page)
                              (loaded None))
              (Ok (Some [completed_lecture; pending_lecture]))) as (S & _).
  destruct (loadLectures_outcomes
              (set_page_state (exec (selectLecture completed_lecture) closed_page)
                              (loaded None))
              Rejected) as (_ & F).
  destruct (S _ eq_refl) as (_ & _ & C & _).
  destruct (F I) as (L & _).
  split; [reflexivity|]. split; [exact C | exact L].
Defined.

(** *** Registering *)

(** X22.  Registering never signs in.  When the registration succeeds
    the login section is displayed and a success toast asks the user to
    log in; when it fails the section displayed stays and one error
    toast is shown.  Either way the user, the token and the stored token
    are as before, nothing further is requested and the loading overlay
    is hidden. *)
Theorem register_never_signs_in (a : App) (resp : Response unit ErrorBody) :
  account (aexec (handleRegister_settled resp) a) = account a
  /\ sent (aexec (handleRegister_settled resp) a) = sent a
  /\ loadingOverlay_display (page_state (aexec (handleRegister_settled resp) a))
     = lit "none"
  /\ (resp = Ok (Some tt) ->
      login_shown (aexec (handleRegister_settled resp) a)
      /\ toasts (page_state (aexec (handleRegister_settled resp) a))
         = toasts (page_state a)
           ++ [{| toast_message := lit "Registration successful! Please login.";
                  toast_type := success |}])
  /\ (request_failed resp ->
      sections (aexec (handleRegister_settled resp) a) = sections a
      /\ exists m,
           toasts (page_state (aexec (handleRegister_settled resp) a))
           = toasts (page_state a) ++ [{| toast_message := m; toast_type := error |}]).
Proof.
  destruct resp as [|[[]|]|[err|]]; eval_app a; conjs;
    try reflexivity; try (intros E; discriminate E);
    try (intros F; exfalso; exact F);
    intros _; conjs; try reflexivity; eexists; reflexivity.
Qed.

Lemma register_never_signs_in_witness :
  login_shown (aexec (handleRegister_settled (Ok (Some tt)))
                     (aexec showRegister (loaded None)))
  /\ sections (aexec (handleRegister_settled (NotOk None))
                     (aexec showRegister (loaded None)))
     = sections (aexec showRegister (loaded None)).
Proof.
  destruct (register_never_signs_in (aexec showRegister (loaded None)) (Ok (Some tt)))
    as (_ & _ & _ & S & _).
  destruct (register_never_signs_in (aexec showRegister (loaded None)) (NotOk None))
    as (_ & _ & _ & _ & F).
  split.
  - destruct (S eq_refl) as (L & _). exact L.
  - destruct (F I) as (E & _). exact E.
Defined.

(** *** Uploading *)

(** X23.  [handleUpload] sends what the form holds with the current
    token, also when no file is chosen.  When the upload succeeds the
    modal is hidden, the form is reset to its default values with no
    file chosen, a success toast is shown and the lectures are requested
    again; when it fails the modal stays as
    it is with the form as the user filled it, nothing is requested and
    one error toast is shown. *)
Theorem upload_outcomes (a : App) (resp : Response unit ErrorBody) :
  sent (aexec handleUpload a)
  = sent a ++ [PostUpload (authToken a) (video_title a) (video_description a)
                          (video_file a)]
  /\ upload_dialog (aexec handleUpload a) = upload_dialog a
  /\ (forall body, resp = Ok body ->
      upload_dialog (aexec (handleUpload_settled resp) a)
      = (lit "none", video_title_default a, video_description_default a, None)
      /\ sent (aexec (handleUpload_settled resp) a)
         = sent a ++ [GetLectures (authToken a)]
      /\ toasts (page_state (aexec (handleUpload_settled resp) a))
         = toasts (page_state a)
           ++ [{| toast_message :=
                    lit "Video uploaded successfully! Processing will begin shortly.";
                  toast_type := success |}])
  /\ ((resp = Rejected \/ exists body, resp = NotOk body) ->
      upload_dialog (aexec (handleUpload_settled resp) a) = upload_dialog a
      /\ sent (aexec (handleUpload_settled resp) a) = sent a
      /\ exists m,
           toasts (page_state (aexec (handleUpload_settled resp) a))
           = toasts (page_state a) ++ [{| toast_message := m; toast_type := error |}]).
Proof.
  conjs.
  - eval_app a. reflexivity.
  - eval_app a. reflexivity.
  - intros body ->. eval_app a. conjs; reflexivity.
  - intros [->|(body & ->)]; [|destruct body as [err|]]; eval_app a;
      conjs; try reflexivity; eexists; reflexivity.
Qed.

Lemma upload_outcomes_witness :
  upload_dialog (aexec (handleUpload_settled (Ok None))
                       (aexec handleUpload (aexec showUploadModal (loaded None))))
  = (lit "none", [], [], None)
  /\ upload_dialog (aexec (handleUpload_settled (NotOk None))
                          (aexec handleUpload (aexec showUploadModal (loaded None))))
     = (lit "flex", lit "Loops", [], None).
Proof.
  destruct (upload_outcomes (aexec handleUpload (aexec showUploadModal (loaded None)))
              (Ok None)) as (_ & _ & S & _).
  destruct (upload_outcomes (aexec handleUpload (aexec showUploadModal (loaded None)))
              (NotOk None)) as (_ & _ & _ & F).
  split.
  - destruct (S None eq_refl) as (D & _). exact D.
  - destruct F as (D & _); [right; now exists None | exact D].
Defined.

(** *** The loading overlay *)

(** X24.  Every handler that shows the loading overlay hides it again
    when it has finished, however its request settled: a login that
    failed, a login whose user request settled, a registration, an
    upload and a summary all end with the overlay hidden; a login that
    succeeded keeps it as it is while the user is being requested. *)
Theorem overlay_hidden_at_the_end (a : App)
    (login : Response LoginData ErrorBody) (me : Response User unit)
    (other : Response unit ErrorBody) (sum : Response SummaryData ErrorBody) :
  loadingOverlay_display (page_state (aexec handleLogin a)) = lit "flex"
  /\ loadingOverlay_display (page_state (aexec handleRegister a)) = lit "flex"
  /\ loadingOverlay_display (page_state (aexec handleUpload a)) = lit "flex"
  /\ loadingOverlay_display (page_state (aexec (handleLogin_settled login) a))
     = match login with
       | Ok (Some _) => loadingOverlay_display (page_state a)
       | _ => lit "none"
       end
  /\ loadingOverlay_display (page_state (aexec (handleLogin_user_settled me) a))
     = lit "none"
  /\ loadingOverlay_display (page_state (aexec (handleRegister_settled other) a))
     = lit "none"
  /\ loadingOverlay_display (page_state (aexec (handleUpload_settled other) a))
     = lit "none"
  /\ loadingOverlay_display (exec (handleSummarize_settled sum) (page_state a))
     = lit "none".
Proof.
  destruct a as [pg cu tok stored ls rs ds lb um lu lp ru re rp vt vd vf vt0 vd0 sn].
  conjs.
  - vm_compute. reflexivity.
  - vm_compute. reflexivity.
  - vm_compute. reflexivity.
  - destruct login as [|[d|]|[e|]]; vm_compute; reflexivity.
  - destruct me as [|[u|]|[b|]]; vm_compute; reflexivity.
  - destruct other as [|[[]|]|[e|]]; vm_compute; reflexivity.
  - destruct other as [|[[]|]|[e|]]; vm_compute; reflexivity.
  - destruct sum as [|[sd|]|[se|]]; vm_compute; reflexivity.
Qed.

(** ** Further examples *)

Example formatTimestamp_3661 :
  formatTimestamp (Num (Finite 3661)) = lit "61:01".
Proof. reflexivity. Qed.

Example formatTimestamp_fraction :
  formatTimestamp (Num (Finite (125.75))) = lit "02:05".
Proof. reflexivity. Qed.

Example formatTimestamp_negative :
  formatTimestamp (Num (Finite (-30))) = lit "-1:-30".
Proof. reflexivity. Qed.

Example trim_example : trim (lit "  hi there  ") = lit "hi there".
Proof. reflexivity. Qed.


Example chunk_small_budget :
  List.map (fun d => (Core.d_start d, Core.d_end d)) (Core.chunk 30 20 Samples.loops)
  = [(0, 25); (10, 40)]%Q.
Proof. reflexivity. Qed.

Example chunk_empty :
  Core.chunk 800 150 [] = [{| Core.d_text := ""; Core.d_start := 0; Core.d_end := 0 |}].
Proof. reflexivity. Qed.

Example formatTimestamp_minute_boundary :
  formatTimestamp (Num (Finite 59.9)) = lit "00:59"
  /\ formatTimestamp (Num (Finite 60)) = lit "01:00"
  /\ formatTimestamp (Num (Finite 6000)) = lit "100:00".
Proof. repeat split; reflexivity. Qed.

Example formatTimestamp_infinity :
  formatTimestamp (Num (Infinity false)) = lit "Infinity:NaN".
Proof. reflexivity. Qed.

Example history_with_null_references :
  chat_messages
    (exec (loadChatHistory_settled
             (Ok (Some [turn1;
                        {| user_message := lit "q"; bot_response := lit "a";
                           timestamp_references := RNull |}])))
          closed_page)
  = [Message user (lit "q") []].
Proof. reflexivity. Qed.
